(** * Block Translation Table (btt.c): a shallow embedding and its properties

    The development follows [src/btt.c].  The module is written against a
    set of callbacks ([nsread], [nswrite], [nsmap], [nssync]) and a general
    allocator, which are supplied by the embedder; here they are the fields
    of an [environment] over an abstract world [W], so that every theorem
    holds for all namespaces, including ones whose contents change between
    two calls (other lanes working on the same namespace).

    Conventions of the embedding:
    - C integers are [Z]; the wrap-around of a fixed-width type is written
      out with [u32], [u64], [s32], [s64];
    - the host is little-endian (the only kind the library supports), so
      [le32toh] and [htole32] are the identity on the value of a field and a
      32-bit field overlaid on a byte buffer has the little-endian value of
      its four bytes;
    - a pointer into an array of the handle is an index into a list; an
      access outside the array, a NULL dereference and a division by zero
      have no defined result in C and none in the model (the computation
      yields [None]);
    - every call of a callback, of the allocator and of a lock is appended
      to a trace, with the values it returned. *)

From Stdlib Require Import ZArith Lia Bool List.
From stdpp Require Import base option list gmap.
Import ListNotations.

Local Open Scope Z_scope.

(** ** Fixed-width integers *)

Definition u32 (z : Z) : Z := z mod 2 ^ 32.
Definition u64 (z : Z) : Z := z mod 2 ^ 64.
Definition s32 (z : Z) : Z := (z + 2 ^ 31) mod 2 ^ 32 - 2 ^ 31.
Definition s64 (z : Z) : Z := (z + 2 ^ 63) mod 2 ^ 64 - 2 ^ 63.
Definition UINT32_MAX : Z := 2 ^ 32 - 1.

(** Byte order conversions on a little-endian host. *)
Definition le32toh (z : Z) : Z := z.
Definition htole32 (z : Z) : Z := z.
Definition le64toh (z : Z) : Z := z.

(** The bytes of a 32-bit object, lowest address first. *)
Definition bytes_of_u32 (z : Z) : list Z :=
  [ Z.land z 255;
    Z.land (Z.shiftr z 8) 255;
    Z.land (Z.shiftr z 16) 255;
    Z.land (Z.shiftr z 24) 255 ].

(** The 32-bit object at byte offset [off] of a buffer.  A byte the
    callback did not store reads as 0. *)
Definition byte_at (buf : list Z) (i : nat) : Z := Z.land (nth i buf 0) 255.

Definition u32_at (buf : list Z) (off : nat) : Z :=
  Z.lor (byte_at buf off)
    (Z.lor (Z.shiftl (byte_at buf (off + 1)) 8)
       (Z.lor (Z.shiftl (byte_at buf (off + 2)) 16)
          (Z.shiftl (byte_at buf (off + 3)) 24))).

(** ** Constants *)

(** Modelled from the spec: the map entry encoding of btt_layout.h, which is
    not part of the sources at hand: bit 31 is ERROR, bit 30 is ZERO, bits
    29..0 are the post-map LBA, and an entry is 4 bytes. *)
Definition BTT_MAP_ENTRY_SIZE : Z := 4.
Definition BTT_MAP_ENTRY_ERROR : Z := 2 ^ 31.
Definition BTT_MAP_ENTRY_ZERO : Z := 2 ^ 30.
Definition BTT_MAP_ENTRY_LBA_MASK : Z := 2 ^ 30 - 1.

(** Modelled from the spec: a flog entry is four 32-bit fields. *)
Definition sizeof_btt_flog : Z := 16.

(** errno.h *)
Definition EIO : Z := 5.
Definition EINVAL : Z := 22.

(** [Nseq] and [NSEQ]: the 2-bit sequence numbers cycle 01, 10, 11. *)
Definition Nseq : list Z := [0; 2; 3; 1].
Definition NSEQ (seq : Z) : Z := nth (Z.to_nat (Z.land seq 3)) Nseq 0.

(** ** Data model *)

Record btt_flog := mk_flog {
  flog_lba : Z;
  flog_old_map : Z;
  flog_new_map : Z;
  flog_seq : Z
}.

(** [Zflog], and the state of a [flog_runtime] after [memset]. *)
Definition Zflog : btt_flog := mk_flog 0 0 0 0.

Record flog_runtime := mk_flog_runtime {
  flog : btt_flog;         (* current info *)
  entries0 : Z;            (* entries[0] *)
  entries1 : Z;            (* entries[1] *)
  next : Z                 (* next write (0 or 1) *)
}.

Definition flog_runtime0 : flog_runtime := mk_flog_runtime Zflog 0 0 0.

(** [entries[n]]: the array has two elements. *)
Definition entries (fr : flog_runtime) (n : Z) : option Z :=
  if n =? 0 then Some (entries0 fr)
  else if n =? 1 then Some (entries1 fr)
  else None.

(** The arrays of an arena are [None] while the pointer is NULL. *)
Record arena := mk_arena {
  flags : Z;
  external_nlba : Z;
  internal_lbasize : Z;
  internal_nlba : Z;
  startoff : Z;
  dataoff : Z;
  mapoff : Z;
  flogoff : Z;
  nextoff : Z;
  flogs : option (list flog_runtime);
  rtt : option (list Z);
  map_locks : option nat   (* number of initialised spin locks *)
}.

Definition arena0 : arena :=
  mk_arena 0 0 0 0 0 0 0 0 0 None None None.

Record btt := mk_btt {
  nlane : Z;
  laidout : Z;
  parent_uuid : list Z;
  rawsize : Z;
  lbasize : Z;
  nfree : Z;
  nlba : Z;
  narena : Z;
  arenas : option (list arena)
}.

Definition btt0 : btt := mk_btt 0 0 [] 0 0 0 0 0 None.

(** Field updates. *)
Definition set_flags (v : Z) (a : arena) : arena :=
  mk_arena v (external_nlba a) (internal_lbasize a) (internal_nlba a)
    (startoff a) (dataoff a) (mapoff a) (flogoff a) (nextoff a)
    (flogs a) (rtt a) (map_locks a).
Definition set_flogs (v : option (list flog_runtime)) (a : arena) : arena :=
  mk_arena (flags a) (external_nlba a) (internal_lbasize a) (internal_nlba a)
    (startoff a) (dataoff a) (mapoff a) (flogoff a) (nextoff a)
    v (rtt a) (map_locks a).
Definition set_rtt (v : option (list Z)) (a : arena) : arena :=
  mk_arena (flags a) (external_nlba a) (internal_lbasize a) (internal_nlba a)
    (startoff a) (dataoff a) (mapoff a) (flogoff a) (nextoff a)
    (flogs a) v (map_locks a).
Definition set_map_locks (v : option nat) (a : arena) : arena :=
  mk_arena (flags a) (external_nlba a) (internal_lbasize a) (internal_nlba a)
    (startoff a) (dataoff a) (mapoff a) (flogoff a) (nextoff a)
    (flogs a) (rtt a) v.

Definition set_nlane (v : Z) (b : btt) : btt :=
  mk_btt v (laidout b) (parent_uuid b) (rawsize b) (lbasize b) (nfree b)
    (nlba b) (narena b) (arenas b).
Definition set_laidout (v : Z) (b : btt) : btt :=
  mk_btt (nlane b) v (parent_uuid b) (rawsize b) (lbasize b) (nfree b)
    (nlba b) (narena b) (arenas b).
Definition set_nfree (v : Z) (b : btt) : btt :=
  mk_btt (nlane b) (laidout b) (parent_uuid b) (rawsize b) (lbasize b) v
    (nlba b) (narena b) (arenas b).
Definition set_nlba (v : Z) (b : btt) : btt :=
  mk_btt (nlane b) (laidout b) (parent_uuid b) (rawsize b) (lbasize b)
    (nfree b) v (narena b) (arenas b).
Definition set_narena (v : Z) (b : btt) : btt :=
  mk_btt (nlane b) (laidout b) (parent_uuid b) (rawsize b) (lbasize b)
    (nfree b) (nlba b) v (arenas b).
Definition set_arenas (v : option (list arena)) (b : btt) : btt :=
  mk_btt (nlane b) (laidout b) (parent_uuid b) (rawsize b) (lbasize b)
    (nfree b) (nlba b) (narena b) v.

(** ** The environment: namespace callbacks, mapped memory, allocator *)

Record environment (W : Type) := mk_environment {
  (* nsread ns lane count off: return value, bytes stored in buf *)
  nsread : W -> Z -> Z -> Z -> Z * list Z * W;
  (* nswrite ns lane buf count off: return value *)
  nswrite : W -> Z -> list Z -> Z -> Z -> Z * W;
  (* nsmap ns lane len off: return value, address stored in *addrp *)
  nsmap : W -> Z -> Z -> Z -> Z * Z * W;
  (* nssync ns lane addr len *)
  nssync : W -> Z -> Z -> Z -> W;
  (* a 32-bit load and store through a pointer obtained from nsmap *)
  load32 : W -> Z -> Z;
  store32 : W -> Z -> Z -> W;
  (* Malloc size: true when the result is not NULL *)
  Malloc : W -> Z -> bool * W
}.

Arguments nsread {W}.
Arguments nswrite {W}.
Arguments nsmap {W}.
Arguments nssync {W}.
Arguments load32 {W}.
Arguments store32 {W}.
Arguments Malloc {W}.

Inductive event :=
| EvMalloc (size : Z) (ok : bool)
| EvFree
| EvNsRead (lane count off ret : Z) (data : list Z)
| EvNsWrite (lane : Z) (buf : list Z) (count off ret : Z)
| EvNsMap (lane len off ret addr : Z)
| EvNsSync (lane addr len : Z)
| EvLoad32 (addr v : Z)
| EvStore32 (addr v : Z)
| EvMutexLock
| EvMutexUnlock
| EvSpinLock (arena_index : nat) (map_lock_num : Z)
| EvSpinUnlock (arena_index : nat) (map_lock_num : Z).

(** ** Machine state and the monad of the module's functions *)

Record state (W : Type) := mk_state {
  bt : btt;               (* the handle, *bttp *)
  world : W;              (* the namespace and the allocator *)
  trace : list event;     (* calls made so far, oldest first *)
  errno : Z               (* last value this module assigned to errno *)
}.

Arguments mk_state {W}.
Arguments bt {W}.
Arguments world {W}.
Arguments trace {W}.
Arguments errno {W}.

Definition M (W A : Type) : Type := state W -> option (A * state W).

Definition ret {W A} (a : A) : M W A := fun s => Some (a, s).

Definition bind {W A B} (m : M W A) (k : A -> M W B) : M W B :=
  fun s => match m s with
           | Some (a, s') => k a s'
           | None => None
           end.

(** Undefined behaviour. *)
Definition undef {W A} : M W A := fun _ => None.

Declare Scope btt_scope.
Delimit Scope btt_scope with btt.
Notation "x <- c1 ;; c2" := (bind c1 (fun x => c2))
  (at level 100, c1 at next level, right associativity) : btt_scope.
Notation "c1 ;; c2" := (bind c1 (fun _ => c2))
  (at level 100, right associativity) : btt_scope.
Local Open Scope btt_scope.

Definition of_option {W A} (o : option A) : M W A :=
  match o with Some a => ret a | None => undef end.

(** An array index: a negative one is out of bounds. *)
Definition index {A} (l : list A) (i : Z) : option A :=
  if i <? 0 then None else l !! Z.to_nat i.

Definition store {A} (l : list A) (i : Z) (x : A) : option (list A) :=
  match index l i with
  | Some _ => Some (<[Z.to_nat i := x]> l)
  | None => None
  end.

Notation "'let*' p := c1 'in' c2" :=
  (bind c1 (fun x => match x with p => c2 end))
  (at level 100, p pattern, c1 at next level, right associativity)
  : btt_scope.

(** ** The arena info block *)

Record btt_info := mk_info {
  info_sig : list Z;
  info_parent_uuid : list Z;
  info_flags : Z;
  info_major : Z;
  info_minor : Z;
  info_external_lbasize : Z;
  info_external_nlba : Z;
  info_internal_lbasize : Z;
  info_internal_nlba : Z;
  info_nfree : Z;
  info_infosize : Z;
  info_nextoff : Z;
  info_dataoff : Z;
  info_mapoff : Z;
  info_flogoff : Z;
  info_infooff : Z;
  info_checksum : Z
}.

Definition set_info_checksum (v : Z) (i : btt_info) : btt_info :=
  mk_info (info_sig i) (info_parent_uuid i) (info_flags i) (info_major i)
    (info_minor i) (info_external_lbasize i) (info_external_nlba i)
    (info_internal_lbasize i) (info_internal_nlba i) (info_nfree i)
    (info_infosize i) (info_nextoff i) (info_dataoff i) (info_mapoff i)
    (info_flogoff i) (info_infooff i) v.

(** [Sig]: "BTT_ARENA_INFO" and two NUL bytes. *)
Definition Sig : list Z :=
  [66; 84; 84; 95; 65; 82; 69; 78; 65; 95; 73; 78; 70; 79; 0; 0].

(** What the sources at hand use and do not declare: the constants of
    btt_layout.h, the byte layout of [struct btt_info], the checksum of
    util.h, and the sizes of the run-time structures.  They are parameters
    of the development. *)
Record layout_h := mk_layout_h {
  BTT_MIN_SIZE : Z;
  BTT_MAX_ARENA : Z;
  BTT_DEFAULT_NFREE : Z;
  BTT_ALIGNMENT : Z;
  BTT_FLOG_PAIR_ALIGN : Z;
  BTT_MIN_LBA : Z;
  BTT_INTERNAL_LBA_ALIGNMENT : Z;
  BTTINFO_FLAG_ERROR : Z;
  BTTINFO_FLAG_ERROR_MASK : Z;
  BTTINFO_MAJOR_VERSION : Z;
  BTTINFO_MINOR_VERSION : Z;
  sizeof_btt_info : Z;
  (* the struct overlaid on a buffer, and the bytes of a struct *)
  info_of_bytes : list Z -> btt_info;
  bytes_of_info : btt_info -> list Z;
  (* the checksum of an info block, its checksum field taken as zero *)
  checksum_of : btt_info -> Z;
  sizeof_btt : Z;
  sizeof_arena : Z;
  sizeof_flog_runtime : Z;
  sizeof_spinlock : Z
}.

(** [roundup] of sys/param.h; a division by zero has no result. *)
Definition roundup (x y : Z) : option Z :=
  if y =? 0 then None else Some (((x + (y - 1)) / y) * y).
Definition udiv (x y : Z) : option Z :=
  if y =? 0 then None else Some (x / y).
Definition umod (x y : Z) : option Z :=
  if y =? 0 then None else Some (x mod y).

(** The bytes of a flog entry. *)
Definition bytes_of_flog (f : btt_flog) : list Z :=
  bytes_of_u32 (flog_lba f) ++ bytes_of_u32 (flog_old_map f)
    ++ bytes_of_u32 (flog_new_map f) ++ bytes_of_u32 (flog_seq f).

(** The flog entry overlaid on a buffer at byte offset [off]. *)
Definition flog_at (buf : list Z) (off : nat) : btt_flog :=
  mk_flog (le32toh (u32_at buf off)) (le32toh (u32_at buf (off + 4)))
    (le32toh (u32_at buf (off + 8))) (le32toh (u32_at buf (off + 12))).

Section Btt.

Context {W : Type}.
Variable H : layout_h.
Variable E : environment W.

Abbreviation M := (M W).

(** *** Primitive steps *)

Definition get_bt : M btt := fun s => Some (bt s, s).

Definition put_bt (b : btt) : M unit :=
  fun s => Some (tt, mk_state b (world s) (trace s) (errno s)).

Definition modify_bt (f : btt -> btt) : M unit :=
  fun s => Some (tt, mk_state (f (bt s)) (world s) (trace s) (errno s)).

Definition set_errno (e : Z) : M unit :=
  fun s => Some (tt, mk_state (bt s) (world s) (trace s) e).

Definition log (ev : event) : M unit :=
  fun s => Some (tt, mk_state (bt s) (world s) (trace s ++ [ev]) (errno s)).

Definition call_nsread (lane count off : Z) : M (Z * list Z) :=
  fun s =>
    let '(r, data, w) := nsread E (world s) lane count off in
    Some ((r, data),
          mk_state (bt s) w (trace s ++ [EvNsRead lane count off r data])
            (errno s)).

Definition call_nswrite (lane : Z) (buf : list Z) (count off : Z) : M Z :=
  fun s =>
    let '(r, w) := nswrite E (world s) lane buf count off in
    Some (r, mk_state (bt s) w (trace s ++ [EvNsWrite lane buf count off r])
               (errno s)).

Definition call_nsmap (lane len off : Z) : M (Z * Z) :=
  fun s =>
    let '(r, addr, w) := nsmap E (world s) lane len off in
    Some ((r, addr),
          mk_state (bt s) w (trace s ++ [EvNsMap lane len off r addr])
            (errno s)).

Definition call_nssync (lane addr len : Z) : M unit :=
  fun s =>
    Some (tt, mk_state (bt s) (nssync E (world s) lane addr len)
                (trace s ++ [EvNsSync lane addr len]) (errno s)).

Definition call_load32 (addr : Z) : M Z :=
  fun s =>
    let v := load32 E (world s) addr in
    Some (v, mk_state (bt s) (world s) (trace s ++ [EvLoad32 addr v])
               (errno s)).

Definition call_store32 (addr v : Z) : M unit :=
  fun s =>
    Some (tt, mk_state (bt s) (store32 E (world s) addr v)
                (trace s ++ [EvStore32 addr v]) (errno s)).

Definition call_Malloc (size : Z) : M bool :=
  fun s =>
    let '(ok, w) := Malloc E (world s) size in
    Some (ok, mk_state (bt s) w (trace s ++ [EvMalloc size ok]) (errno s)).

(** *** Access to the arrays of the handle *)

(** [bttp->arenas[arenap]] *)
Definition get_arena (arenap : nat) : M arena :=
  b <- get_bt ;;
  l <- of_option (arenas b) ;;
  of_option (l !! arenap).

Definition put_arena (arenap : nat) (a : arena) : M unit :=
  b <- get_bt ;;
  l <- of_option (arenas b) ;;
  _ <- of_option (l !! arenap) ;;
  put_bt (set_arenas (Some (<[arenap := a]> l)) b).

(** [arenap->flogs[i]] *)
Definition get_flog (arenap : nat) (i : Z) : M flog_runtime :=
  a <- get_arena arenap ;;
  fl <- of_option (flogs a) ;;
  of_option (index fl i).

Definition put_flog (arenap : nat) (i : Z) (fr : flog_runtime) : M unit :=
  a <- get_arena arenap ;;
  fl <- of_option (flogs a) ;;
  fl' <- of_option (store fl i fr) ;;
  put_arena arenap (set_flogs (Some fl') a).

(** [arenap->rtt[lane] = v] *)
Definition put_rtt (arenap : nat) (lane v : Z) : M unit :=
  a <- get_arena arenap ;;
  r <- of_option (rtt a) ;;
  r' <- of_option (store r lane v) ;;
  put_arena arenap (set_rtt (Some r') a).

(** *** read_flog_pair *)

Definition read_flog_pair (lane : Z) (arenap : nat) (flog_off : Z)
    (flog_runtimep : Z) (flognum : Z) : M Z :=
  fr <- get_flog arenap flog_runtimep ;;
  put_flog arenap flog_runtimep
    (mk_flog_runtime (flog fr) flog_off (s64 (flog_off + sizeof_btt_flog))
       (next fr)) ;;
  let* (r, flog_pair) := call_nsread lane (2 * sizeof_btt_flog) flog_off in
  if r <? 0 then ret (-1) else
  let flog_pair0 := flog_at flog_pair 0 in
  let flog_pair1 := flog_at flog_pair 16 in
  if flog_seq flog_pair0 =? flog_seq flog_pair1 then
    a <- get_arena arenap ;;
    put_arena arenap
      (set_flags (Z.lor (flags a) (BTTINFO_FLAG_ERROR H)) a) ;;
    ret 0
  else
    let '(currentp, nxt) :=
      if flog_seq flog_pair0 =? 0 then (flog_pair1, 0)
      else if flog_seq flog_pair1 =? 0 then (flog_pair0, 1)
      else if NSEQ (flog_seq flog_pair0) =? flog_seq flog_pair1
           then (flog_pair1, 0)
      else (flog_pair0, 1) in
    fr <- get_flog arenap flog_runtimep ;;
    (* flog_runtimep->next = nxt; flog_runtimep->flog = *currentp *)
    put_flog arenap flog_runtimep
      (mk_flog_runtime currentp (entries0 fr) (entries1 fr) nxt) ;;
    if flog_old_map currentp =? flog_new_map currentp then ret 0 else
    a <- get_arena arenap ;;
    (* BTT_MAP_ENTRY_SIZE is an int constant and lba a uint32_t: their
       product is taken in 32 bits *)
    let map_entry_off :=
      s64 (mapoff a + u32 (BTT_MAP_ENTRY_SIZE * flog_lba currentp)) in
    let* (r, buf) := call_nsread lane 4 map_entry_off in
    if r <? 0 then ret (-1) else
    let entry := le32toh (u32_at buf 0) in
    if negb (flog_new_map currentp =? entry)
       && (flog_old_map currentp =? entry) then
      r <- call_nswrite lane (bytes_of_u32 (htole32 (flog_new_map currentp)))
             4 map_entry_off ;;
      if r <? 0 then ret (-1) else ret 0
    else ret 0.

(** *** flog_update *)

Definition flog_update (lane : Z) (arenap : nat)
    (lba old_map new_map : Z) : M Z :=
  fr <- get_flog arenap lane ;;
  let new_flog_seq := htole32 (NSEQ (flog_seq (flog fr))) in
  new_flog_off <- of_option (entries fr (next fr)) ;;
  (* write out first three fields first *)
  r <- call_nswrite lane
         (bytes_of_u32 (htole32 lba) ++ bytes_of_u32 (htole32 old_map)
            ++ bytes_of_u32 (htole32 new_map))
         (4 * 3) new_flog_off ;;
  if r <? 0 then ret (-1) else
  let new_flog_off := s64 (new_flog_off + 4 * 3) in
  (* write out seq field to make it active *)
  r <- call_nswrite lane (bytes_of_u32 new_flog_seq) 4 new_flog_off ;;
  if r <? 0 then ret (-1) else
  (* flog entry written successfully, update run-time state *)
  fr <- get_flog arenap lane ;;
  put_flog arenap lane
    (mk_flog_runtime
       (mk_flog lba old_map new_map (NSEQ (flog_seq (flog fr))))
       (entries0 fr) (entries1 fr) (1 - next fr)) ;;
  ret 0.

(** *** read_flogs *)

Fixpoint read_flogs_loop (n : nat) (lane : Z) (arenap : nat)
    (flog_off : Z) (i : Z) : M Z :=
  match n with
  | O => ret 0
  | S n' =>
      r <- read_flog_pair lane arenap flog_off i i ;;
      if r <? 0 then ret (-1) else
      step <- of_option
                (roundup (2 * sizeof_btt_flog) (BTT_FLOG_PAIR_ALIGN H)) ;;
      read_flogs_loop n' lane arenap (s64 (flog_off + step)) (i + 1)
  end.

Definition read_flogs (lane : Z) (arenap : nat) : M Z :=
  b <- get_bt ;;
  ok <- call_Malloc (u64 (nfree b * sizeof_flog_runtime H)) ;;
  a <- get_arena arenap ;;
  if negb ok then
    put_arena arenap (set_flogs None a) ;; ret (-1)
  else
    (* memset *)
    put_arena arenap
      (set_flogs (Some (replicate (Z.to_nat (nfree b)) flog_runtime0)) a) ;;
    read_flogs_loop (Z.to_nat (nfree b)) lane arenap (s64 (flogoff a)) 0.

(** *** build_rtt, build_map_locks *)

Definition build_rtt (arenap : nat) : M Z :=
  b <- get_bt ;;
  ok <- call_Malloc (u64 (nfree b * 4)) ;;
  a <- get_arena arenap ;;
  if negb ok then
    put_arena arenap (set_rtt None a) ;; ret (-1)
  else
    put_arena arenap
      (set_rtt (Some (replicate (Z.to_nat (nfree b)) BTT_MAP_ENTRY_ERROR))
         a) ;;
    ret 0.

Definition build_map_locks (arenap : nat) : M Z :=
  b <- get_bt ;;
  ok <- call_Malloc (u64 (nfree b * sizeof_spinlock H)) ;;
  a <- get_arena arenap ;;
  if negb ok then
    put_arena arenap (set_map_locks None a) ;; ret (-1)
  else
    put_arena arenap (set_map_locks (Some (Z.to_nat (nfree b))) a) ;;
    ret 0.

(** *** read_arena *)

Definition read_arena (lane : Z) (arena_off : Z) (arenap : nat) : M Z :=
  let* (r, buf) := call_nsread lane (sizeof_btt_info H) arena_off in
  if r <? 0 then ret (-1) else
  let info := info_of_bytes H buf in
  a <- get_arena arenap ;;
  put_arena arenap
    (mk_arena
       (le32toh (info_flags info))
       (le64toh (info_external_nlba info))
       (le32toh (info_internal_lbasize info))
       (le32toh (info_internal_nlba info))
       (u64 arena_off)
       (u64 (arena_off + le64toh (info_dataoff info)))
       (u64 (arena_off + le64toh (info_mapoff info)))
       (u64 (arena_off + le64toh (info_flogoff info)))
       (u64 (arena_off + le64toh (info_nextoff info)))
       (flogs a) (rtt a) (map_locks a)) ;;
  r <- read_flogs lane arenap ;;
  if r <? 0 then ret (-1) else
  r <- build_rtt arenap ;;
  if r <? 0 then ret (-1) else
  r <- build_map_locks arenap ;;
  if r <? 0 then ret (-1) else
  ret 0.

(** *** read_arenas *)

Definition is_some {A} (o : option A) : bool :=
  match o with Some _ => true | None => false end.

(** The loop of the error path and of [btt_fini]; [guard] is the field
    tested before [map_locks] is freed. *)
Fixpoint free_arenas_loop (guard : arena -> bool) (n : nat) (i : nat)
    : M unit :=
  match n with
  | O => ret tt
  | S n' =>
      a <- get_arena i ;;
      (if is_some (flogs a) then log EvFree else ret tt) ;;
      (if is_some (rtt a) then log EvFree else ret tt) ;;
      (if guard a then log EvFree else ret tt) ;;
      free_arenas_loop guard n' (S i)
  end.

Definition read_arenas_err : M Z :=
  b <- get_bt ;;
  (if is_some (arenas b) then
     free_arenas_loop (fun a => is_some (map_locks a))
       (Z.to_nat (narena b)) 0 ;;
     log EvFree ;;
     modify_bt (set_arenas None)
   else ret tt) ;;
  ret (-1).

Fixpoint read_arenas_loop (n : nat) (lane : Z) (arena_off : Z)
    (arenap : nat) : M Z :=
  match n with
  | O => ret 0
  | S n' =>
      r <- read_arena lane arena_off arenap ;;
      if r <? 0 then ret (-1) else
      a <- get_arena arenap ;;
      read_arenas_loop n' lane (s64 (nextoff a)) (S arenap)
  end.

Definition read_arenas (lane : Z) (narena : Z) : M Z :=
  ok <- call_Malloc (u64 (narena * sizeof_arena H)) ;;
  if negb ok then
    modify_bt (set_arenas None) ;; read_arenas_err
  else
    (* memset *)
    modify_bt (set_arenas (Some (replicate (Z.to_nat narena) arena0))) ;;
    r <- read_arenas_loop (Z.to_nat narena) lane 0 0 ;;
    if r <? 0 then read_arenas_err else
    modify_bt (set_laidout 1) ;;
    ret 0.
(** *** write_layout

    The ASSERT macros of out.h are compiled in debug builds only and are
    left out; RANGE_RO and RANGE_RW likewise. *)

(** The loop that writes out the initial map, identity style.  [mapp] is 0
    while the pointer is NULL. *)
Fixpoint write_map_loop (n : nat) (lane : Z) (external_nlba : Z)
    (map_entry_off : Z) (i mapp mlen next_index remaining : Z)
    : M (Z * Z * Z) :=
  match n with
  | O => ret (0, mapp, mlen)
  | S n' =>
      let body (mapp mlen next_index remaining : Z) : M (Z * Z * Z) :=
        call_store32 (mapp + 4 * next_index)
          (htole32 (u32 (Z.lor i BTT_MAP_ENTRY_ZERO))) ;;
        write_map_loop n' lane external_nlba map_entry_off (i + 1)
          mapp mlen (s32 (next_index + 1)) (s32 (remaining - 4)) in
      if remaining =? 0 then
        (* flush previous mapped area *)
        (if negb (mapp =? 0) then call_nssync lane mapp mlen else ret tt) ;;
        (* request a mapping of remaining map area *)
        let* (r, addr) :=
          call_nsmap lane (u64 ((external_nlba - i) * 4)) map_entry_off in
        let mlen := s32 r in
        if mlen <? 0 then ret (-1, addr, mlen) else
        body addr mlen 0 mlen
      else body mapp mlen next_index remaining
  end.

(** The loop that writes out the initial flog. *)
Fixpoint write_flog_loop (n : nat) (lane : Z) (flog_entry_off : Z)
    (next_free_lba : Z) : M Z :=
  match n with
  | O => ret 0
  | S n' =>
      let m := htole32 (u32 (Z.lor next_free_lba BTT_MAP_ENTRY_ZERO)) in
      let flog := mk_flog 0 m m (htole32 1) in
      r <- call_nswrite lane (bytes_of_flog flog) sizeof_btt_flog
             flog_entry_off ;;
      if r <? 0 then ret (-1) else
      let flog_entry_off := s64 (flog_entry_off + sizeof_btt_flog) in
      r <- call_nswrite lane (bytes_of_flog Zflog) sizeof_btt_flog
             flog_entry_off ;;
      if r <? 0 then ret (-1) else
      let flog_entry_off := s64 (flog_entry_off + sizeof_btt_flog) in
      off <- of_option (roundup flog_entry_off (BTT_FLOG_PAIR_ALIGN H)) ;;
      write_flog_loop n' lane (s64 off) (u32 (next_free_lba + 1))
  end.

(** The body of the loop over the arenas, after [rawsize] was reduced and
    [arena_num] advanced.  Its result is the status (negative: return -1
    from write_layout) with the new [total_nlba] and [arena_off]. *)
Definition write_layout_arena (lane : Z) (write : Z) (flog_size : Z)
    (internal_lbasize : Z) (arena_rawsize rawsize : Z)
    (total_nlba arena_off : Z) : M (Z * Z * Z) :=
  b <- get_bt ;;
  let arena_datasize := arena_rawsize in
  let arena_datasize := u64 (arena_datasize - 2 * sizeof_btt_info H) in
  let arena_datasize := u64 (arena_datasize - flog_size) in
  (* allow for map alignment padding *)
  internal_nlba <-
    of_option (udiv (u64 (arena_datasize - BTT_ALIGNMENT H))
                 (u32 (internal_lbasize + BTT_MAP_ENTRY_SIZE))) ;;
  let external_nlba := u64 (internal_nlba - nfree b) in
  let total_nlba := u64 (total_nlba + external_nlba) in
  if write =? 0 then ret (0, total_nlba, arena_off) else
  mapsize0 <- of_option
                (roundup (u64 (external_nlba * BTT_MAP_ENTRY_SIZE))
                   (BTT_ALIGNMENT H)) ;;
  let mapsize := u64 mapsize0 in
  let nextoff := if BTT_MIN_SIZE H <=? rawsize then arena_rawsize else 0 in
  let infooff := u64 (arena_rawsize - sizeof_btt_info H) in
  let flogoff := u64 (infooff - flog_size) in
  let mapoff := u64 (flogoff - mapsize) in
  let dataoff := u64 (sizeof_btt_info H) in
  (* write out the initial map, identity style *)
  let map_entry_off := s64 (arena_off + mapoff) in
  let* (r, mapp, mlen) :=
    write_map_loop (Z.to_nat external_nlba) lane external_nlba
      map_entry_off 0 0 0 0 0 in
  if r <? 0 then ret (-1, total_nlba, arena_off) else
  (* flush previous mapped area *)
  (if negb (mapp =? 0) then call_nssync lane mapp mlen else ret tt) ;;
  (* write out the initial flog *)
  r <- write_flog_loop (Z.to_nat (nfree b)) lane (s64 (arena_off + flogoff))
         (u32 external_nlba) ;;
  if r <? 0 then ret (-1, total_nlba, arena_off) else
  (* construct the BTT info block and write it out at both ends *)
  let info :=
    mk_info Sig (parent_uuid b) 0
      (BTTINFO_MAJOR_VERSION H) (BTTINFO_MINOR_VERSION H)
      (htole32 (lbasize b)) (htole32 (u32 external_nlba))
      (htole32 internal_lbasize) (htole32 (u32 internal_nlba))
      (htole32 (nfree b)) (htole32 (u32 (sizeof_btt_info H)))
      nextoff dataoff mapoff flogoff infooff 0 in
  let info := set_info_checksum (checksum_of H info) info in
  r <- call_nswrite lane (bytes_of_info H info) (sizeof_btt_info H)
         arena_off ;;
  if r <? 0 then ret (-1, total_nlba, arena_off) else
  r <- call_nswrite lane (bytes_of_info H info) (sizeof_btt_info H)
         (s64 (arena_off + infooff)) ;;
  if r <? 0 then ret (-1, total_nlba, arena_off) else
  ret (0, total_nlba, s64 (arena_off + nextoff)).

(** The loop over the arenas.  Every turn takes [arena_rawsize] bytes off
    [rawsize], at least one unless [rawsize] is 0, so [fuel] starts as
    [rawsize]; with no turn left [rawsize] is 0 and the loop, if still
    entered, would not end. *)
Fixpoint write_layout_loop (fuel : nat) (lane : Z) (write : Z)
    (flog_size internal_lbasize : Z) (rawsize total_nlba arena_off : Z)
    : M (Z * Z) :=
  if rawsize <? BTT_MIN_SIZE H then ret (0, total_nlba) else
  match fuel with
  | O => undef
  | S fuel' =>
      let arena_rawsize :=
        if BTT_MAX_ARENA H <? rawsize then BTT_MAX_ARENA H else rawsize in
      let rawsize := u64 (rawsize - arena_rawsize) in
      let* (r, total_nlba, arena_off) :=
        write_layout_arena lane write flog_size internal_lbasize
          arena_rawsize rawsize total_nlba arena_off in
      if r <? 0 then ret (-1, total_nlba) else
      write_layout_loop fuel' lane write flog_size internal_lbasize
        rawsize total_nlba arena_off
  end.

Definition write_layout (lane : Z) (write : Z) : M Z :=
  b <- get_bt ;;
  q <- of_option (udiv (rawsize b) (BTT_MAX_ARENA H)) ;;
  m <- of_option (umod (rawsize b) (BTT_MAX_ARENA H)) ;;
  let narena' := s32 q in
  let narena' :=
    if BTT_MIN_SIZE H <=? m then s32 (narena' + 1) else narena' in
  modify_bt (set_narena narena') ;;
  pair <- of_option
            (roundup (2 * sizeof_btt_flog) (BTT_FLOG_PAIR_ALIGN H)) ;;
  let flog_size := s32 (u64 (nfree b * pair)) in
  flog_size <- of_option (roundup flog_size (BTT_ALIGNMENT H)) ;;
  let flog_size := s32 flog_size in
  let internal_lbasize := lbasize b in
  let internal_lbasize :=
    if internal_lbasize <? BTT_MIN_LBA H then u32 (BTT_MIN_LBA H)
    else internal_lbasize in
  internal_lbasize <-
    of_option (roundup internal_lbasize (BTT_INTERNAL_LBA_ALIGNMENT H)) ;;
  let internal_lbasize := u32 internal_lbasize in
  let* (r, total_nlba) :=
    write_layout_loop (Z.to_nat (rawsize b)) lane write flog_size
      internal_lbasize (rawsize b) 0 0 in
  if r <? 0 then ret (-1) else
  modify_bt (set_nlba total_nlba) ;;
  if negb (write =? 0) then
    (* the layout is written now, so load up the arenas *)
    b <- get_bt ;;
    read_arenas lane (narena b)
  else ret 0.

(** *** read_info *)

(** [util_checksum] with [insert] 0: is the stored checksum the one the
    block has?  The fields are already in host order. *)
Definition util_checksum_ok (info : btt_info) : bool :=
  info_checksum info =? checksum_of H info.

Definition read_info (info : btt_info) : bool :=
  if negb (bool_decide (info_sig info = Sig)) then false
  else if le32toh (info_major info) =? 0 then false
  else if negb (util_checksum_ok info) then false
  else true.

(** *** read_layout

    The walk follows [nextoff] as found on the media and takes it off
    [rawsize] in 64 bits, which may wrap; nothing bounds the number of
    turns, so the loop takes fuel. *)
Fixpoint read_layout_loop (fuel : nat) (lane : Z)
    (narena smallest_nfree rawsize total_nlba arena_off : Z)
    : M (option (Z * Z * Z) + Z) :=
  (* inl None: out of fuel; inl (Some (narena, smallest_nfree, total_nlba)):
     the loop is left; inr status: read_layout returns status *)
  if rawsize <? BTT_MIN_SIZE H then
    ret (inl (Some (narena, smallest_nfree, total_nlba)))
  else
  match fuel with
  | O => ret (inl None)
  | S fuel' =>
      let narena := s32 (narena + 1) in
      let* (r, buf) := call_nsread lane (sizeof_btt_info H) arena_off in
      if r <? 0 then ret (inr (-1)) else
      let info := info_of_bytes H buf in
      if negb (read_info info) then
        r <- write_layout lane 0 ;; ret (inr r)
      else
      let smallest_nfree :=
        if info_nfree info <? smallest_nfree then info_nfree info
        else smallest_nfree in
      let total_nlba := u64 (total_nlba + info_external_nlba info) in
      let arena_off := s64 (arena_off + info_nextoff info) in
      if info_nextoff info =? 0 then
        ret (inl (Some (narena, smallest_nfree, total_nlba)))
      else
      let rawsize := u64 (rawsize - info_nextoff info) in
      read_layout_loop fuel' lane narena smallest_nfree rawsize total_nlba
        arena_off
  end.

Definition read_layout (fuel : nat) (lane : Z) : M Z :=
  b <- get_bt ;;
  modify_bt (set_nfree (BTT_DEFAULT_NFREE H)) ;;
  out <- read_layout_loop fuel lane 0 UINT32_MAX (rawsize b) 0 0 ;;
  match out with
  | inr r => ret r
  | inl None => undef
  | inl (Some (narena, smallest_nfree, total_nlba)) =>
      modify_bt (set_narena narena) ;;
      modify_bt (set_nlba total_nlba) ;;
      (* All arenas were valid.  nfree should be the smallest value found. *)
      b <- get_bt ;;
      (if smallest_nfree <? nfree b
       then modify_bt (set_nfree smallest_nfree) else ret tt) ;;
      read_arenas lane narena
  end.
(** *** invalid_lba, zero_block, lba_to_arena_lba *)

Definition invalid_lba (lba : Z) : M Z :=
  b <- get_bt ;;
  if nlba b <=? lba then set_errno EINVAL ;; ret 1 else ret 0.

(** The block of zeros left in the caller's buffer. *)
Definition zero_block : M (Z * list Z) :=
  b <- get_bt ;;
  ret (0, replicate (Z.to_nat (lbasize b)) 0).

(** The result is the index of the arena, which is [narena] when the loop
    runs off the end, and the pre-map LBA. *)
Fixpoint lba_to_arena_lba_loop (n : nat) (arena : nat) (lba : Z)
    : M (nat * Z) :=
  match n with
  | O => ret (arena, lba)
  | S n' =>
      a <- get_arena arena ;;
      if lba <? external_nlba a then ret (arena, lba)
      else lba_to_arena_lba_loop n' (S arena) (u64 (lba - external_nlba a))
  end.

Definition lba_to_arena_lba (lba : Z) : M (Z * nat * Z) :=
  b <- get_bt ;;
  let* (arena, lba) := lba_to_arena_lba_loop (Z.to_nat (narena b)) 0 lba in
  ret (0, arena, u32 lba).

(** *** btt_fini *)

Definition btt_fini : M unit :=
  b <- get_bt ;;
  (if is_some (arenas b) then
     free_arenas_loop (fun a => is_some (rtt a)) (Z.to_nat (narena b)) 0 ;;
     log EvFree
   else ret tt) ;;
  log EvFree.

(** *** btt_init, btt_nlane, btt_nlba *)

Definition btt_init (fuel : nat) (rawsize lbasize : Z)
    (parent_uuid : list Z) (maxlane : Z) : M (option btt) :=
  if rawsize <? BTT_MIN_SIZE H then
    set_errno EINVAL ;; ret None
  else
  ok <- call_Malloc (sizeof_btt H) ;;
  if negb ok then ret None else
  (* memset, and the fields given by the caller *)
  put_bt (mk_btt 0 0 (firstn 16 parent_uuid) rawsize lbasize 0 0 0 None) ;;
  r <- read_layout fuel 0 ;;
  if r <? 0 then
    btt_fini ;; ret None
  else
  b <- get_bt ;;
  modify_bt (set_nlane (s32 (nfree b))) ;;
  (* maxlane, if provided, is an upper bound on nlane *)
  b <- get_bt ;;
  (if negb (maxlane =? 0) && (maxlane <? nlane b)
   then modify_bt (set_nlane maxlane) else ret tt) ;;
  b <- get_bt ;;
  ret (Some b).

Definition btt_nlane : M Z := b <- get_bt ;; ret (nlane b).

Definition btt_nlba : M Z := b <- get_bt ;; ret (nlba b).

(** *** btt_read *)

(** The retry loop and what follows it.  Another lane may change the map
    between two reads, and nothing bounds the number of retries: the loop
    takes fuel. *)
Fixpoint btt_read_loop (fuel : nat) (lane : Z) (arenap : nat)
    (map_entry_off : Z) (entry : Z) (buf : list Z) : M (Z * list Z) :=
  match fuel with
  | O => undef
  | S fuel' =>
      if negb (Z.land entry BTT_MAP_ENTRY_ERROR =? 0) then
        set_errno EIO ;; ret (-1, buf)
      else if negb (Z.land entry BTT_MAP_ENTRY_ZERO =? 0) then
        zero_block
      else
        put_rtt arenap lane entry ;;
        let* (r, data) := call_nsread lane 4 map_entry_off in
        if r <? 0 then
          put_rtt arenap lane BTT_MAP_ENTRY_ERROR ;; ret (-1, buf)
        else
        let latest_entry := le32toh (u32_at data 0) in
        if entry =? latest_entry then
          (* map stayed the same: it is safe to read the block now *)
          a <- get_arena arenap ;;
          b <- get_bt ;;
          let data_block_off :=
            s64 (dataoff a + u32 (entry * internal_lbasize a)) in
          let* (readret, data) :=
            call_nsread lane (lbasize b) data_block_off in
          (* done with read, so clear out rtt entry *)
          put_rtt arenap lane BTT_MAP_ENTRY_ERROR ;;
          ret (readret, data)
        else
          (* try again *)
          btt_read_loop fuel' lane arenap map_entry_off latest_entry buf
  end.

Definition btt_read (fuel : nat) (lane : Z) (lba : Z) (buf : list Z)
    : M (Z * list Z) :=
  inv <- invalid_lba lba ;;
  if negb (inv =? 0) then ret (-1, buf) else
  b <- get_bt ;;
  (* if there's no layout written yet, all reads come back as zeros *)
  if laidout b =? 0 then zero_block else
  let* (r, arenap, premap_lba) := lba_to_arena_lba lba in
  if r <? 0 then ret (-1, buf) else
  a <- get_arena arenap ;;
  let map_entry_off :=
    s64 (mapoff a + u32 (BTT_MAP_ENTRY_SIZE * premap_lba)) in
  let* (r, data) := call_nsread lane 4 map_entry_off in
  if r <? 0 then ret (-1, buf) else
  let entry := le32toh (u32_at data 0) in
  btt_read_loop fuel lane arenap map_entry_off entry buf.

(** *** map_lock, map_abort, map_unlock *)

Definition map_lock_num (arenap : nat) (premap_lba : Z) : M Z :=
  b <- get_bt ;;
  a <- get_arena arenap ;;
  n <- of_option (umod premap_lba (nfree b)) ;;
  let n := s32 n in
  locks <- of_option (map_locks a) ;;
  if (0 <=? n) && (n <? Z.of_nat locks) then ret n else undef.

Definition map_lock (lane : Z) (arenap : nat) (premap_lba : Z)
    : M (Z * Z) :=
  a <- get_arena arenap ;;
  let map_entry_off :=
    s64 (mapoff a + u32 (BTT_MAP_ENTRY_SIZE * premap_lba)) in
  n <- map_lock_num arenap premap_lba ;;
  log (EvSpinLock arenap n) ;;
  (* read the old map entry *)
  let* (r, data) := call_nsread lane 4 map_entry_off in
  if r <? 0 then
    log (EvSpinUnlock arenap n) ;; ret (-1, u32_at data 0)
  else ret (0, u32_at data 0).

Definition map_abort (lane : Z) (arenap : nat) (premap_lba : Z) : M unit :=
  n <- map_lock_num arenap premap_lba ;;
  log (EvSpinUnlock arenap n).

Definition map_unlock (lane : Z) (arenap : nat) (entry premap_lba : Z)
    : M Z :=
  a <- get_arena arenap ;;
  let map_entry_off :=
    s64 (mapoff a + u32 (BTT_MAP_ENTRY_SIZE * premap_lba)) in
  n <- map_lock_num arenap premap_lba ;;
  (* write the new map entry *)
  err <- call_nswrite lane (bytes_of_u32 entry) 4 map_entry_off ;;
  log (EvSpinUnlock arenap n) ;;
  ret err.

(** *** The first write: the layout is written under the mutex *)

Definition first_write_layout (lane : Z) : M Z :=
  log EvMutexLock ;;
  b <- get_bt ;;
  err <- (if laidout b =? 0 then write_layout lane 1 else ret 0) ;;
  log EvMutexUnlock ;;
  ret err.

(** *** btt_write *)

(** Wait for other threads to finish any reads on the free block.  In a
    run of one thread a cell that holds [free_entry] never changes and the
    wait does not end. *)
Fixpoint rtt_wait (n : nat) (arenap : nat) (i : Z) (free_entry : Z)
    : M unit :=
  match n with
  | O => ret tt
  | S n' =>
      a <- get_arena arenap ;;
      r <- of_option (rtt a) ;;
      v <- of_option (index r i) ;;
      if v =? free_entry then undef
      else rtt_wait n' arenap (i + 1) free_entry
  end.

Definition btt_write (lane : Z) (lba : Z) (buf : list Z) : M Z :=
  inv <- invalid_lba lba ;;
  if negb (inv =? 0) then ret (-1) else
  b <- get_bt ;;
  err <- (if laidout b =? 0 then first_write_layout lane else ret 0) ;;
  if err <? 0 then ret err else
  let* (r, arenap, premap_lba) := lba_to_arena_lba lba in
  if r <? 0 then ret (-1) else
  a <- get_arena arenap ;;
  (* if the arena is in an error state, writing is not allowed *)
  if negb (Z.land (flags a) (BTTINFO_FLAG_ERROR_MASK H) =? 0) then
    set_errno EIO ;; ret (-1)
  else
  fr <- get_flog arenap lane ;;
  let free_entry := Z.land (flog_old_map (flog fr)) BTT_MAP_ENTRY_LBA_MASK in
  b <- get_bt ;;
  rtt_wait (Z.to_nat (nlane b)) arenap 0 free_entry ;;
  (* it is now safe to perform write to the free block *)
  let data_block_off :=
    s64 (dataoff a + u32 (free_entry * internal_lbasize a)) in
  r <- call_nswrite lane buf (lbasize b) data_block_off ;;
  if r <? 0 then ret (-1) else
  let* (r, old_entry) := map_lock lane arenap premap_lba in
  if r <? 0 then ret (-1) else
  let old_entry := le32toh old_entry in
  (* update the flog *)
  r <- flog_update lane arenap premap_lba old_entry free_entry ;;
  if r <? 0 then
    map_abort lane arenap premap_lba ;; ret (-1)
  else
  r <- map_unlock lane arenap (htole32 free_entry) premap_lba ;;
  if r <? 0 then ret (-1) else ret 0.

(** *** map_entry_setf, btt_set_zero, btt_set_error *)

(** The part of [map_entry_setf] that follows the check for a layout. *)
Definition map_entry_setf_laidout (lane : Z) (lba : Z) (setf : Z) : M Z :=
  let* (r, arenap, premap_lba) := lba_to_arena_lba lba in
  if r <? 0 then ret (-1) else
  a <- get_arena arenap ;;
  (* if the arena is in an error state, writing is not allowed *)
  if negb (Z.land (flags a) (BTTINFO_FLAG_ERROR_MASK H) =? 0) then
    set_errno EIO ;; ret (-1)
  else
  let* (r, old_entry) := map_lock lane arenap premap_lba in
  if r <? 0 then ret (-1) else
  let old_entry := le32toh old_entry in
  if (setf =? BTT_MAP_ENTRY_ZERO)
     && negb (Z.land old_entry BTT_MAP_ENTRY_ZERO =? 0) then
    (* block already zero, nothing to do *)
    map_abort lane arenap premap_lba ;; ret 0
  else
  (* create the new map entry *)
  let new_entry := Z.lor old_entry setf in
  r <- map_unlock lane arenap (htole32 new_entry) premap_lba ;;
  if r <? 0 then ret (-1) else ret 0.

Definition map_entry_setf (lane : Z) (lba : Z) (setf : Z) : M Z :=
  inv <- invalid_lba lba ;;
  if negb (inv =? 0) then ret (-1) else
  b <- get_bt ;;
  if (laidout b =? 0) && (setf =? BTT_MAP_ENTRY_ZERO) then
    (* no layout yet: all blocks read as zero at this point *)
    ret 0
  else
  err <- (if laidout b =? 0 then first_write_layout lane else ret 0) ;;
  if err <? 0 then ret err else
  map_entry_setf_laidout lane lba setf.

Definition btt_set_zero (lane : Z) (lba : Z) : M Z :=
  map_entry_setf lane lba BTT_MAP_ENTRY_ZERO.

Definition btt_set_error (lane : Z) (lba : Z) : M Z :=
  map_entry_setf lane lba BTT_MAP_ENTRY_ERROR.
(** *** check_arena *)

(** [isset], [setbit] and [isclr] of sys/param.h on a bitmap of bytes. *)
Definition isset (bitmap : list Z) (i : Z) : option bool :=
  match index bitmap (i / 8) with
  | Some byte => Some (negb (Z.land byte (Z.shiftl 1 (i mod 8)) =? 0))
  | None => None
  end.

Definition setbit (bitmap : list Z) (i : Z) : option (list Z) :=
  match index bitmap (i / 8) with
  | Some byte => store bitmap (i / 8) (Z.lor byte (Z.shiftl 1 (i mod 8)))
  | None => None
  end.

Definition isclr (bitmap : list Z) (i : Z) : option bool :=
  match isset bitmap i with
  | Some b => Some (negb b)
  | None => None
  end.

(** The duplicate check on one post-map LBA: the new bitmap and the new
    value of [consistent]. *)
Definition mark (bitmap : list Z) (entry : Z) (consistent : Z)
    : option (list Z * Z) :=
  match isset bitmap entry with
  | Some true => Some (bitmap, 0)
  | Some false =>
      match setbit bitmap entry with
      | Some bitmap' => Some (bitmap', consistent)
      | None => None
      end
  | None => None
  end.

(** Go through every post-map LBA mentioned in the map. *)
Fixpoint check_map_loop (n : nat) (external_nlba : Z)
    (i mapp next_index remaining map_entry_off : Z)
    (bitmap : list Z) (consistent : Z) : M (Z * list Z * Z) :=
  match n with
  | O => ret (0, bitmap, consistent)
  | S n' =>
      let body (mapp next_index remaining : Z) : M (Z * list Z * Z) :=
        v <- call_load32 (mapp + 4 * next_index) ;;
        let entry := Z.land (le32toh v) BTT_MAP_ENTRY_LBA_MASK in
        let* (bitmap, consistent) :=
          of_option (mark bitmap entry consistent) in
        check_map_loop n' external_nlba (i + 1) mapp
          (s32 (next_index + 1)) (s32 (remaining - 4))
          (s64 (map_entry_off + 4)) bitmap consistent in
      if remaining =? 0 then
        (* request a mapping of remaining map area *)
        let* (r, addr) :=
          call_nsmap 0 (u64 ((external_nlba - i) * 4)) map_entry_off in
        let mlen := s32 r in
        if mlen <? 0 then ret (-1, bitmap, consistent) else
        body addr 0 mlen
      else body mapp next_index remaining
  end.

(** Go through the free blocks in the flog. *)
Fixpoint check_flog_loop (n : nat) (arenap : nat) (i : Z)
    (bitmap : list Z) (consistent : Z) : M (list Z * Z) :=
  match n with
  | O => ret (bitmap, consistent)
  | S n' =>
      fr <- get_flog arenap i ;;
      let entry := Z.land (flog_old_map (flog fr)) BTT_MAP_ENTRY_LBA_MASK in
      let* (bitmap, consistent) :=
        of_option (mark bitmap entry consistent) in
      check_flog_loop n' arenap (i + 1) bitmap consistent
  end.

(** Make sure every possible post-map LBA was accounted for. *)
Fixpoint check_clear_loop (n : nat) (i : Z) (bitmap : list Z)
    (consistent : Z) : option Z :=
  match n with
  | O => Some consistent
  | S n' =>
      match isclr bitmap i with
      | Some c =>
          check_clear_loop n' (i + 1) bitmap (if c then 0 else consistent)
      | None => None
      end
  end.

Definition check_arena (arenap : nat) : M Z :=
  a <- get_arena arenap ;;
  b <- get_bt ;;
  let consistent := 1 in
  let map_entry_off := s64 (mapoff a) in
  (* howmany(internal_nlba, 8), in 32 bits *)
  let bitmapsize := s32 (u32 (internal_nlba a + (8 - 1)) / 8) in
  ok <- call_Malloc (u64 bitmapsize) ;;
  if negb ok then ret (-1) else
  (* memset *)
  let bitmap := replicate (Z.to_nat bitmapsize) 0 in
  let* (r, bitmap, consistent) :=
    check_map_loop (Z.to_nat (external_nlba a)) (external_nlba a)
      0 0 0 0 map_entry_off bitmap consistent in
  if r <? 0 then ret (-1) else
  let* (bitmap, consistent) :=
    check_flog_loop (Z.to_nat (nfree b)) arenap 0 bitmap consistent in
  consistent <-
    of_option
      (check_clear_loop (Z.to_nat (internal_nlba a)) 0 bitmap consistent) ;;
  log EvFree ;;
  ret consistent.

(** *** btt_check *)

(** The loop over the arenas.  [arenap] starts as [bttp->arenas] and the
    source does not advance it. *)
Fixpoint btt_check_loop (n : nat) (arenap : nat) (consistent : Z) : M Z :=
  match n with
  | O => ret consistent
  | S n' =>
      retval <- check_arena arenap ;;
      if retval <? 0 then ret retval
      else btt_check_loop n' arenap (if retval =? 0 then 0 else consistent)
  end.

Definition btt_check : M Z :=
  b <- get_bt ;;
  let consistent := 1 in
  if laidout b =? 0 then
    (* consistent by definition *)
    ret consistent
  else btt_check_loop (Z.to_nat (narena b)) 0 consistent.

End Btt.

(** ** A namespace in memory

    A concrete environment, used to run the model: the media is a finite
    map from byte offsets to bytes (an absent byte is 0), [nsmap] hands out
    the address [ram_base + off], the allocator never fails.  A script says
    what happens just before each coming call of [nsread], [nswrite] or
    [nsmap]: nothing, stores made by another lane, or a failure of the
    call. *)

Inductive action :=
| Quiet
| Stores (l : list (Z * Z))
| Fault.

Record ram := mk_ram {
  mem : gmap Z Z;
  script : list action
}.

Definition ram_base : Z := 65536.

Definition ram_byte (m : gmap Z Z) (off : Z) : Z := default 0 (m !! off).

Definition ram_bytes (m : gmap Z Z) (off : Z) (count : nat) : list Z :=
  map (fun i => ram_byte m (off + Z.of_nat i)) (seq 0 count).

Fixpoint ram_store (m : gmap Z Z) (off : Z) (l : list Z) : gmap Z Z :=
  match l with
  | [] => m
  | x :: l' => ram_store (<[off := x]> m) (off + 1) l'
  end.

Fixpoint ram_stores (m : gmap Z Z) (l : list (Z * Z)) : gmap Z Z :=
  match l with
  | [] => m
  | (off, x) :: l' => ram_stores (<[off := x]> m) l'
  end.

(** The next action of the script: does the call fail, and the world the
    call then sees. *)
Definition ram_step (w : ram) : bool * ram :=
  match script w with
  | [] => (false, w)
  | Quiet :: s => (false, mk_ram (mem w) s)
  | Stores l :: s => (false, mk_ram (ram_stores (mem w) l) s)
  | Fault :: s => (true, mk_ram (mem w) s)
  end.

Definition ram_nsread (w : ram) (lane count off : Z) : Z * list Z * ram :=
  let '(fault, w) := ram_step w in
  if fault then (-1, [], w)
  else (0, ram_bytes (mem w) off (Z.to_nat count), w).

Definition ram_nswrite (w : ram) (lane : Z) (buf : list Z) (count off : Z)
    : Z * ram :=
  let '(fault, w) := ram_step w in
  if fault then (-1, w)
  else (0, mk_ram (ram_store (mem w) off (firstn (Z.to_nat count) buf))
             (script w)).

Definition ram_nsmap (w : ram) (lane len off : Z) : Z * Z * ram :=
  let '(fault, w) := ram_step w in
  if fault then (-1, 0, w) else (len, ram_base + off, w).

Definition ram_nssync (w : ram) (lane addr len : Z) : ram := w.

Definition ram_load32 (w : ram) (addr : Z) : Z :=
  u32_at (ram_bytes (mem w) (addr - ram_base) 4) 0.

Definition ram_store32 (w : ram) (addr v : Z) : ram :=
  mk_ram (ram_store (mem w) (addr - ram_base) (bytes_of_u32 v)) (script w).

Definition ram_Malloc (w : ram) (size : Z) : bool * ram := (true, w).

Definition ram_env : environment ram :=
  mk_environment ram ram_nsread ram_nswrite ram_nsmap ram_nssync
    ram_load32 ram_store32 ram_Malloc.

(** A small instance of the parameters: an info block of 112 bytes with
    its fields packed in declaration order and a checksum that adds up the
    integer fields. *)

Definition bytes_of_u64 (z : Z) : list Z :=
  bytes_of_u32 z ++ bytes_of_u32 (Z.shiftr z 32).

Definition u64_at (buf : list Z) (off : nat) : Z :=
  Z.lor (u32_at buf off) (Z.shiftl (u32_at buf (off + 4)) 32).

Definition u16_at (buf : list Z) (off : nat) : Z :=
  Z.lor (byte_at buf off) (Z.shiftl (byte_at buf (off + 1)) 8).

Definition small_info_of_bytes (buf : list Z) : btt_info :=
  mk_info (firstn 16 buf) (firstn 16 (skipn 16 buf))
    (u32_at buf 32) (u16_at buf 36) (u16_at buf 38)
    (u32_at buf 40) (u32_at buf 44) (u32_at buf 48) (u32_at buf 52)
    (u32_at buf 56) (u32_at buf 60)
    (u64_at buf 64) (u64_at buf 72) (u64_at buf 80) (u64_at buf 88)
    (u64_at buf 96) (u64_at buf 104).

Definition small_bytes_of_info (i : btt_info) : list Z :=
  firstn 16 (info_sig i ++ replicate 16 0)
    ++ firstn 16 (info_parent_uuid i ++ replicate 16 0)
    ++ bytes_of_u32 (info_flags i)
    ++ firstn 2 (bytes_of_u32 (info_major i))
    ++ firstn 2 (bytes_of_u32 (info_minor i))
    ++ bytes_of_u32 (info_external_lbasize i)
    ++ bytes_of_u32 (info_external_nlba i)
    ++ bytes_of_u32 (info_internal_lbasize i)
    ++ bytes_of_u32 (info_internal_nlba i)
    ++ bytes_of_u32 (info_nfree i)
    ++ bytes_of_u32 (info_infosize i)
    ++ bytes_of_u64 (info_nextoff i)
    ++ bytes_of_u64 (info_dataoff i)
    ++ bytes_of_u64 (info_mapoff i)
    ++ bytes_of_u64 (info_flogoff i)
    ++ bytes_of_u64 (info_infooff i)
    ++ bytes_of_u64 (info_checksum i).

Definition small_checksum_of (i : btt_info) : Z :=
  u64 (1 + info_flags i + info_major i + info_minor i
       + info_external_lbasize i + info_external_nlba i
       + info_internal_lbasize i + info_internal_nlba i + info_nfree i
       + info_infosize i + info_nextoff i + info_dataoff i + info_mapoff i
       + info_flogoff i + info_infooff i).

(** [small_h default_nfree]: arenas of 2048 to 4096 bytes. *)
Definition small_h (default_nfree : Z) : layout_h :=
  mk_layout_h 2048 4096 default_nfree 16 32 32 16 1 1 1 1 112
    small_info_of_bytes small_bytes_of_info small_checksum_of
    64 128 48 4.

(** An empty media, and the state of a caller that holds no handle yet. *)
Definition ram0 : ram := mk_ram ∅ [].

Definition state0 {W} (w : W) : state W := mk_state btt0 w [] 0.

(** ** Observations on a handle *)

(** [bttp->arenas[arenap]], [arenap->flogs[i]] and [arenap->rtt[lane]],
    when they exist. *)
Definition arena_of (b : btt) (arenap : nat) : option arena :=
  match arenas b with
  | Some l => l !! arenap
  | None => None
  end.

Definition flog_of (b : btt) (arenap : nat) (i : Z) : option flog_runtime :=
  match arena_of b arenap with
  | Some a =>
      match flogs a with
      | Some fl => index fl i
      | None => None
      end
  | None => None
  end.

Definition rtt_of (b : btt) (arenap : nat) (lane : Z) : option Z :=
  match arena_of b arenap with
  | Some a =>
      match rtt a with
      | Some r => index r lane
      | None => None
      end
  | None => None
  end.

(** The handle with one arena, one run-time flog replaced. *)
Definition with_arena (b : btt) (arenap : nat) (a : arena) : btt :=
  match arenas b with
  | Some l => set_arenas (Some (<[arenap := a]> l)) b
  | None => b
  end.

Definition with_flog (b : btt) (arenap : nat) (i : Z) (fr : flog_runtime)
    : btt :=
  match arena_of b arenap with
  | Some a =>
      match flogs a with
      | Some fl =>
          with_arena b arenap
            (set_flogs (Some (<[Z.to_nat i := fr]> fl)) a)
      | None => b
      end
  | None => b
  end.

(** The handle with [arenap->rtt[lane]] replaced. *)
Definition with_rtt (b : btt) (arenap : nat) (lane : Z) (v : Z) : btt :=
  match arena_of b arenap with
  | Some a =>
      match rtt a with
      | Some r =>
          with_arena b arenap (set_rtt (Some (<[Z.to_nat lane := v]> r)) a)
      | None => b
      end
  | None => b
  end.

(** The spin lock that guards a map entry, when it exists. *)
Definition lock_num_of (b : btt) (arenap : nat) (premap_lba : Z)
    : option Z :=
  match arena_of b arenap with
  | Some a =>
      match umod premap_lba (nfree b) with
      | Some n =>
          match map_locks a with
          | Some locks =>
              if (0 <=? s32 n) && (s32 n <? Z.of_nat locks)
              then Some (s32 n) else None
          | None => None
          end
      | None => None
      end
  | None => None
  end.

(** The offset of a map entry as the entry points compute it. *)
Definition map_entry_off_of (a : arena) (premap_lba : Z) : Z :=
  s64 (mapoff a + u32 (BTT_MAP_ENTRY_SIZE * premap_lba)).

(** The state with another handle. *)
Definition with_bt {W} (b : btt) (s : state W) : state W :=
  mk_state b (world s) (trace s) (errno s).

(** ** The walk over the arenas, as the specification words it

    "Walks arenas starting at offset 0.  For each candidate arena: read the
    info block, verify it.  On success, accumulate external_nlba, take the
    minimum nfree, follow nextoff, stop when nextoff == 0 or remaining
    space < minimum arena size."  [walk] is the list of the info blocks of
    the arenas walked, when every one of them is read and valid. *)

Section Walk.

Context {W : Type}.
Variable H : layout_h.
Variable E : environment W.

Fixpoint walk (fuel : nat) (lane rawsize arena_off : Z) (w : W)
    : option (list btt_info) :=
  if rawsize <? BTT_MIN_SIZE H then Some []
  else
  match fuel with
  | O => None
  | S fuel' =>
      let '(r, buf, w') := nsread E w lane (sizeof_btt_info H) arena_off in
      if r <? 0 then None else
      let info := info_of_bytes H buf in
      if negb (read_info H info) then None else
      if info_nextoff info =? 0 then Some [info] else
      match walk fuel' lane (u64 (rawsize - info_nextoff info))
              (s64 (arena_off + info_nextoff info)) w' with
      | Some l => Some (info :: l)
      | None => None
      end
  end.

(** The walk over [infos] from [rawsize] bytes goes on exactly while there
    is room for an arena and the last block read has a next arena. *)
Fixpoint stops_at (rawsize : Z) (infos : list btt_info) : Prop :=
  match infos with
  | [] => rawsize < BTT_MIN_SIZE H
  | i :: l =>
      BTT_MIN_SIZE H <= rawsize /\
      if info_nextoff i =? 0 then l = []
      else stops_at (u64 (rawsize - info_nextoff i)) l
  end.

End Walk.

(** The smallest of [default] and the nfree values of a list of info
    blocks, and the sum of their external_nlba. *)
Definition min_nfree (default : Z) (infos : list btt_info) : Z :=
  fold_right Z.min default (map info_nfree infos).

Definition sum_nlba (infos : list btt_info) : Z :=
  fold_right Z.add 0 (map info_external_nlba infos).

(** ** Runs on the namespace in memory *)

(** The state a computation ends in ([s] itself when it has no result). *)
Definition exec {W A} (m : M W A) (s : state W) : state W :=
  match m s with
  | Some (_, s') => s'
  | None => s
  end.

Definition block (byte : Z) : list Z := replicate 32 byte.

(** One arena of 4096 bytes, 32-byte blocks: opened, then block 0 written
    by lane 0 (which lays the namespace out). *)
Definition st_open1 : state ram :=
  Eval vm_compute in
    exec (btt_init (small_h 2) ram_env 4 4096 32 (replicate 16 7) 0)
      (state0 ram0).

Definition st_written1 : state ram :=
  Eval vm_compute in exec (btt_write (small_h 2) ram_env 0 0 (block 17))
                       st_open1.

(** The same state when another lane is about to set the ZERO flag of map
    entry 0 (at offset 3504, value 103) right after the coming callback. *)
Definition st_racing1 : state ram :=
  mk_state (bt st_written1)
    (mk_ram (mem (world st_written1))
       [Quiet;
        Stores [(3504, 103); (3505, 0); (3506, 0); (3507, 64)]])
    [] 0.

(** The namespace after a crash of that write between the flog update and
    the map update: map entry 0 still holds its first value, 0 with the
    ZERO flag. *)
Definition st_crashed1 : state ram :=
  Eval vm_compute in
    mk_state (bt st_written1)
      (mk_ram (ram_store (mem (world st_written1)) 3504
                 (bytes_of_u32 BTT_MAP_ENTRY_ZERO)) [])
      [] 0.

(** Two arenas of 4096 bytes laid out by a first user of the namespace;
    then the first map entry of arena 1 (at offset 4096 + 3504) damaged so
    that it names the same block as the second one; then the namespace
    opened again. *)
Definition media2 : gmap Z Z :=
  Eval vm_compute in
    mem (world
           (exec (btt_write (small_h 2) ram_env 0 0 (block 17))
              (exec (btt_init (small_h 2) ram_env 4 8192 32
                       (replicate 16 7) 0)
                 (state0 ram0)))).

Definition media2_damaged : gmap Z Z :=
  Eval vm_compute in
    ram_store media2 (4096 + 3504)
      (bytes_of_u32 (Z.lor 1 BTT_MAP_ENTRY_ZERO)).

Definition st_damaged2 : state ram :=
  Eval vm_compute in
    exec (btt_init (small_h 2) ram_env 4 8192 32 (replicate 16 7) 0)
      (state0 (mk_ram media2_damaged [])).

(** One arena laid out with three free blocks per arena (the default of
    [small_h 3]), and the handle of an opener whose default is two, as
    btt_init has it when it calls read_layout. *)
Definition media3 : gmap Z Z :=
  Eval vm_compute in
    mem (world
           (exec (btt_write (small_h 3) ram_env 0 0 (block 17))
              (exec (btt_init (small_h 3) ram_env 4 4096 32
                       (replicate 16 7) 0)
                 (state0 ram0)))).

Definition st_opening3 : state ram :=
  mk_state (mk_btt 0 0 (replicate 16 7) 4096 32 0 0 0 None)
    (mk_ram media3 []) [] 0.

(** The handle of an opener of the two arenas of [media2], likewise. *)
Definition st_opening2 : state ram :=
  mk_state (mk_btt 0 0 (replicate 16 7) 8192 32 0 0 0 None)
    (mk_ram media2 []) [] 0.

(** ** Relations between the state before and after a computation *)

(** Every run of [m] that has a result relates the state it starts from to
    the state it ends in. *)
Definition respects {W A} (R : state W -> state W -> Prop) (m : M W A)
    : Prop :=
  forall s a s', m s = Some (a, s') -> R s s'.

(** The trace only grows. *)
Definition trace_ext {W} (s s' : state W) : Prop :=
  exists tl, trace s' = trace s ++ tl.

(** The layout parameters of the handle stay as they are. *)
Definition same_params {W} (s s' : state W) : Prop :=
  nfree (bt s') = nfree (bt s) /\ nlba (bt s') = nlba (bt s) /\
  narena (bt s') = narena (bt s).

(** A relation between states is kept by [read_arenas] and everything below
    it as soon as it is kept by a call into the environment (which changes
    the world and logs one event) and by a change of the arena array or of
    the laidout flag. *)
Record step_closed {W} (R : state W -> state W -> Prop) : Prop := {
  sc_refl : forall s, R s s;
  sc_trans : forall s1 s2 s3, R s1 s2 -> R s2 s3 -> R s1 s3;
  sc_env : forall b w t e w' ev,
      R (mk_state b w t e) (mk_state b w' (t ++ [ev]) e);
  sc_arenas : forall b w t e v,
      R (mk_state b w t e) (mk_state (set_arenas v b) w t e);
  sc_laidout : forall b w t e v,
      R (mk_state b w t e) (mk_state (set_laidout v b) w t e)
}.

(** ** Further observations, used by the properties beyond C1..C10 *)

(** The byte offset of slot [n] (0 or 1) in the buffer of a flog pair. *)
Definition slot_at (n : Z) : nat := if n =? 0 then 0%nat else 16%nat.

(** The state an entry point leaves when it rejects its LBA. *)
Definition rejected {W} (s : state W) : state W :=
  mk_state (bt s) (world s) (trace s) EINVAL.

(** A hand-made laid-out handle of one arena, two lanes, eight external and
    ten internal blocks of 32 bytes: data at offset 16, map at 400, flog at
    448; and the state of that handle on a given media. *)
Definition tiny_arena : arena :=
  mk_arena 0 8 32 10 0 16 400 448 0
    (Some [mk_flog_runtime (mk_flog 0 8 8 1) 448 464 1;
           mk_flog_runtime (mk_flog 0 9 9 1) 480 496 1])
    (Some [BTT_MAP_ENTRY_ERROR; BTT_MAP_ENTRY_ERROR])
    (Some 2%nat).

Definition tiny_bt : btt := mk_btt 2 1 [] 4096 32 2 8 1 (Some [tiny_arena]).

Definition tiny_state (m : gmap Z Z) (s : list action) : state ram :=
  mk_state tiny_bt (mk_ram m s) [] 0.

(** The first flog pair after a committed update of the entry (0, 8, 8, 1)
    to (5, 5, 8, 2), and after the first write only of that update. *)
Definition pair_committed : gmap Z Z :=
  ram_store ∅ 448
    (bytes_of_flog (mk_flog 0 8 8 1) ++ bytes_of_flog (mk_flog 5 5 8 2)).

Definition pair_torn : gmap Z Z :=
  ram_store ∅ 448
    (bytes_of_flog (mk_flog 0 8 8 1) ++ bytes_of_flog (mk_flog 5 5 8 0)).

(** A handle as btt_init leaves it on a namespace without a layout. *)
Definition fresh_state : state ram :=
  mk_state (mk_btt 2 0 [] 4096 32 2 103 1 None) ram0 [] 0.

(** The number of external LBAs of a list of arenas. *)
Definition total_nlba (l : list arena) : Z :=
  fold_right Z.add 0 (map external_nlba l).

(** The state of an entry point that fails with EIO. *)
Definition failed_eio {W} (s : state W) : state W :=
  mk_state (bt s) (world s) (trace s) EIO.

(** The hand-made handle with its arena in the error state. *)
Definition tiny_state_error : state ram :=
  mk_state (with_arena tiny_bt 0 (set_flags 1 tiny_arena)) (mk_ram ∅ []) [] 0.

(** The byte offset of the data block of a post-map LBA, as btt_read and
    btt_write compute it: the product is taken in 32 bits. *)
Definition data_block_off_of (a : arena) (entry : Z) : Z :=
  s64 (dataoff a + u32 (entry * internal_lbasize a)).

(** The trace grows by events that all satisfy [P]. *)
Definition adds {W} (P : event -> Prop) (s s' : state W) : Prop :=
  exists evs, trace s' = trace s ++ evs /\ Forall P evs.

(** A namespace read made through the given lane. *)
Definition is_nsread_of (lane : Z) (ev : event) : Prop :=
  match ev with
  | EvNsRead l _ _ _ _ => l = lane
  | _ => False
  end.

(** A relation between states is kept along the events of [P] when it is
    reflexive, transitive and kept by a call that logs one event of [P];
    it is about the environment only when it is moreover kept by any
    change of the handle and of errno. *)
Record kept {W} (P : event -> Prop) (R : state W -> state W -> Prop)
    : Prop := {
  k_refl : forall s, R s s;
  k_trans : forall s1 s2 s3, R s1 s2 -> R s2 s3 -> R s1 s3;
  k_env : forall b w t e w' ev,
      P ev -> R (mk_state b w t e) (mk_state b w' (t ++ [ev]) e)
}.

Record kept_handle {W} (R : state W -> state W -> Prop) : Prop := {
  k_bt : forall b b' w t e, R (mk_state b w t e) (mk_state b' w t e);
  k_errno : forall b w t e e', R (mk_state b w t e) (mk_state b w t e')
}.

(** What opening a namespace may do: allocate, free, read, and write four
    bytes at a time (a map entry). *)
Definition opens (ev : event) : Prop :=
  match ev with
  | EvMalloc _ _ | EvFree | EvNsRead _ _ _ _ _ => True
  | EvNsWrite _ _ count _ _ => count = 4
  | _ => False
  end.

(** The locks of the module: the layout mutex and the map locks of the
    arenas. *)
Inductive lock_id :=
| Mutex
| Spin (arena_index : nat) (map_lock_num : Z).

Definition lock_id_eqb (l1 l2 : lock_id) : bool :=
  match l1, l2 with
  | Mutex, Mutex => true
  | Spin a1 n1, Spin a2 n2 => (a1 =? a2)%nat && (n1 =? n2)
  | _, _ => false
  end.

(** The lock an event acquires ([true]) or releases ([false]). *)
Definition lock_op (ev : event) : option (bool * lock_id) :=
  match ev with
  | EvMutexLock => Some (true, Mutex)
  | EvMutexUnlock => Some (false, Mutex)
  | EvSpinLock a n => Some (true, Spin a n)
  | EvSpinUnlock a n => Some (false, Spin a n)
  | _ => None
  end.

(** An event that touches no lock. *)
Definition quiet (ev : event) : Prop := lock_op ev = None.

(** The locks a thread holds after a run of events that it started holding
    [held]; there is none when the thread acquires a lock it holds (the
    locks are not recursive) or releases one it does not hold. *)
Fixpoint locks_after (held : list lock_id) (evs : list event)
    : option (list lock_id) :=
  match evs with
  | [] => Some held
  | ev :: evs' =>
      match lock_op ev with
      | None => locks_after held evs'
      | Some (true, l) =>
          if existsb (lock_id_eqb l) held then None
          else locks_after (l :: held) evs'
      | Some (false, l) =>
          if existsb (lock_id_eqb l) held
          then locks_after
                 (List.filter (fun x => negb (lock_id_eqb l x)) held) evs'
          else None
      end
  end.

Definition locks_step {W} (held held' : list lock_id) (s s' : state W)
    : Prop :=
  exists evs, trace s' = trace s ++ evs /\ locks_after held evs = Some held'.

(** What a consistency check may do: allocate and free its bitmap, map the
    map area and load from it. *)
Definition checks (ev : event) : Prop :=
  match ev with
  | EvMalloc _ _ | EvFree | EvNsMap _ _ _ _ _ | EvLoad32 _ _ => True
  | _ => False
  end.

(** The handle and errno stay as they are and the trace grows by events
    of [P]. *)
Definition observes {W} (P : event -> Prop) (s s' : state W) : Prop :=
  adds P s s' /\ bt s' = bt s /\ errno s' = errno s.

(** The values the loads of a run of events returned, oldest first. *)
Definition loaded (evs : list event) : list Z :=
  flat_map (fun ev => match ev with EvLoad32 _ v => [v] | _ => [] end) evs.

(** [mark] along a list of post-map LBAs. *)
Fixpoint mark_list (bitmap : list Z) (consistent : Z) (l : list Z)
    : option (list Z * Z) :=
  match l with
  | [] => Some (bitmap, consistent)
  | entry :: l' =>
      match mark bitmap entry consistent with
      | Some (bitmap', consistent') => mark_list bitmap' consistent' l'
      | None => None
      end
  end.

(** The post-map LBA of a map entry or of a flog field. *)
Definition post_lba (entry : Z) : Z := Z.land entry BTT_MAP_ENTRY_LBA_MASK.

(** The map of the hand-made arena as write_layout leaves it: entry i is
    i with the ZERO flag. *)
Definition identity_map : gmap Z Z :=
  ram_store ∅ 400
    (flat_map (fun i => bytes_of_u32 (Z.lor i BTT_MAP_ENTRY_ZERO))
       [0; 1; 2; 3; 4; 5; 6; 7]).

(** The flog slot at [off] after the two writes of flog_update, and the
    rest of the media. *)
Definition flog_written (m : gmap Z Z) (off lba old_map new_map seq : Z)
    : gmap Z Z :=
  ram_store
    (ram_store m off
       (take (Z.to_nat 12)
          (bytes_of_u32 lba ++ bytes_of_u32 old_map ++ bytes_of_u32 new_map)))
    (s64 (off + 12)) (take (Z.to_nat 4) (bytes_of_u32 seq)).

(** The first flog pair of the hand-made arena as write_layout leaves it:
    slot 0 holds the initial entry, slot 1 is zero. *)
Definition pair_initial : gmap Z Z :=
  ram_store ∅ 448 (bytes_of_flog (mk_flog 0 8 8 1)).

(** The namespace of [st_written1] with the current flog entry of lane 0,
    at 3936, changed: its lba is 120, its old entry the first four bytes of
    the info block signature, its new entry 0.  The map of the arena has
    103 entries from 3504 on; an entry for LBA 120 would be at
    3504 + 4 * 120 = 3984, where the backup info block begins. *)
Definition media_stray1 : gmap Z Z :=
  Eval vm_compute in
    ram_store
      (ram_store
         (ram_store (mem (world st_written1)) 3936 (bytes_of_u32 120))
         3940 [66; 84; 84; 95])
      3944 (bytes_of_u32 0).

(** * Properties *)

Section Proofs.
Context {W : Type}.
Variable H : layout_h.
Variable E : environment W.

Lemma get_arena_eq arenap (s : state W) :
  get_arena arenap s =
  match arena_of (bt s) arenap with Some a => Some (a, s) | None => None end.
Proof.
  unfold get_arena, arena_of, bind, get_bt, of_option, ret, undef.
  destruct (arenas (bt s)) as [l|]; [|reflexivity].
  destruct (l !! arenap); reflexivity.
Qed.

Lemma put_arena_eq arenap a (s : state W) :
  put_arena arenap a s =
  match arena_of (bt s) arenap with
  | Some _ => Some (tt, with_bt (with_arena (bt s) arenap a) s)
  | None => None
  end.
Proof.
  unfold put_arena, arena_of, with_arena, with_bt, bind, get_bt, put_bt,
    of_option, ret, undef.
  destruct (arenas (bt s)) as [l|]; [|reflexivity].
  destruct (l !! arenap); reflexivity.
Qed.

Lemma get_flog_eq arenap i (s : state W) :
  get_flog arenap i s =
  match flog_of (bt s) arenap i with Some fr => Some (fr, s) | None => None end.
Proof.
  unfold get_flog, flog_of, bind. rewrite get_arena_eq.
  destruct (arena_of (bt s) arenap) as [a|]; [|reflexivity].
  unfold of_option, ret, undef.
  destruct (flogs a) as [fl|]; [|reflexivity].
  destruct (index fl i); reflexivity.
Qed.

Lemma put_flog_eq arenap i fr (s : state W) :
  put_flog arenap i fr s =
  match flog_of (bt s) arenap i with
  | Some _ => Some (tt, with_bt (with_flog (bt s) arenap i fr) s)
  | None => None
  end.
Proof.
  unfold put_flog, flog_of, with_flog, bind. rewrite get_arena_eq.
  destruct (arena_of (bt s) arenap) as [a|] eqn:Ha; [|reflexivity].
  unfold of_option, ret, undef.
  destruct (flogs a) as [fl|]; [|reflexivity].
  unfold store. destruct (index fl i); [|reflexivity].
  rewrite put_arena_eq, Ha. reflexivity.
Qed.

Lemma arena_of_with_arena b arenap a a0 :
  arena_of b arenap = Some a0 ->
  arena_of (with_arena b arenap a) arenap = Some a.
Proof.
  unfold arena_of, with_arena. destruct (arenas b) as [l|]; [|discriminate].
  simpl. intros Hl. apply list_lookup_insert_eq.
  eapply lookup_lt_Some; eauto.
Qed.

Lemma index_insert {A} (l : list A) i x y :
  index l i = Some y -> index (<[Z.to_nat i := x]> l) i = Some x.
Proof.
  unfold index. destruct (i <? 0); [discriminate|].
  intros Hl. apply list_lookup_insert_eq. eapply lookup_lt_Some; eauto.
Qed.

Lemma flog_of_with_flog b arenap i fr fr0 :
  flog_of b arenap i = Some fr0 ->
  flog_of (with_flog b arenap i fr) arenap i = Some fr.
Proof.
  unfold flog_of, with_flog.
  destruct (arena_of b arenap) as [a|] eqn:Ha; [|discriminate].
  destruct (flogs a) as [fl|] eqn:Hfl; [|discriminate].
  intros Hi. erewrite arena_of_with_arena by eauto. simpl.
  eapply index_insert; eauto.
Qed.


Lemma call_nswrite_eq lane buf count off b w t e r w' :
  nswrite E w lane buf count off = (r, w') ->
  call_nswrite E lane buf count off (mk_state b w t e) =
  Some (r, mk_state b w' (t ++ [EvNsWrite lane buf count off r]) e).
Proof. unfold call_nswrite. simpl. intros ->. reflexivity. Qed.

Lemma call_nsread_eq lane count off b w t e r data w' :
  nsread E w lane count off = (r, data, w') ->
  call_nsread E lane count off (mk_state b w t e) =
  Some ((r, data),
        mk_state b w' (t ++ [EvNsRead lane count off r data]) e).
Proof. unfold call_nsread. simpl. intros ->. reflexivity. Qed.

Lemma ltb_neg r : r < 0 -> (r <? 0) = true.
Proof. intros. apply Z.ltb_lt. assumption. Qed.
Lemma ltb_nonneg r : 0 <= r -> (r <? 0) = false.
Proof. intros. apply Z.ltb_ge. assumption. Qed.

(** *** C5 *)

(** C5.  flog_update writes the slot [entries[next]] of the lane in two
    namespace writes: first the 12 bytes of lba, old_map and new_map, then
    the 4 bytes of seq = NSEQ(current seq) at offset +12.  When both
    succeed it returns 0 and the run-time flog of the lane is (lba,
    old_map, new_map, NSEQ(old seq)) with [next] flipped; when the first
    write fails the second is not made; when either fails it returns -1
    and the handle, so the run-time flog and [next], is unchanged. *)
Theorem flog_update_two_writes (st : state W) lane arenap lba old_map new_map
    fr off r1 w1 r2 w2 :
  flog_of (bt st) arenap lane = Some fr ->
  entries fr (next fr) = Some off ->
  let buf1 := bytes_of_u32 lba ++ bytes_of_u32 old_map
                ++ bytes_of_u32 new_map in
  let buf2 := bytes_of_u32 (NSEQ (flog_seq (flog fr))) in
  nswrite E (world st) lane buf1 12 off = (r1, w1) ->
  nswrite E w1 lane buf2 4 (s64 (off + 12)) = (r2, w2) ->
  let ev1 := EvNsWrite lane buf1 12 off r1 in
  let ev2 := EvNsWrite lane buf2 4 (s64 (off + 12)) r2 in
  let fr' :=
    mk_flog_runtime (mk_flog lba old_map new_map (NSEQ (flog_seq (flog fr))))
      (entries0 fr) (entries1 fr) (1 - next fr) in
  exists ret st',
    flog_update E lane arenap lba old_map new_map st = Some (ret, st') /\
    (0 <= r1 -> 0 <= r2 ->
       ret = 0 /\ trace st' = trace st ++ [ev1; ev2] /\ world st' = w2 /\
       bt st' = with_flog (bt st) arenap lane fr' /\
       flog_of (bt st') arenap lane = Some fr') /\
    (r1 < 0 ->
       ret = -1 /\ trace st' = trace st ++ [ev1] /\ world st' = w1 /\
       bt st' = bt st) /\
    (0 <= r1 -> r2 < 0 ->
       ret = -1 /\ trace st' = trace st ++ [ev1; ev2] /\ world st' = w2 /\
       bt st' = bt st).
Proof.
  intros Hfr Hoff buf1 buf2 Hw1 Hw2 ev1 ev2 fr'.
  destruct st as [b w t e]. simpl in Hfr, Hw1.
  unfold flog_update, bind.
  rewrite get_flog_eq. cbn [bt]. rewrite Hfr. rewrite Hoff. simpl of_option. unfold ret at 1.
  unfold htole32. change (4 * 3) with 12.
  subst buf1 buf2 ev1 ev2 fr'.
  rewrite (call_nswrite_eq _ _ _ _ _ _ _ _ _ _ Hw1).
  destruct (Z.ltb_spec r1 0) as [Hr1|Hr1].
  - eexists _, _. split; [reflexivity|]. simpl.
    repeat split; try lia; reflexivity.
  - rewrite (call_nswrite_eq _ _ _ _ _ _ _ _ _ _ Hw2).
    destruct (Z.ltb_spec r2 0) as [Hr2|Hr2].
    + eexists _, _. split; [reflexivity|]. simpl.
      rewrite <- app_assoc. repeat split; try lia; reflexivity.
    + rewrite get_flog_eq. simpl bt. rewrite Hfr.
      rewrite put_flog_eq. simpl bt. rewrite Hfr.
      eexists _, _. split; [reflexivity|]. simpl.
      rewrite <- app_assoc.
      repeat split; try lia; try reflexivity.
      eapply flog_of_with_flog; eauto.
Qed.


Lemma arena_of_with_flog b arenap i fr a fl :
  arena_of b arenap = Some a -> flogs a = Some fl ->
  arena_of (with_flog b arenap i fr) arenap =
  Some (set_flogs (Some (<[Z.to_nat i := fr]> fl)) a).
Proof.
  intros Ha Hfl. unfold with_flog. rewrite Ha, Hfl.
  eapply arena_of_with_arena; eauto.
Qed.

Lemma flog_of_with_arena b arenap i a a0 :
  arena_of b arenap = Some a0 ->
  flog_of (with_arena b arenap a) arenap i =
  match flogs a with Some fl => index fl i | None => None end.
Proof.
  intros Ha. unfold flog_of. erewrite arena_of_with_arena by eauto.
  reflexivity.
Qed.

Lemma flog_of_inv b arenap i fr :
  flog_of b arenap i = Some fr ->
  exists a fl, arena_of b arenap = Some a /\ flogs a = Some fl /\
               index fl i = Some fr.
Proof.
  unfold flog_of.
  destruct (arena_of b arenap) as [a|] eqn:Ha; [|discriminate].
  destruct (flogs a) as [fl|] eqn:Hfl; [|discriminate].
  intros Hi. exists a, fl. auto.
Qed.

Ltac mstep :=
  first [ rewrite get_flog_eq | rewrite put_flog_eq
        | rewrite get_arena_eq | rewrite put_arena_eq ];
  unfold with_bt; cbn [bt world trace errno].

(** *** C3 *)

(** C3.  When the pair is read, read_flog_pair picks the active slot and
    the slot to write next by the sequence numbers of the two slots:
    equal (0 and 0 included): the arena gets the ERROR flag, 0 is
    returned and the run-time flog and [next] stay as they were (no
    current entry); otherwise seq[0] = 0: slot 1, next 0; otherwise
    seq[1] = 0: slot 0, next 1; otherwise NSEQ(seq[0]) = seq[1]: slot 1,
    next 0; otherwise slot 0, next 1. *)
Theorem read_flog_pair_selects (st : state W) lane arenap flog_off i flognum
    a fr r buf w :
  arena_of (bt st) arenap = Some a ->
  flog_of (bt st) arenap i = Some fr ->
  nsread E (world st) lane (2 * sizeof_btt_flog) flog_off = (r, buf, w) ->
  0 <= r ->
  let seq0 := flog_seq (flog_at buf 0) in
  let seq1 := flog_seq (flog_at buf 16) in
  exists ret st' a' fr',
    read_flog_pair H E lane arenap flog_off i flognum st = Some (ret, st') /\
    arena_of (bt st') arenap = Some a' /\
    flog_of (bt st') arenap i = Some fr' /\
    (seq0 = seq1 ->
       ret = 0 /\ flags a' = Z.lor (flags a) (BTTINFO_FLAG_ERROR H) /\
       flog fr' = flog fr /\ next fr' = next fr) /\
    (seq0 <> seq1 ->
       flags a' = flags a /\
       (seq0 = 0 -> flog fr' = flog_at buf 16 /\ next fr' = 0) /\
       (seq0 <> 0 -> seq1 = 0 -> flog fr' = flog_at buf 0 /\ next fr' = 1) /\
       (seq0 <> 0 -> seq1 <> 0 -> NSEQ seq0 = seq1 ->
          flog fr' = flog_at buf 16 /\ next fr' = 0) /\
       (seq0 <> 0 -> seq1 <> 0 -> NSEQ seq0 <> seq1 ->
          flog fr' = flog_at buf 0 /\ next fr' = 1)).
Proof.
  intros Ha Hfr Hrd Hr seq0 seq1.
  destruct st as [b w0 t e]. cbn [bt world] in *.
  destruct (flog_of_inv _ _ _ _ Hfr) as (a0 & fl & Ha0 & Hfl & Hi).
  rewrite Ha in Ha0. injection Ha0 as <-.
  unfold read_flog_pair, bind.
  mstep. rewrite Hfr. mstep. rewrite Hfr.
  rewrite (call_nsread_eq _ _ _ _ _ _ _ _ _ _ Hrd).
  rewrite (ltb_nonneg _ Hr).
  set (fr1 := mk_flog_runtime (flog fr) flog_off _ (next fr)).
  assert (Ha1 := arena_of_with_flog _ _ i fr1 _ _ Ha Hfl).
  assert (Hfr1 := flog_of_with_flog _ _ i fr1 _ Hfr).
  fold seq0 seq1.
  destruct (Z.eqb_spec seq0 seq1) as [Heq|Hne].
  - mstep. rewrite Ha1. mstep. rewrite Ha1. unfold ret.
    eexists _, _, _, _. split; [reflexivity|]. cbn [bt].
    split; [eapply arena_of_with_arena; eauto|].
    split.
    { erewrite flog_of_with_arena by eauto. cbn [flogs set_flags set_flogs].
      eapply index_insert; eauto. }
    split; [intros _; repeat split; reflexivity | intros Hc; contradiction].
  - set (sel := if seq0 =? 0 then _ else _).
    destruct sel as [cur nxt] eqn:Hsel.
    mstep. rewrite Hfr1. mstep. rewrite Hfr1.
    set (fr2 := mk_flog_runtime cur _ _ nxt).
    assert (Ha2 := arena_of_with_flog _ _ i fr2 _ _ Ha1 eq_refl).
    assert (Hfr2 := flog_of_with_flog _ _ i fr2 _ Hfr1).
    assert (Hsel' :
      flags (set_flogs (Some (<[Z.to_nat i:=fr2]> (<[Z.to_nat i:=fr1]> fl)))
               (set_flogs (Some (<[Z.to_nat i:=fr1]> fl)) a)) = flags a /\
      (seq0 = 0 -> flog fr2 = flog_at buf 16 /\ next fr2 = 0) /\
      (seq0 <> 0 -> seq1 = 0 -> flog fr2 = flog_at buf 0 /\ next fr2 = 1) /\
      (seq0 <> 0 -> seq1 <> 0 -> NSEQ seq0 = seq1 ->
         flog fr2 = flog_at buf 16 /\ next fr2 = 0) /\
      (seq0 <> 0 -> seq1 <> 0 -> NSEQ seq0 <> seq1 ->
         flog fr2 = flog_at buf 0 /\ next fr2 = 1)).
    { subst sel fr2. cbn [flog next flags set_flogs].
      split; [reflexivity|].
      destruct (Z.eqb_spec seq0 0); [|destruct (Z.eqb_spec seq1 0);
        [|destruct (Z.eqb_spec (NSEQ seq0) seq1)]];
        injection Hsel as <- <-; repeat split; intros; congruence. }
    clearbody fr2. clear Hsel.
    match goal with
    | |- context [if ?c then ret 0 else _] => destruct c
    end.
    { eexists _, _, _, _. split; [reflexivity|]. cbn [bt].
      split; [exact Ha2|]. split; [exact Hfr2|].
      split; [intros Hc; contradiction | intros _; exact Hsel']. }
    mstep. rewrite Ha2.
    unfold call_nsread at 1. cbn [bt world trace errno].
    destruct (nsread E w lane 4 _) as [[r2 buf2] w2].
    destruct (r2 <? 0).
    { eexists _, _, _, _. split; [reflexivity|]. cbn [bt].
      split; [exact Ha2|]. split; [exact Hfr2|].
      split; [intros Hc; contradiction | intros _; exact Hsel']. }
    match goal with
    | |- context [if ?c then _ else ret 0] => destruct c
    end.
    2:{ eexists _, _, _, _. split; [reflexivity|]. cbn [bt].
      split; [exact Ha2|]. split; [exact Hfr2|].
      split; [intros Hc; contradiction | intros _; exact Hsel']. }
    unfold call_nswrite at 1. cbn [bt world trace errno].
    destruct (nswrite E w2 lane _ 4 _) as [r3 w3].
    destruct (r3 <? 0).
    all: eexists _, _, _, _; (split; [reflexivity|]); cbn [bt];
      (split; [exact Ha2|]); (split; [exact Hfr2|]);
      (split; [intros Hc; contradiction | intros _; exact Hsel']).
Qed.


(** *** C4 *)

(** C4.  With an active entry [cur] (the sequence numbers differ): when
    old_map = new_map the read of the pair is the only callback made and
    the world is as that read left it; otherwise the map entry at index
    lba is read; it is written, with new_map, exactly when the read
    succeeds and the entry equals old_map, and in every other case no
    write is made. *)
Theorem read_flog_pair_recovery (st : state W) lane arenap flog_off i flognum
    a fr r buf w :
  arena_of (bt st) arenap = Some a ->
  flog_of (bt st) arenap i = Some fr ->
  nsread E (world st) lane (2 * sizeof_btt_flog) flog_off = (r, buf, w) ->
  0 <= r ->
  flog_seq (flog_at buf 0) <> flog_seq (flog_at buf 16) ->
  exists ret st' fr',
    read_flog_pair H E lane arenap flog_off i flognum st = Some (ret, st') /\
    flog_of (bt st') arenap i = Some fr' /\
    let cur := flog fr' in
    let ev1 := EvNsRead lane (2 * sizeof_btt_flog) flog_off r buf in
    let off := s64 (mapoff a + u32 (BTT_MAP_ENTRY_SIZE * flog_lba cur)) in
    (flog_old_map cur = flog_new_map cur ->
       ret = 0 /\ trace st' = trace st ++ [ev1] /\ world st' = w) /\
    (flog_old_map cur <> flog_new_map cur ->
       forall r2 buf2 w2,
         nsread E w lane 4 off = (r2, buf2, w2) ->
         let ev2 := EvNsRead lane 4 off r2 buf2 in
         let entry := u32_at buf2 0 in
         (r2 < 0 ->
            ret = -1 /\ trace st' = trace st ++ [ev1; ev2] /\
            world st' = w2) /\
         (0 <= r2 -> entry <> flog_old_map cur ->
            ret = 0 /\ trace st' = trace st ++ [ev1; ev2] /\
            world st' = w2) /\
         (0 <= r2 -> entry = flog_old_map cur ->
            forall r3 w3,
              nswrite E w2 lane (bytes_of_u32 (flog_new_map cur)) 4 off
                = (r3, w3) ->
              let ev3 :=
                EvNsWrite lane (bytes_of_u32 (flog_new_map cur)) 4 off r3 in
              ret = (if r3 <? 0 then -1 else 0) /\
              trace st' = trace st ++ [ev1; ev2; ev3] /\
              world st' = w3)).
Proof.
  intros Ha Hfr Hrd Hr Hne.
  destruct st as [b w0 t e]. cbn [bt world trace] in *.
  destruct (flog_of_inv _ _ _ _ Hfr) as (a0 & fl & Ha0 & Hfl & Hi).
  rewrite Ha in Ha0. injection Ha0 as <-.
  unfold read_flog_pair, bind.
  mstep. rewrite Hfr. mstep. rewrite Hfr.
  rewrite (call_nsread_eq _ _ _ _ _ _ _ _ _ _ Hrd).
  rewrite (ltb_nonneg _ Hr).
  set (fr1 := mk_flog_runtime (flog fr) flog_off _ (next fr)).
  assert (Ha1 := arena_of_with_flog _ _ i fr1 _ _ Ha Hfl).
  assert (Hfr1 := flog_of_with_flog _ _ i fr1 _ Hfr).
  destruct (Z.eqb_spec (flog_seq (flog_at buf 0)) (flog_seq (flog_at buf 16)))
    as [Heq|_]; [contradiction|].
  set (sel := if flog_seq (flog_at buf 0) =? 0 then _ else _).
  destruct sel as [cur nxt].
  mstep. rewrite Hfr1. mstep. rewrite Hfr1.
  set (fr2 := mk_flog_runtime cur _ _ nxt).
  assert (Ha2 := arena_of_with_flog _ _ i fr2 _ _ Ha1 eq_refl).
  assert (Hfr2 := flog_of_with_flog _ _ i fr2 _ Hfr1).
  destruct (Z.eqb_spec (flog_old_map cur) (flog_new_map cur)) as [Hon|Hon].
  { eexists _, _, _. split; [reflexivity|]. cbn [bt world trace].
    split; [exact Hfr2|]. cbn [flog fr2].
    split; [intros _; auto | intros Hc; contradiction]. }
  mstep. rewrite Ha2. cbn [mapoff set_flogs].
  set (off := s64 (mapoff a + u32 (BTT_MAP_ENTRY_SIZE * flog_lba cur))).
  destruct (nsread E w lane 4 off) as [[r2 buf2] w2] eqn:Hrd2.
  rewrite (call_nsread_eq _ _ _ _ _ _ _ _ _ _ Hrd2).
  destruct (Z.ltb_spec r2 0) as [Hr2|Hr2].
  { eexists _, _, _. split; [reflexivity|]. cbn [bt world trace].
    split; [exact Hfr2|]. cbn [flog fr2]. fold off.
    split; [intros Hc; contradiction|]. intros _ r2' buf2' w2' Hrd2'.
    rewrite Hrd2 in Hrd2'. injection Hrd2' as <- <- <-.
    rewrite <- app_assoc.
    repeat split; intros; try lia; reflexivity. }
  unfold le32toh, htole32.
  destruct (Z.eqb_spec (flog_new_map cur) (u32_at buf2 0)) as [Hn|Hn];
    destruct (Z.eqb_spec (flog_old_map cur) (u32_at buf2 0)) as [Ho|Ho];
    cbn [negb andb].
  1,2,4: eexists _, _, _; (split; [reflexivity|]); cbn [bt world trace];
    (split; [exact Hfr2|]); cbn [flog fr2]; fold off;
    (split; [intros Hc; contradiction|]); intros _ r2' buf2' w2' Hrd2';
    rewrite Hrd2 in Hrd2'; injection Hrd2' as <- <- <-;
    rewrite <- app_assoc;
    repeat split; intros; try lia; try reflexivity; congruence.
  destruct (nswrite E w2 lane (bytes_of_u32 (flog_new_map cur)) 4 off)
    as [r3 w3] eqn:Hw3.
  rewrite (call_nswrite_eq _ _ _ _ _ _ _ _ _ _ Hw3).
  destruct (r3 <? 0) eqn:Hr3.
  all: eexists _, _, _; (split; [reflexivity|]); (split; [exact Hfr2|]);
    cbn [flog fr2 trace world]; fold off;
    (split; [intros Hc; contradiction|]);
    intros _ r2' buf2' w2' Hrd2';
    rewrite Hrd2 in Hrd2'; injection Hrd2' as <- <- <-;
    (split; [intros; lia|]); (split; [intros; congruence|]);
    intros _ _ r3' w3' Hw3'; rewrite Hw3 in Hw3'; injection Hw3' as <- <-;
    rewrite Hr3, <- !app_assoc; auto.
Qed.

(** ** Inversion of the monad's steps *)

Lemma bind_inv {A B} (m : M W A) (k : A -> M W B) s x :
  bind m k s = Some x ->
  exists a s1, m s = Some (a, s1) /\ k a s1 = Some x.
Proof.
  unfold bind. destruct (m s) as [[a s1]|]; [|discriminate].
  intros Hk. exists a, s1. auto.
Qed.

Lemma ret_inv {A} (a : A) (s : state W) x :
  ret a s = Some x -> x = (a, s).
Proof. unfold ret. congruence. Qed.

Lemma get_bt_inv (s : state W) x : get_bt s = Some x -> x = (bt s, s).
Proof. unfold get_bt. congruence. Qed.

Lemma get_arena_inv arenap (s : state W) a s' :
  get_arena arenap s = Some (a, s') ->
  arena_of (bt s) arenap = Some a /\ s' = s.
Proof.
  rewrite get_arena_eq. destruct (arena_of (bt s) arenap); [|discriminate].
  intros [= <- <-]. auto.
Qed.

(** ** Computations that keep a relation between the states *)

Section Respects.

Variable R : state W -> state W -> Prop.
Hypothesis R_refl : forall s, R s s.
Hypothesis R_trans : forall s1 s2 s3, R s1 s2 -> R s2 s3 -> R s1 s3.

Lemma respects_ret {A} (a : A) : respects R (ret a).
Proof. intros s a' s' [= <- <-]. apply R_refl. Qed.

Lemma respects_undef {A} : respects R (@undef W A).
Proof. intros s a s' [=]. Qed.

Lemma respects_of_option {A} (o : option A) : respects R (of_option o).
Proof. destruct o; [apply respects_ret | apply respects_undef]. Qed.

Lemma respects_get_bt : respects R get_bt.
Proof. intros s a s' [= <- <-]. apply R_refl. Qed.

Lemma respects_bind {A B} (m : M W A) (k : A -> M W B) :
  respects R m -> (forall a, respects R (k a)) -> respects R (bind m k).
Proof.
  intros Hm Hk s b s' Hb.
  apply bind_inv in Hb. destruct Hb as (a & s1 & H1 & H2).
  eapply R_trans; [eapply Hm | eapply Hk]; eauto.
Qed.

Lemma respects_get_arena arenap : respects R (get_arena arenap).
Proof. intros s a s' Hg. apply get_arena_inv in Hg as [_ ->]. apply R_refl. Qed.

End Respects.

Lemma trace_ext_refl (s : state W) : trace_ext s s.
Proof. exists []. symmetry. apply app_nil_r. Qed.

Lemma trace_ext_trans (s1 s2 s3 : state W) :
  trace_ext s1 s2 -> trace_ext s2 s3 -> trace_ext s1 s3.
Proof.
  intros [t1 H1] [t2 H2]. exists (t1 ++ t2).
  rewrite H2, H1. symmetry. apply app_assoc.
Qed.



Ltac rel_side :=
  first [ exact trace_ext_refl | exact trace_ext_trans
        | match goal with
          | HR : step_closed ?R |- _ =>
              first [ exact (sc_refl R HR) | exact (sc_trans R HR) ]
          end
        | (intros; reflexivity)
        | (intros; etransitivity; eassumption) ].

Create HintDb respects.

Ltac respects_tac :=
  repeat first
    [ solve [eauto with respects]
    | match goal with
      | |- respects _ (ret _) => apply respects_ret; rel_side
      | |- respects _ undef => apply respects_undef
      | |- respects _ (of_option _) => apply respects_of_option; rel_side
      | |- respects _ get_bt => apply respects_get_bt; rel_side
      | |- respects _ (get_arena _) => apply respects_get_arena; rel_side
      | |- respects _ (bind _ _) =>
          apply respects_bind; [rel_side | | intros ?]
      | |- respects _ (match ?x with _ => _ end) => destruct x
      end
    | progress cbv zeta ].

(** *** Steps that leave the whole state alone *)

Lemma lba_to_arena_lba_loop_pure n arena lba :
  respects eq (@lba_to_arena_lba_loop W n arena lba).
Proof.
  revert arena lba. induction n as [|n IH]; intros arena lba; simpl.
  - respects_tac.
  - respects_tac.
Qed.

Lemma lba_to_arena_lba_pure lba : respects eq (@lba_to_arena_lba W lba).
Proof.
  unfold lba_to_arena_lba. respects_tac.
  all: apply lba_to_arena_lba_loop_pure.
Qed.

Lemma invalid_lba_eq lba (s : state W) :
  invalid_lba lba s =
  Some (if nlba (bt s) <=? lba
        then (1, mk_state (bt s) (world s) (trace s) EINVAL)
        else (0, s)).
Proof.
  unfold invalid_lba, bind, get_bt. destruct (nlba (bt s) <=? lba); reflexivity.
Qed.

(** *** C10 *)

(** C10.  For every rawsize strictly smaller than BTT_MIN_SIZE, btt_init
    returns NULL with errno set to EINVAL; nothing is allocated and no
    namespace callback is called: the trace and the world are as before. *)
Theorem btt_init_small_rawsize (st : state W) fuel rawsize lbasize uuid
    maxlane :
  rawsize < BTT_MIN_SIZE H ->
  exists st',
    btt_init H E fuel rawsize lbasize uuid maxlane st = Some (None, st') /\
    errno st' = EINVAL /\ trace st' = trace st /\ world st' = world st /\
    bt st' = bt st.
Proof.
  intros Hlt. unfold btt_init. rewrite (proj2 (Z.ltb_lt _ _) Hlt).
  eexists. split; [reflexivity|]. simpl. auto.
Qed.

(** *** The map lock *)

Lemma map_lock_num_eq arenap premap_lba (s : state W) :
  map_lock_num arenap premap_lba s =
  match lock_num_of (bt s) arenap premap_lba with
  | Some n => Some (n, s)
  | None => None
  end.
Proof.
  unfold map_lock_num, lock_num_of, bind, get_bt. rewrite get_arena_eq.
  destruct (arena_of (bt s) arenap) as [a|]; [|reflexivity].
  destruct (umod premap_lba (nfree (bt s))) as [n|]; [|reflexivity].
  simpl. destruct (map_locks a) as [locks|]; [|reflexivity].
  simpl. destruct ((0 <=? s32 n) && (s32 n <? Z.of_nat locks)); reflexivity.
Qed.

Lemma lba_to_arena_lba_inv lba (s : state W) r arenap premap_lba s' :
  lba_to_arena_lba lba s = Some ((r, arenap, premap_lba), s') ->
  r = 0 /\ s' = s.
Proof.
  intros Hl. split; [|symmetry; eapply lba_to_arena_lba_pure; eauto].
  unfold lba_to_arena_lba in Hl.
  apply bind_inv in Hl as (b & s1 & _ & Hl).
  apply bind_inv in Hl as ([arena lba'] & s2 & _ & Hl).
  apply ret_inv in Hl. congruence.
Qed.

Lemma map_lock_inv lane arenap premap_lba b w t e r old s' :
  map_lock E lane arenap premap_lba (mk_state b w t e) = Some ((r, old), s') ->
  exists a n r0 data w1,
    arena_of b arenap = Some a /\
    lock_num_of b arenap premap_lba = Some n /\
    nsread E w lane 4 (map_entry_off_of a premap_lba) = (r0, data, w1) /\
    old = u32_at data 0 /\
    let ev_lock := EvSpinLock arenap n in
    let ev_read := EvNsRead lane 4 (map_entry_off_of a premap_lba) r0 data in
    (r0 < 0 /\ r = -1 /\
     s' = mk_state b w1 (t ++ [ev_lock; ev_read; EvSpinUnlock arenap n]) e
     \/
     0 <= r0 /\ r = 0 /\ s' = mk_state b w1 (t ++ [ev_lock; ev_read]) e).
Proof.
  unfold map_lock, bind. rewrite get_arena_eq. cbn [bt].
  destruct (arena_of b arenap) as [a|] eqn:Ha; [|discriminate].
  rewrite map_lock_num_eq. cbn [bt].
  destruct (lock_num_of b arenap premap_lba) as [n|] eqn:Hn; [|discriminate].
  unfold log at 1. cbn [bt world trace errno].
  fold (map_entry_off_of a premap_lba).
  destruct (nsread E w lane 4 (map_entry_off_of a premap_lba))
    as [[r0 data] w1] eqn:Hrd.
  rewrite (call_nsread_eq _ _ _ _ _ _ _ _ _ _ Hrd).
  destruct (Z.ltb_spec r0 0) as [Hr0|Hr0].
  - unfold log, ret. cbn [bt world trace errno]. intros [= <- <- <-].
    exists a, n, r0, data, w1. repeat split; auto.
    left. rewrite <- !app_assoc. auto.
  - unfold ret. intros [= <- <- <-].
    exists a, n, r0, data, w1. repeat split; auto.
    right. rewrite <- !app_assoc. auto.
Qed.

Lemma map_abort_inv lane arenap premap_lba b (w : W) t e x s' :
  map_abort lane arenap premap_lba (mk_state b w t e) = Some (x, s') ->
  exists n,
    lock_num_of b arenap premap_lba = Some n /\
    s' = mk_state b w (t ++ [EvSpinUnlock arenap n]) e.
Proof.
  unfold map_abort, bind. rewrite map_lock_num_eq. cbn [bt].
  destruct (lock_num_of b arenap premap_lba) as [n|]; [|discriminate].
  unfold log. cbn [bt world trace errno]. intros [= <- <-]. eauto.
Qed.

Lemma map_unlock_inv lane arenap entry premap_lba b w t e err s' :
  map_unlock E lane arenap entry premap_lba (mk_state b w t e)
    = Some (err, s') ->
  exists a n w1,
    arena_of b arenap = Some a /\
    lock_num_of b arenap premap_lba = Some n /\
    nswrite E w lane (bytes_of_u32 entry) 4 (map_entry_off_of a premap_lba)
      = (err, w1) /\
    s' = mk_state b w1
           (t ++ [EvNsWrite lane (bytes_of_u32 entry) 4
                    (map_entry_off_of a premap_lba) err;
                  EvSpinUnlock arenap n]) e.
Proof.
  unfold map_unlock, bind. rewrite get_arena_eq. cbn [bt].
  destruct (arena_of b arenap) as [a|] eqn:Ha; [|discriminate].
  rewrite map_lock_num_eq. cbn [bt].
  destruct (lock_num_of b arenap premap_lba) as [n|] eqn:Hn; [|discriminate].
  fold (map_entry_off_of a premap_lba).
  destruct (nswrite E w lane (bytes_of_u32 entry) 4
              (map_entry_off_of a premap_lba)) as [r1 w1] eqn:Hw.
  rewrite (call_nswrite_eq _ _ _ _ _ _ _ _ _ _ Hw).
  unfold log, ret. cbn [bt world trace errno]. intros [= <- <-].
  exists a, n, w1. repeat split; auto. rewrite <- !app_assoc. auto.
Qed.

(** *** Setting a flag keeps the other bits of a map entry *)

Lemma lor_flag_keeps_lba old setf :
  setf = BTT_MAP_ENTRY_ZERO \/ setf = BTT_MAP_ENTRY_ERROR ->
  Z.land (Z.lor old setf) BTT_MAP_ENTRY_LBA_MASK =
  Z.land old BTT_MAP_ENTRY_LBA_MASK.
Proof.
  intros [-> | ->]; rewrite Z.land_lor_distr_l;
    [change (Z.land BTT_MAP_ENTRY_ZERO BTT_MAP_ENTRY_LBA_MASK) with 0
    |change (Z.land BTT_MAP_ENTRY_ERROR BTT_MAP_ENTRY_LBA_MASK) with 0];
    apply Z.lor_0_r.
Qed.

Lemma lor_flag_keeps_other old setf :
  setf = BTT_MAP_ENTRY_ZERO \/ setf = BTT_MAP_ENTRY_ERROR ->
  let other :=
    if setf =? BTT_MAP_ENTRY_ZERO then BTT_MAP_ENTRY_ERROR
    else BTT_MAP_ENTRY_ZERO in
  Z.land (Z.lor old setf) other = Z.land old other.
Proof.
  intros [-> | ->]; cbv zeta; rewrite Z.land_lor_distr_l.
  - change (BTT_MAP_ENTRY_ZERO =? BTT_MAP_ENTRY_ZERO) with true. cbv iota.
    change (Z.land BTT_MAP_ENTRY_ZERO BTT_MAP_ENTRY_ERROR) with 0.
    apply Z.lor_0_r.
  - change (BTT_MAP_ENTRY_ERROR =? BTT_MAP_ENTRY_ZERO) with false. cbv iota.
    change (Z.land BTT_MAP_ENTRY_ERROR BTT_MAP_ENTRY_ZERO) with 0.
    apply Z.lor_0_r.
Qed.

(** A successful run of the part of [map_entry_setf] that works on a
    layout: one lock, one read of the map entry, at most one write, of the
    same entry, one unlock. *)
Lemma map_entry_setf_laidout_ok lane lba setf (s s' : state W) :
  map_entry_setf_laidout H E lane lba setf s = Some (0, s') ->
  exists arenap premap_lba a n r data w1,
    lba_to_arena_lba lba s = Some ((0, arenap, premap_lba), s) /\
    arena_of (bt s) arenap = Some a /\
    lock_num_of (bt s) arenap premap_lba = Some n /\
    nsread E (world s) lane 4 (map_entry_off_of a premap_lba)
      = (r, data, w1) /\
    0 <= r /\ bt s' = bt s /\
    let off := map_entry_off_of a premap_lba in
    let old_entry := u32_at data 0 in
    let new_entry := Z.lor old_entry setf in
    let ev_lock := EvSpinLock arenap n in
    let ev_read := EvNsRead lane 4 off r data in
    let ev_unlock := EvSpinUnlock arenap n in
    if (setf =? BTT_MAP_ENTRY_ZERO)
       && negb (Z.land old_entry BTT_MAP_ENTRY_ZERO =? 0)
    then trace s' = trace s ++ [ev_lock; ev_read; ev_unlock] /\
         world s' = w1
    else exists r2,
         0 <= r2 /\
         nswrite E w1 lane (bytes_of_u32 new_entry) 4 off = (r2, world s') /\
         trace s' =
           trace s ++ [ev_lock; ev_read;
                       EvNsWrite lane (bytes_of_u32 new_entry) 4 off r2;
                       ev_unlock].
Proof.
  intros Hs. unfold map_entry_setf_laidout in Hs.
  apply bind_inv in Hs as ([[r arenap] premap_lba] & s1 & Hl & Hs).
  destruct (lba_to_arena_lba_inv _ _ _ _ _ _ Hl) as [-> ->].
  change (0 <? 0) with false in Hs. cbv iota in Hs.
  apply bind_inv in Hs as (a & s2 & Ha & Hs).
  apply get_arena_inv in Ha as [Ha ->].
  destruct (negb (Z.land (flags a) (BTTINFO_FLAG_ERROR_MASK H) =? 0)).
  { unfold bind, set_errno, ret in Hs. discriminate. }
  destruct s as [b w t e]. cbn [bt world trace] in *.
  apply bind_inv in Hs as ([r1 old] & s3 & Hlock & Hs).
  apply map_lock_inv in Hlock
    as (a' & n & r0 & data & w1 & Ha' & Hn & Hrd & -> & Hcase).
  rewrite Ha in Ha'. injection Ha' as <-.
  destruct Hcase as [(Hr0 & -> & ->) | (Hr0 & -> & ->)].
  { unfold ret in Hs. discriminate. }
  change (0 <? 0) with false in Hs. cbv iota in Hs. unfold le32toh in Hs.
  exists arenap, premap_lba, a, n, r0, data, w1.
  do 5 (split; [assumption|]).
  cbv zeta.
  destruct ((setf =? BTT_MAP_ENTRY_ZERO)
            && negb (Z.land (u32_at data 0) BTT_MAP_ENTRY_ZERO =? 0)).
  - apply bind_inv in Hs as (x & s4 & Hab & Hs).
    apply map_abort_inv in Hab as (n' & Hn' & ->).
    rewrite Hn in Hn'. injection Hn' as <-.
    apply ret_inv in Hs. injection Hs as ->.
    cbn [bt world trace]. rewrite <- !app_assoc. auto.
  - apply bind_inv in Hs as (err & s4 & Hun & Hs).
    apply map_unlock_inv in Hun as (a' & n' & w2 & Ha' & Hn' & Hw & ->).
    rewrite Ha in Ha'. injection Ha' as <-.
    rewrite Hn in Hn'. injection Hn' as <-.
    unfold htole32 in Hw.
    destruct (Z.ltb_spec err 0) as [Herr|Herr];
      apply ret_inv in Hs; [discriminate|].
    injection Hs as ->. cbn [bt world trace].
    split; [reflexivity|]. exists err.
    rewrite <- !app_assoc. auto.
Qed.

(** *** C9 *)

(** C9.  A successful btt_set_zero or btt_set_error on a laid-out handle
    locks the map entry of the LBA and reads it; the entry it writes is the
    old entry OR'ed with the requested flag, so the post-map LBA and the
    other flag are as before; that write, to the map entry, is the only
    namespace write (no flog entry, no data block) and the run-time flog is
    untouched; when ZERO is set on an entry that has ZERO, nothing is
    written and the lock is released. *)
Theorem map_entry_setf_only_flag (st st' : state W) lane lba setf :
  laidout (bt st) <> 0 ->
  setf = BTT_MAP_ENTRY_ZERO /\ btt_set_zero H E lane lba st = Some (0, st')
  \/ setf = BTT_MAP_ENTRY_ERROR /\
     btt_set_error H E lane lba st = Some (0, st') ->
  exists arenap premap_lba a n r data w1,
    lba_to_arena_lba lba st = Some ((0, arenap, premap_lba), st) /\
    arena_of (bt st) arenap = Some a /\
    lock_num_of (bt st) arenap premap_lba = Some n /\
    nsread E (world st) lane 4 (map_entry_off_of a premap_lba)
      = (r, data, w1) /\
    0 <= r /\ bt st' = bt st /\
    let off := map_entry_off_of a premap_lba in
    let old_entry := u32_at data 0 in
    let new_entry := Z.lor old_entry setf in
    let other :=
      if setf =? BTT_MAP_ENTRY_ZERO then BTT_MAP_ENTRY_ERROR
      else BTT_MAP_ENTRY_ZERO in
    let ev_lock := EvSpinLock arenap n in
    let ev_read := EvNsRead lane 4 off r data in
    let ev_unlock := EvSpinUnlock arenap n in
    Z.land new_entry BTT_MAP_ENTRY_LBA_MASK =
      Z.land old_entry BTT_MAP_ENTRY_LBA_MASK /\
    Z.land new_entry other = Z.land old_entry other /\
    if (setf =? BTT_MAP_ENTRY_ZERO)
       && negb (Z.land old_entry BTT_MAP_ENTRY_ZERO =? 0)
    then trace st' = trace st ++ [ev_lock; ev_read; ev_unlock] /\
         world st' = w1
    else exists r2,
         0 <= r2 /\
         nswrite E w1 lane (bytes_of_u32 new_entry) 4 off = (r2, world st') /\
         trace st' =
           trace st ++ [ev_lock; ev_read;
                        EvNsWrite lane (bytes_of_u32 new_entry) 4 off r2;
                        ev_unlock].
Proof.
  intros Hlaid Hrun.
  assert (Hsetf : setf = BTT_MAP_ENTRY_ZERO \/ setf = BTT_MAP_ENTRY_ERROR)
    by (destruct Hrun as [[-> _]|[-> _]]; auto).
  assert (Hs : map_entry_setf H E lane lba setf st = Some (0, st'))
    by (destruct Hrun as [[-> Hs]|[-> Hs]]; exact Hs).
  clear Hrun. unfold map_entry_setf, bind in Hs.
  rewrite invalid_lba_eq in Hs.
  destruct (nlba (bt st) <=? lba).
  { unfold ret in Hs. cbn in Hs. discriminate. }
  change (negb (0 =? 0)) with false in Hs. cbv iota in Hs.
  unfold get_bt in Hs.
  apply Z.eqb_neq in Hlaid. rewrite Hlaid in Hs. cbn [andb] in Hs.
  unfold ret at 1 in Hs. change (0 <? 0) with false in Hs. cbv iota in Hs.
  apply map_entry_setf_laidout_ok in Hs
    as (arenap & premap_lba & a & n & r & data & w1
        & Hl & Ha & Hn & Hrd & Hr & Hbt & Htr).
  exists arenap, premap_lba, a, n, r, data, w1.
  do 6 (split; [assumption|]). cbv zeta.
  split; [apply lor_flag_keeps_lba; assumption|].
  split; [apply lor_flag_keeps_other; assumption|].
  exact Htr.
Qed.

Section StepClosed.

Variable R : state W -> state W -> Prop.
Hypothesis HR : step_closed R.

Lemma respects_call_nsread lane count off :
  respects R (call_nsread E lane count off).
Proof.
  intros [b w t e] [r data] s'. unfold call_nsread. cbn [bt world trace errno].
  destruct (nsread E w lane count off) as [[r' data'] w'].
  intros [= <- <- <-]. apply (sc_env R HR).
Qed.

Lemma respects_call_nswrite lane buf count off :
  respects R (call_nswrite E lane buf count off).
Proof.
  intros [b w t e] r s'. unfold call_nswrite. cbn [bt world trace errno].
  destruct (nswrite E w lane buf count off) as [r' w'].
  intros [= <- <-]. apply (sc_env R HR).
Qed.

Lemma respects_call_nsmap lane len off :
  respects R (call_nsmap E lane len off).
Proof.
  intros [b w t e] [r addr] s'. unfold call_nsmap. cbn [bt world trace errno].
  destruct (nsmap E w lane len off) as [[r' addr'] w'].
  intros [= <- <- <-]. apply (sc_env R HR).
Qed.

Lemma respects_call_nssync lane addr len :
  respects R (call_nssync E lane addr len).
Proof.
  intros [b w t e] [] s'. unfold call_nssync. cbn [bt world trace errno].
  intros [= <-]. apply (sc_env R HR).
Qed.

Lemma respects_call_load32 addr : respects R (call_load32 E addr).
Proof.
  intros [b w t e] r s'. unfold call_load32. cbn [bt world trace errno].
  intros [= <- <-]. apply (sc_env R HR).
Qed.

Lemma respects_call_store32 addr v : respects R (call_store32 E addr v).
Proof.
  intros [b w t e] [] s'. unfold call_store32. cbn [bt world trace errno].
  intros [= <-]. apply (sc_env R HR).
Qed.

Lemma respects_call_Malloc size : respects R (call_Malloc E size).
Proof.
  intros [b w t e] r s'. unfold call_Malloc. cbn [bt world trace errno].
  destruct (Malloc E w size) as [ok w'].
  intros [= <- <-]. apply (sc_env R HR).
Qed.

Lemma respects_log ev : respects R (@log W ev).
Proof.
  intros [b w t e] [] s'. unfold log. cbn [bt world trace errno].
  intros [= <-]. apply (sc_env R HR).
Qed.

Lemma respects_put_arena arenap a : respects R (@put_arena W arenap a).
Proof.
  intros [b w t e] [] s'. rewrite put_arena_eq. cbn [bt].
  unfold arena_of, with_arena, with_bt.
  destruct (arenas b) as [l|]; [|discriminate].
  destruct (l !! arenap); [|discriminate].
  intros [= <-]. apply (sc_arenas R HR).
Qed.

Lemma respects_set_arenas v : respects R (@modify_bt W (set_arenas v)).
Proof.
  intros [b w t e] [] s'. unfold modify_bt. cbn [bt world trace errno].
  intros [= <-]. apply (sc_arenas R HR).
Qed.

Lemma respects_set_laidout v : respects R (@modify_bt W (set_laidout v)).
Proof.
  intros [b w t e] [] s'. unfold modify_bt. cbn [bt world trace errno].
  intros [= <-]. apply (sc_laidout R HR).
Qed.

Hint Resolve respects_call_nsread respects_call_nswrite respects_call_nsmap
  respects_call_nssync respects_call_load32 respects_call_store32
  respects_call_Malloc respects_log respects_put_arena respects_set_arenas
  respects_set_laidout : respects.

Lemma respects_get_flog arenap i : respects R (@get_flog W arenap i).
Proof. unfold get_flog. respects_tac. Qed.

Lemma respects_put_flog arenap i fr : respects R (@put_flog W arenap i fr).
Proof. unfold put_flog. respects_tac. Qed.

Hint Resolve respects_get_flog respects_put_flog : respects.

Lemma respects_read_flog_pair lane arenap flog_off i flognum :
  respects R (read_flog_pair H E lane arenap flog_off i flognum).
Proof. unfold read_flog_pair. respects_tac. Qed.

Hint Resolve respects_read_flog_pair : respects.

Lemma respects_read_flogs_loop n lane arenap flog_off i :
  respects R (read_flogs_loop H E n lane arenap flog_off i).
Proof.
  revert flog_off i. induction n as [|n IH]; intros flog_off i; simpl;
    respects_tac.
Qed.

Hint Resolve respects_read_flogs_loop : respects.

Lemma respects_read_flogs lane arenap :
  respects R (read_flogs H E lane arenap).
Proof. unfold read_flogs. respects_tac. Qed.

Lemma respects_build_rtt arenap : respects R (build_rtt E arenap).
Proof. unfold build_rtt. respects_tac. Qed.

Lemma respects_build_map_locks arenap :
  respects R (build_map_locks H E arenap).
Proof. unfold build_map_locks. respects_tac. Qed.

Hint Resolve respects_read_flogs respects_build_rtt respects_build_map_locks
  : respects.

Lemma respects_read_arena lane arena_off arenap :
  respects R (read_arena H E lane arena_off arenap).
Proof. unfold read_arena. respects_tac. Qed.

Hint Resolve respects_read_arena : respects.

Lemma respects_read_arenas_loop n lane arena_off arenap :
  respects R (read_arenas_loop H E n lane arena_off arenap).
Proof.
  revert arena_off arenap.
  induction n as [|n IH]; intros arena_off arenap; simpl; respects_tac.
Qed.

Lemma respects_free_arenas_loop guard n i :
  respects R (@free_arenas_loop W guard n i).
Proof.
  revert i. induction n as [|n IH]; intros i; simpl; respects_tac.
Qed.

Hint Resolve respects_read_arenas_loop respects_free_arenas_loop : respects.

Lemma respects_read_arenas_err : respects R (@read_arenas_err W).
Proof. unfold read_arenas_err. respects_tac. Qed.

Hint Resolve respects_read_arenas_err : respects.

Lemma respects_read_arenas lane narena :
  respects R (read_arenas H E lane narena).
Proof. unfold read_arenas. respects_tac. Qed.

End StepClosed.

Lemma trace_ext_closed : step_closed (@trace_ext W).
Proof.
  split.
  - exact trace_ext_refl.
  - exact trace_ext_trans.
  - intros b w t e w' ev. exists [ev]. reflexivity.
  - intros b w t e v. exists []. symmetry. apply app_nil_r.
  - intros b w t e v. exists []. symmetry. apply app_nil_r.
Qed.

Lemma same_params_closed : step_closed (@same_params W).
Proof.
  split; unfold same_params; cbn; intros; intuition congruence.
Qed.

Hint Resolve trace_ext_closed same_params_closed : respects.
Hint Resolve respects_call_nsread respects_call_nswrite respects_call_nsmap
  respects_call_nssync respects_call_load32 respects_call_store32
  respects_call_Malloc respects_log respects_put_arena respects_set_arenas
  respects_set_laidout respects_get_flog respects_put_flog
  respects_read_arenas : respects.

(** *** The layout write only adds to the trace *)

Lemma trace_ext_modify_bt f : respects trace_ext (@modify_bt W f).
Proof.
  intros [b w t e] [] s'. unfold modify_bt. cbn [bt world trace errno].
  intros [= <-]. exists []. symmetry. apply app_nil_r.
Qed.

Hint Resolve trace_ext_modify_bt : respects.

Lemma trace_ext_write_map_loop n lane external_nlba map_entry_off
    i mapp mlen next_index remaining :
  respects trace_ext
    (write_map_loop E n lane external_nlba map_entry_off
       i mapp mlen next_index remaining).
Proof.
  revert i mapp mlen next_index remaining.
  induction n as [|n IH]; intros; simpl; respects_tac.
Qed.

Lemma trace_ext_write_flog_loop n lane flog_entry_off next_free_lba :
  respects trace_ext
    (write_flog_loop H E n lane flog_entry_off next_free_lba).
Proof.
  revert flog_entry_off next_free_lba.
  induction n as [|n IH]; intros; simpl; respects_tac.
Qed.

Hint Resolve trace_ext_write_map_loop trace_ext_write_flog_loop : respects.

Lemma trace_ext_write_layout_arena lane write flog_size internal_lbasize
    arena_rawsize rawsize total_nlba arena_off :
  respects trace_ext
    (write_layout_arena H E lane write flog_size internal_lbasize
       arena_rawsize rawsize total_nlba arena_off).
Proof. unfold write_layout_arena. respects_tac. Qed.

Hint Resolve trace_ext_write_layout_arena : respects.

Lemma trace_ext_write_layout_loop fuel lane write flog_size internal_lbasize
    rawsize total_nlba arena_off :
  respects trace_ext
    (write_layout_loop H E fuel lane write flog_size internal_lbasize
       rawsize total_nlba arena_off).
Proof.
  revert rawsize total_nlba arena_off.
  induction fuel as [|fuel IH]; intros; simpl; respects_tac.
Qed.

Hint Resolve trace_ext_write_layout_loop : respects.

Lemma trace_ext_write_layout lane write :
  respects trace_ext (write_layout H E lane write).
Proof. unfold write_layout. respects_tac. Qed.

(** *** C8 *)

(** C8.  On a handle that is not laid out, with the LBA in range:
    btt_set_zero returns 0 and leaves the state as it was (no layout write,
    no callback); btt_set_error takes the layout mutex, runs write_layout,
    releases the mutex, returns the error when the layout write failed, and
    when it returns 0 it has then locked the map entry of the LBA, read it
    and written it back with the ERROR flag set. *)
Theorem setf_without_layout (st : state W) lane lba :
  laidout (bt st) = 0 -> lba < nlba (bt st) ->
  btt_set_zero H E lane lba st = Some (0, st) /\
  forall ret st',
    btt_set_error H E lane lba st = Some (ret, st') ->
    exists err st1 tl,
      write_layout H E lane 1
        (mk_state (bt st) (world st) (trace st ++ [EvMutexLock]) (errno st))
        = Some (err, st1) /\
      trace st1 = trace st ++ [EvMutexLock] ++ tl /\
      let st2 :=
        mk_state (bt st1) (world st1) (trace st1 ++ [EvMutexUnlock])
          (errno st1) in
      (err < 0 -> ret = err /\ st' = st2) /\
      (0 <= err -> ret = 0 ->
         exists arenap premap_lba a n r data w1 r2,
           lba_to_arena_lba lba st2 = Some ((0, arenap, premap_lba), st2) /\
           arena_of (bt st1) arenap = Some a /\
           lock_num_of (bt st1) arenap premap_lba = Some n /\
           let off := map_entry_off_of a premap_lba in
           let new_entry := Z.lor (u32_at data 0) BTT_MAP_ENTRY_ERROR in
           nsread E (world st1) lane 4 off = (r, data, w1) /\ 0 <= r /\
           nswrite E w1 lane (bytes_of_u32 new_entry) 4 off
             = (r2, world st') /\
           0 <= r2 /\
           trace st' =
             trace st ++ [EvMutexLock] ++ tl
               ++ [EvMutexUnlock; EvSpinLock arenap n;
                   EvNsRead lane 4 off r data;
                   EvNsWrite lane (bytes_of_u32 new_entry) 4 off r2;
                   EvSpinUnlock arenap n]).
Proof.
  intros Hlaid Hlba.
  assert (Hin : (nlba (bt st) <=? lba) = false) by (apply Z.leb_gt; lia).
  split.
  - unfold btt_set_zero, map_entry_setf, bind.
    rewrite invalid_lba_eq, Hin. change (negb (0 =? 0)) with false. cbv iota.
    unfold get_bt. rewrite Hlaid. reflexivity.
  - intros ret' st' Hs.
    unfold btt_set_error, map_entry_setf, bind in Hs.
    rewrite invalid_lba_eq, Hin in Hs.
    change (negb (0 =? 0)) with false in Hs. cbv iota in Hs.
    unfold get_bt in Hs. rewrite Hlaid in Hs.
    change (0 =? 0) with true in Hs.
    change (BTT_MAP_ENTRY_ERROR =? BTT_MAP_ENTRY_ZERO) with false in Hs.
    cbn [andb] in Hs.
    unfold first_write_layout, bind in Hs.
    unfold log at 1 in Hs. unfold get_bt in Hs.
    cbn [bt world trace errno] in Hs. rewrite Hlaid in Hs.
    change (0 =? 0) with true in Hs. cbv iota in Hs.
    destruct (write_layout H E lane 1 _) as [[err st1]|] eqn:Hwl;
      [|discriminate].
    destruct (trace_ext_write_layout _ _ _ _ _ Hwl) as [tl Htl].
    cbn [trace] in Htl. rewrite <- app_assoc in Htl.
    exists err, st1, tl. split; [reflexivity|]. split; [exact Htl|].
    unfold log, ret in Hs. cbn [bt world trace errno] in Hs.
    cbv zeta. split.
    + intros Herr. rewrite (ltb_neg _ Herr) in Hs. injection Hs as <- <-.
      auto.
    + intros Herr ->. rewrite (ltb_nonneg _ Herr) in Hs.
      apply map_entry_setf_laidout_ok in Hs
        as (arenap & premap_lba & a & n & r & data & w1
            & Hl & Ha & Hn & Hrd & Hr & Hbt & Htr).
      cbn [bt world trace] in *.
      change (BTT_MAP_ENTRY_ERROR =? BTT_MAP_ENTRY_ZERO) with false in Htr.
      cbn [andb] in Htr. destruct Htr as (r2 & Hr2 & Hw & Htr).
      exists arenap, premap_lba, a, n, r, data, w1, r2.
      do 3 (split; [assumption|]). cbv zeta.
      do 4 (split; [assumption|]).
      rewrite Htr, Htl. rewrite <- !app_assoc. reflexivity.
Qed.

(** *** C7 *)

Lemma modify_bt_inv f (s : state W) x s' :
  modify_bt f s = Some (x, s') ->
  s' = mk_state (f (bt s)) (world s) (trace s) (errno s).
Proof. unfold modify_bt. congruence. Qed.

(** C7, amended.  After a successful btt_init the lane count, which is what
    btt_nlane returns, is min(nfree, maxlane) when maxlane is not 0, and
    nfree when maxlane is 0 (no bound was provided); nfree is taken as an
    int. *)
Theorem btt_init_nlane (st st' : state W) fuel rawsize lbasize uuid maxlane
    b :
  btt_init H E fuel rawsize lbasize uuid maxlane st = Some (Some b, st') ->
  bt st' = b /\
  btt_nlane st' = Some (nlane b, st') /\
  nlane b = (if maxlane =? 0 then s32 (nfree b)
             else Z.min (s32 (nfree b)) maxlane) /\
  (0 <= nfree b < 2 ^ 31 ->
   nlane b = (if maxlane =? 0 then nfree b else Z.min (nfree b) maxlane)).
Proof.
  intros Hi. unfold btt_init in Hi.
  destruct (rawsize <? BTT_MIN_SIZE H).
  { unfold bind, set_errno, ret in Hi. discriminate. }
  apply bind_inv in Hi as (ok & s1 & _ & Hi).
  destruct ok; cbn [negb] in Hi; [|apply ret_inv in Hi; discriminate].
  apply bind_inv in Hi as (x & s2 & _ & Hi).
  apply bind_inv in Hi as (r & s3 & _ & Hi).
  destruct (r <? 0).
  { apply bind_inv in Hi as (y & s4 & _ & Hi). apply ret_inv in Hi.
    discriminate. }
  apply bind_inv in Hi as (b1 & s4 & Hb1 & Hi).
  apply get_bt_inv in Hb1. injection Hb1 as -> ->.
  apply bind_inv in Hi as (y & s5 & Hm & Hi).
  apply modify_bt_inv in Hm. subst s5.
  apply bind_inv in Hi as (b2 & s6 & Hb2 & Hi).
  apply get_bt_inv in Hb2. injection Hb2 as -> ->.
  cbn [bt nlane set_nlane] in Hi.
  destruct (Z.eqb_spec maxlane 0) as [Hz|Hz]; cbn [negb andb] in Hi.
  - apply bind_inv in Hi as (z & s7 & Hr & Hi). apply ret_inv in Hr.
    injection Hr as _ ->.
    apply bind_inv in Hi as (b3 & s8 & Hb3 & Hi).
    apply get_bt_inv in Hb3. injection Hb3 as -> ->.
    apply ret_inv in Hi. injection Hi as -> ->.
    cbn [bt nlane nfree set_nlane].
    split; [reflexivity|]. split; [reflexivity|]. split; [reflexivity|].
    intros Hr. unfold s32. rewrite Z.mod_small by lia. lia.
  - destruct (Z.ltb_spec maxlane (s32 (nfree (bt s3)))) as [Hlt|Hge].
    + apply bind_inv in Hi as (z & s7 & Hm & Hi).
      apply modify_bt_inv in Hm. subst s7.
      apply bind_inv in Hi as (b3 & s8 & Hb3 & Hi).
      apply get_bt_inv in Hb3. injection Hb3 as -> ->.
      apply ret_inv in Hi. injection Hi as -> ->.
      cbn [bt nlane nfree set_nlane].
      split; [reflexivity|]. split; [reflexivity|].
      split; [lia|].
      intros Hr. unfold s32 in Hlt. rewrite Z.mod_small in Hlt by lia. lia.
    + apply bind_inv in Hi as (z & s7 & Hr & Hi). apply ret_inv in Hr.
      injection Hr as _ ->.
      apply bind_inv in Hi as (b3 & s8 & Hb3 & Hi).
      apply get_bt_inv in Hb3. injection Hb3 as -> ->.
      apply ret_inv in Hi. injection Hi as -> ->.
      cbn [bt nlane nfree set_nlane].
      split; [reflexivity|]. split; [reflexivity|].
      split; [lia|].
      intros Hr. unfold s32 in Hge |- *.
      rewrite Z.mod_small in Hge |- * by lia. lia.
Qed.

(** *** C6 *)

Lemma fold_min_shift m a l :
  fold_right Z.min (Z.min m a) l = Z.min a (fold_right Z.min m l).
Proof. induction l as [|x l IH]; simpl; [lia | rewrite IH; lia]. Qed.

Lemma fold_left_min l m : fold_left Z.min l m = fold_right Z.min m l.
Proof.
  revert m. induction l as [|a l IH]; intros m; simpl; [reflexivity|].
  rewrite IH. apply fold_min_shift.
Qed.

Lemma fold_min_default d u l :
  d <= u -> Z.min d (fold_right Z.min u l) = fold_right Z.min d l.
Proof. intros Hd. induction l as [|a l IH]; simpl; lia. Qed.

Lemma fold_left_sum l t :
  fold_left (fun t x => u64 (t + x)) l (u64 t)
  = u64 (t + fold_right Z.add 0 l).
Proof.
  revert t. induction l as [|a l IH]; intros t; simpl.
  - rewrite Z.add_0_r. reflexivity.
  - rewrite IH. unfold u64. rewrite <- Z.add_assoc, Zplus_mod_idemp_l.
    reflexivity.
Qed.

(** What the loop of read_layout leaves in its variables when every arena
    it walks has a valid info block. *)
Lemma read_layout_loop_walk fuel :
  forall lane n smallest rawsize total arena_off (s s' : state W) out infos,
    read_layout_loop H E fuel lane n smallest rawsize total arena_off s
      = Some (out, s') ->
    walk H E fuel lane rawsize arena_off (world s) = Some infos ->
    bt s' = bt s /\
    exists n',
      out = inl (Some (n',
                       fold_left Z.min (map info_nfree infos) smallest,
                       fold_left (fun t x => u64 (t + x))
                         (map info_external_nlba infos) total)).
Proof.
  induction fuel as [|fuel IH];
    intros lane n smallest rawsize total arena_off s s' out infos Hl Hw;
    simpl in Hl, Hw.
  - destruct (rawsize <? BTT_MIN_SIZE H); [|discriminate].
    injection Hw as <-. apply ret_inv in Hl. injection Hl as -> ->.
    split; [reflexivity|]. exists n. reflexivity.
  - destruct (rawsize <? BTT_MIN_SIZE H).
    { injection Hw as <-. apply ret_inv in Hl. injection Hl as -> ->.
      split; [reflexivity|]. exists n. reflexivity. }
    destruct s as [b w t e]. cbn [world] in Hw.
    destruct (nsread E w lane (sizeof_btt_info H) arena_off)
      as [[r buf] w'] eqn:Hrd.
    unfold bind in Hl. rewrite (call_nsread_eq _ _ _ _ _ _ _ _ _ _ Hrd) in Hl.
    destruct (r <? 0); [discriminate|].
    cbv zeta in Hl, Hw.
    destruct (read_info H (info_of_bytes H buf)); cbn [negb] in Hl, Hw;
      [|discriminate].
    destruct (info_nextoff (info_of_bytes H buf) =? 0).
    { injection Hw as <-. apply ret_inv in Hl. injection Hl as -> ->.
      split; [reflexivity|]. eexists. cbn [map fold_left].
      do 3 f_equal. unfold Z.min.
      destruct (Z.ltb_spec (info_nfree (info_of_bytes H buf)) smallest);
        destruct (Z.compare_spec smallest (info_nfree (info_of_bytes H buf)));
        try reflexivity; lia. }
    destruct (walk H E fuel lane _ _ w') as [l|] eqn:Hwalk; [|discriminate].
    injection Hw as <-.
    destruct (IH _ _ _ _ _ _ _ _ _ _ Hl Hwalk) as (Hbt & n' & ->).
    split; [exact Hbt|]. exists n'. cbn [map fold_left].
    do 3 f_equal. unfold Z.min.
    destruct (Z.ltb_spec (info_nfree (info_of_bytes H buf)) smallest);
      destruct (Z.compare_spec smallest (info_nfree (info_of_bytes H buf)));
      try reflexivity; lia.
Qed.

Lemma walk_stops fuel :
  forall lane rawsize arena_off (w : W) infos,
    walk H E fuel lane rawsize arena_off w = Some infos ->
    stops_at H rawsize infos.
Proof.
  induction fuel as [|fuel IH]; intros lane rawsize arena_off w infos Hw;
    simpl in Hw.
  - destruct (Z.ltb_spec rawsize (BTT_MIN_SIZE H)); [|discriminate].
    injection Hw as <-. assumption.
  - destruct (Z.ltb_spec rawsize (BTT_MIN_SIZE H)).
    { injection Hw as <-. assumption. }
    destruct (nsread E w lane (sizeof_btt_info H) arena_off)
      as [[r buf] w'].
    destruct (r <? 0); [discriminate|]. cbv zeta in Hw.
    destruct (negb (read_info H (info_of_bytes H buf))); [discriminate|].
    destruct (info_nextoff (info_of_bytes H buf) =? 0) eqn:Hn.
    { injection Hw as <-. simpl. rewrite Hn. auto. }
    destruct (walk H E fuel lane _ _ w') as [l|] eqn:Hwalk; [|discriminate].
    injection Hw as <-. simpl. rewrite Hn. split; [assumption|].
    eapply IH; eauto.
Qed.

(** X16.  The totals of read_layout.  After read_layout succeeds on a
    namespace whose every walked arena has a valid info block, the handle's
    nfree is the minimum of BTT_DEFAULT_NFREE, which read_layout stores
    before the walk, and the info-block nfree values of the walked arenas;
    its nlba is the sum of their external_nlba values (a 64-bit sum); and
    the walk went on exactly while nextoff was not 0 and the remaining
    space was at least the minimum arena size. *)
Theorem read_layout_totals (st st' : state W) fuel lane infos :
  BTT_DEFAULT_NFREE H <= UINT32_MAX ->
  read_layout H E fuel lane st = Some (0, st') ->
  walk H E fuel lane (rawsize (bt st)) 0 (world st) = Some infos ->
  nfree (bt st') = min_nfree (BTT_DEFAULT_NFREE H) infos /\
  nlba (bt st') = u64 (sum_nlba infos) /\
  (0 <= sum_nlba infos < 2 ^ 64 -> nlba (bt st') = sum_nlba infos) /\
  stops_at H (rawsize (bt st)) infos.
Proof.
  intros Hdef Hrl Hw.
  assert (Hstop := walk_stops _ _ _ _ _ _ Hw).
  unfold read_layout in Hrl.
  apply bind_inv in Hrl as (b & s1 & Hb & Hrl).
  apply get_bt_inv in Hb. injection Hb as -> ->.
  apply bind_inv in Hrl as (x & s2 & Hm & Hrl).
  apply modify_bt_inv in Hm. subst s2.
  apply bind_inv in Hrl as (out & s3 & Hloop & Hrl).
  destruct (read_layout_loop_walk _ _ _ _ _ _ _ _ _ _ _ Hloop Hw)
    as (Hbt & n' & ->).
  cbn [bt] in Hbt.
  apply bind_inv in Hrl as (x1 & s4 & Hm1 & Hrl).
  apply modify_bt_inv in Hm1. subst s4.
  apply bind_inv in Hrl as (x2 & s5 & Hm2 & Hrl).
  apply modify_bt_inv in Hm2. subst s5.
  apply bind_inv in Hrl as (b5 & s6 & Hb5 & Hrl).
  apply get_bt_inv in Hb5. injection Hb5 as -> ->.
  cbn [bt world trace errno] in Hrl.
  apply bind_inv in Hrl as (x3 & s7 & Hset & Hrl).
  destruct (respects_read_arenas _ same_params_closed _ _ _ _ _ Hrl)
    as (Hnf & Hnl & _).
  rewrite Hnf, Hnl.
  assert (Hsum :
    fold_left (fun t x => u64 (t + x)) (map info_external_nlba infos) 0
    = u64 (sum_nlba infos)).
  { change 0 with (u64 0) at 1. rewrite fold_left_sum. reflexivity. }
  rewrite fold_left_min in Hset.
  set (smallest := fold_right Z.min UINT32_MAX (map info_nfree infos)) in *.
  assert (Hmin : Z.min (BTT_DEFAULT_NFREE H) smallest
                 = min_nfree (BTT_DEFAULT_NFREE H) infos)
    by (apply fold_min_default; assumption).
  rewrite Hbt in Hset. cbn [nfree nlba set_nlba set_narena set_nfree] in Hset.
  destruct (Z.ltb_spec smallest (BTT_DEFAULT_NFREE H)) as [Hlt|Hge].
  - apply modify_bt_inv in Hset. subst s7. cbn [bt nfree nlba set_nfree
      set_nlba set_narena].
    rewrite Hsum.
    split; [lia|]. split; [reflexivity|].
    split; [|exact Hstop]. intros Hr. unfold u64. apply Z.mod_small. lia.
  - apply ret_inv in Hset. injection Hset as _ ->.
    cbn [bt nfree nlba set_nfree set_nlba set_narena]. rewrite Hsum.
    split; [lia|]. split; [reflexivity|].
    split; [|exact Hstop]. intros Hr. unfold u64. apply Z.mod_small. lia.
Qed.

(** *** C1: what a read leaves in its rtt cell *)

Lemma put_rtt_eq arenap lane v (s : state W) :
  put_rtt arenap lane v s =
  match rtt_of (bt s) arenap lane with
  | Some _ => Some (tt, with_bt (with_rtt (bt s) arenap lane v) s)
  | None => None
  end.
Proof.
  unfold put_rtt, rtt_of, with_rtt, bind. rewrite get_arena_eq.
  destruct (arena_of (bt s) arenap) as [a|] eqn:Ha; [|reflexivity].
  unfold of_option, ret, undef.
  destruct (rtt a) as [r|]; [|reflexivity].
  unfold store. destruct (index r lane); [|reflexivity].
  rewrite put_arena_eq, Ha. reflexivity.
Qed.

Lemma rtt_of_with_rtt b arenap lane v v0 :
  rtt_of b arenap lane = Some v0 ->
  rtt_of (with_rtt b arenap lane v) arenap lane = Some v.
Proof.
  unfold rtt_of, with_rtt.
  destruct (arena_of b arenap) as [a|] eqn:Ha; [|discriminate].
  destruct (rtt a) as [r|] eqn:Hr; [|discriminate].
  intros Hi. erewrite arena_of_with_arena by eauto. simpl.
  eapply index_insert; eauto.
Qed.

(** Every return of the retry loop of btt_read leaves the rtt cell of the
    lane idle, or leaves the handle as the loop found it (a return from
    the first turn), or leaves in the cell a map entry without flags that
    the loop published in an earlier turn (a return with zeros or EIO from
    a later turn). *)
Lemma btt_read_loop_rtt fuel :
  forall lane arenap map_entry_off entry buf (s s' : state W) r,
    btt_read_loop E fuel lane arenap map_entry_off entry buf s
      = Some (r, s') ->
    rtt_of (bt s') arenap lane = Some BTT_MAP_ENTRY_ERROR \/
    bt s' = bt s \/
    exists published,
      rtt_of (bt s') arenap lane = Some published /\
      Z.land published BTT_MAP_ENTRY_ERROR = 0 /\
      Z.land published BTT_MAP_ENTRY_ZERO = 0.
Proof.
  induction fuel as [|fuel IH];
    intros lane arenap map_entry_off entry buf s s' r Hl; simpl in Hl;
    [discriminate|].
  destruct (Z.eqb_spec (Z.land entry BTT_MAP_ENTRY_ERROR) 0) as [He|He];
    cbn [negb] in Hl.
  2:{ unfold bind, set_errno, ret in Hl. injection Hl as _ <-.
      right. left. reflexivity. }
  destruct (Z.eqb_spec (Z.land entry BTT_MAP_ENTRY_ZERO) 0) as [Hz|Hz];
    cbn [negb] in Hl.
  2:{ unfold zero_block, bind, get_bt, ret in Hl. injection Hl as _ <-.
      right. left. reflexivity. }
  unfold bind in Hl. rewrite put_rtt_eq in Hl.
  destruct (rtt_of (bt s) arenap lane) as [v0|] eqn:Hrtt; [|discriminate].
  assert (Hpub := rtt_of_with_rtt _ _ _ entry _ Hrtt).
  destruct s as [b w t e]. unfold with_bt in Hl.
  cbn [bt world trace errno] in *.
  destruct (nsread E w lane 4 map_entry_off) as [[r2 data] w2] eqn:Hrd.
  rewrite (call_nsread_eq _ _ _ _ _ _ _ _ _ _ Hrd) in Hl.
  destruct (r2 <? 0).
  { rewrite put_rtt_eq in Hl. cbn [bt] in Hl. rewrite Hpub in Hl.
    unfold ret, with_bt in Hl. injection Hl as _ <-. left. cbn [bt].
    eapply rtt_of_with_rtt; eauto. }
  destruct (entry =? le32toh (u32_at data 0)).
  - rewrite get_arena_eq in Hl. cbn [bt] in Hl.
    destruct (arena_of (with_rtt b arenap lane entry) arenap) as [a|];
      [|discriminate].
    unfold get_bt in Hl. cbn [bt world trace errno] in Hl.
    unfold call_nsread in Hl. cbn [bt world trace errno] in Hl.
    destruct (nsread E w2 lane _ _) as [[r3 data3] w3].
    rewrite put_rtt_eq in Hl. cbn [bt] in Hl. rewrite Hpub in Hl.
    unfold ret, with_bt in Hl. injection Hl as _ <-. left. cbn [bt].
    eapply rtt_of_with_rtt; eauto.
  - apply IH in Hl. cbn [bt] in Hl.
    destruct Hl as [Hl | [Hl | Hl]]; [left; exact Hl | | right; right; exact Hl].
    right. right. exists entry. rewrite Hl. auto.
Qed.

(** ** Beyond the claims: the range check *)

(** X1.  An LBA at or beyond nlba is rejected by every entry point that
    takes one: the result is -1, errno is EINVAL, the caller's buffer, the
    handle, the namespace and the trace are untouched (no callback, no
    lock, no layout write), whether or not a layout exists. *)
Theorem lba_out_of_range (st : state W) fuel lane lba buf :
  nlba (bt st) <= lba ->
  btt_read E fuel lane lba buf st = Some ((-1, buf), rejected st) /\
  btt_write H E lane lba buf st = Some (-1, rejected st) /\
  btt_set_zero H E lane lba st = Some (-1, rejected st) /\
  btt_set_error H E lane lba st = Some (-1, rejected st).
Proof.
  intros Hr. apply Z.leb_le in Hr.
  unfold btt_read, btt_write, btt_set_zero, btt_set_error, map_entry_setf,
    bind.
  rewrite !invalid_lba_eq, Hr. auto.
Qed.

(** ** Beyond the claims: reads before the layout exists *)

(** X2.  While no layout is written, a read of an LBA in range returns 0
    and a buffer of lbasize zero bytes, and leaves the whole state as it
    was: no callback is made and the rtt is not used. *)
Theorem btt_read_without_layout (st : state W) fuel lane lba buf :
  laidout (bt st) = 0 -> lba < nlba (bt st) ->
  btt_read E fuel lane lba buf st
  = Some ((0, replicate (Z.to_nat (lbasize (bt st))) 0), st).
Proof.
  intros Hl Hr. apply Z.leb_gt in Hr.
  unfold btt_read, bind. rewrite invalid_lba_eq, Hr.
  change (negb (0 =? 0)) with false. cbv iota.
  unfold get_bt. rewrite Hl. reflexivity.
Qed.

(** ** Beyond the claims: the commit of a flog entry *)

Lemma NSEQ_cycle s :
  1 <= s <= 3 ->
  1 <= NSEQ s <= 3 /\ NSEQ s <> s /\ NSEQ (NSEQ s) <> s /\
  NSEQ (NSEQ (NSEQ s)) = s.
Proof.
  intros Hs.
  assert (s = 1 \/ s = 2 \/ s = 3) as [-> | [-> | ->]] by lia;
    change (NSEQ 1) with 2; change (NSEQ 2) with 3; change (NSEQ 3) with 1;
    change (NSEQ 2) with 3; change (NSEQ 3) with 1; change (NSEQ 1) with 2;
    repeat split; lia.
Qed.

(** The run-time flog a successful read of the pair leaves, as a function
    of the two sequence numbers. *)
Lemma read_flog_pair_current (st : state W) lane arenap flog_off i flognum
    fr r buf w :
  flog_of (bt st) arenap i = Some fr ->
  nsread E (world st) lane (2 * sizeof_btt_flog) flog_off = (r, buf, w) ->
  0 <= r ->
  exists rv st' fr',
    read_flog_pair H E lane arenap flog_off i flognum st = Some (rv, st') /\
    flog_of (bt st') arenap i = Some fr' /\
    (flog fr', next fr') =
    (if flog_seq (flog_at buf 0) =? flog_seq (flog_at buf 16)
     then (flog fr, next fr)
     else if flog_seq (flog_at buf 0) =? 0 then (flog_at buf 16, 0)
     else if flog_seq (flog_at buf 16) =? 0 then (flog_at buf 0, 1)
     else if NSEQ (flog_seq (flog_at buf 0)) =? flog_seq (flog_at buf 16)
     then (flog_at buf 16, 0)
     else (flog_at buf 0, 1)).
Proof.
  intros Hfr Hrd Hr.
  destruct st as [b w0 t e]. cbn [bt world] in *.
  destruct (flog_of_inv _ _ _ _ Hfr) as (a & fl & Ha & Hfl & Hi).
  unfold read_flog_pair, bind.
  mstep. rewrite Hfr. mstep. rewrite Hfr.
  rewrite (call_nsread_eq _ _ _ _ _ _ _ _ _ _ Hrd).
  rewrite (ltb_nonneg _ Hr).
  set (fr1 := mk_flog_runtime (flog fr) flog_off _ (next fr)).
  assert (Ha1 := arena_of_with_flog _ _ i fr1 _ _ Ha Hfl).
  assert (Hfr1 := flog_of_with_flog _ _ i fr1 _ Hfr).
  destruct (flog_seq (flog_at buf 0) =? flog_seq (flog_at buf 16)).
  - mstep. rewrite Ha1. mstep. rewrite Ha1. unfold ret.
    eexists _, _, _. split; [reflexivity|]. cbn [bt].
    split;
      [erewrite flog_of_with_arena by eauto;
       cbn [flogs set_flags set_flogs]; eapply index_insert; eauto
      |reflexivity].
  - set (sel := if flog_seq (flog_at buf 0) =? 0 then _ else _).
    destruct sel as [cur nxt].
    mstep. rewrite Hfr1. mstep. rewrite Hfr1.
    set (fr2 := mk_flog_runtime cur _ _ nxt).
    assert (Ha2 := arena_of_with_flog _ _ i fr2 _ _ Ha1 eq_refl).
    assert (Hfr2 := flog_of_with_flog _ _ i fr2 _ Hfr1).
    assert (Hres : (flog fr2, next fr2) = (cur, nxt)) by reflexivity.
    clearbody fr2.
    destruct (flog_old_map cur =? flog_new_map cur).
    { eexists _, _, _. split; [reflexivity|]. cbn [bt]. split; [exact Hfr2 | exact Hres]. }
    mstep. rewrite Ha2.
    unfold call_nsread at 1. cbn [bt world trace errno].
    destruct (nsread E w lane 4 _) as [[r2 buf2] w2].
    destruct (r2 <? 0).
    { eexists _, _, _. split; [reflexivity|]. cbn [bt]. split; [exact Hfr2 | exact Hres]. }
    match goal with
    | |- context [if ?c then _ else ret 0] => destruct c
    end.
    2:{ eexists _, _, _. split; [reflexivity|]. cbn [bt]. split; [exact Hfr2 | exact Hres]. }
    unfold call_nswrite at 1. cbn [bt world trace errno].
    destruct (nswrite E w2 lane _ 4 _) as [r3 w3].
    destruct (r3 <? 0).
    all: eexists _, _, _; (split; [reflexivity|]); cbn [bt]; (split; [exact Hfr2 | exact Hres]).
Qed.

(** X3.  What flog_update commits, recovery selects.  Let the run-time
    flog of a lane have sequence number s (1, 2 or 3) and next-write slot
    n, and let the pair on the media be as a successful flog_update leaves
    it: slot n holds (lba, old_map, new_map, NSEQ s) and the other slot
    still has sequence number s.  Then read_flog_pair makes the new entry
    the current one and slot 1 - n the next to write. *)
Theorem flog_commit_selected (st : state W) lane arenap flog_off i flognum
    a fr r buf w n s lba old_map new_map :
  arena_of (bt st) arenap = Some a ->
  flog_of (bt st) arenap i = Some fr ->
  nsread E (world st) lane (2 * sizeof_btt_flog) flog_off = (r, buf, w) ->
  0 <= r ->
  n = 0 \/ n = 1 ->
  1 <= s <= 3 ->
  flog_at buf (slot_at n) = mk_flog lba old_map new_map (NSEQ s) ->
  flog_seq (flog_at buf (slot_at (1 - n))) = s ->
  exists ret st' fr',
    read_flog_pair H E lane arenap flog_off i flognum st = Some (ret, st') /\
    flog_of (bt st') arenap i = Some fr' /\
    flog fr' = mk_flog lba old_map new_map (NSEQ s) /\
    next fr' = 1 - n.
Proof.
  intros Ha Hfr Hrd Hr Hn Hs Hnew Hold.
  destruct (NSEQ_cycle s Hs) as (Hrange & Hne & Hne2 & _).
  destruct (read_flog_pair_current st lane arenap flog_off i flognum
              fr r buf w Hfr Hrd Hr)
    as (rv & st' & fr' & Hrun & Hfl & Hsel).
  exists rv, st', fr'. split; [exact Hrun|]. split; [exact Hfl|].
  assert (Hgoal : (flog fr', next fr')
                  = (mk_flog lba old_map new_map (NSEQ s), 1 - n));
    [|injection Hgoal; auto].
  rewrite Hsel.
  destruct Hn as [-> | ->];
    change (1 - 0) with 1 in *; change (1 - 1) with 0 in *;
    change (slot_at 0) with 0%nat in *; change (slot_at 1) with 16%nat in *;
    rewrite Hold, Hnew; cbn [flog_seq].
  - (* slot 0 is the new one *)
    rewrite (proj2 (Z.eqb_neq _ _) Hne).
    rewrite (proj2 (Z.eqb_neq (NSEQ s) 0)) by lia.
    rewrite (proj2 (Z.eqb_neq s 0)) by lia.
    rewrite (proj2 (Z.eqb_neq _ _) Hne2). reflexivity.
  - (* slot 1 is the new one *)
    rewrite (proj2 (Z.eqb_neq s (NSEQ s))) by congruence.
    rewrite (proj2 (Z.eqb_neq s 0)) by lia.
    rewrite (proj2 (Z.eqb_neq (NSEQ s) 0)) by lia.
    rewrite Z.eqb_refl. reflexivity.
Qed.

(** X4.  A flog update torn by a crash is ignored.  Let the pair on the
    media be as flog_update leaves it when only its first write was made:
    slot n holds the fields of the new entry under the sequence number
    that slot had before, which is 0 (never written) or the one before s
    in the cycle, and the other slot holds the current entry with sequence
    number s (1, 2 or 3).  Then read_flog_pair keeps the entry of the
    other slot as the current one and slot n as the next to write. *)
Theorem flog_torn_update_ignored (st : state W) lane arenap flog_off i
    flognum a fr r buf w n s stale :
  arena_of (bt st) arenap = Some a ->
  flog_of (bt st) arenap i = Some fr ->
  nsread E (world st) lane (2 * sizeof_btt_flog) flog_off = (r, buf, w) ->
  0 <= r ->
  n = 0 \/ n = 1 ->
  1 <= s <= 3 ->
  flog_seq (flog_at buf (slot_at (1 - n))) = s ->
  flog_seq (flog_at buf (slot_at n)) = stale ->
  stale = 0 \/ 1 <= stale <= 3 /\ NSEQ stale = s ->
  exists ret st' fr',
    read_flog_pair H E lane arenap flog_off i flognum st = Some (ret, st') /\
    flog_of (bt st') arenap i = Some fr' /\
    flog fr' = flog_at buf (slot_at (1 - n)) /\
    next fr' = n.
Proof.
  intros Ha Hfr Hrd Hr Hn Hs Hcur Hst Hstale.
  destruct (NSEQ_cycle s Hs) as (Hrange & Hne & Hne2 & Hc3).
  destruct (read_flog_pair_current st lane arenap flog_off i flognum
              fr r buf w Hfr Hrd Hr)
    as (rv & st' & fr' & Hrun & Hfl & Hsel).
  exists rv, st', fr'. split; [exact Hrun|]. split; [exact Hfl|].
  assert (Hdiff : stale <> s).
  { destruct Hstale as [-> | [Hp <-]]; [lia|].
    destruct (NSEQ_cycle stale Hp) as (_ & Hx & _). congruence. }
  assert (Hgoal : (flog fr', next fr') = (flog_at buf (slot_at (1 - n)), n));
    [|injection Hgoal; auto].
  rewrite Hsel.
  destruct Hn as [-> | ->];
    change (1 - 0) with 1 in *; change (1 - 1) with 0 in *;
    change (slot_at 0) with 0%nat in *; change (slot_at 1) with 16%nat in *;
    rewrite Hcur, Hst.
  - (* slot 0 is the torn one, slot 1 the current one *)
    rewrite (proj2 (Z.eqb_neq _ _) Hdiff).
    destruct Hstale as [-> | [Hp Hnx]]; [reflexivity|].
    rewrite (proj2 (Z.eqb_neq stale 0)) by lia.
    rewrite (proj2 (Z.eqb_neq s 0)) by lia.
    rewrite Hnx, Z.eqb_refl. reflexivity.
  - (* slot 1 is the torn one, slot 0 the current one *)
    rewrite (proj2 (Z.eqb_neq s stale)) by congruence.
    rewrite (proj2 (Z.eqb_neq s 0)) by lia.
    destruct Hstale as [-> | [Hp Hnx]]; [reflexivity|].
    rewrite (proj2 (Z.eqb_neq stale 0)) by lia.
    destruct (NSEQ_cycle stale Hp) as (_ & _ & Hx & _).
    rewrite (proj2 (Z.eqb_neq (NSEQ s) stale)) by (rewrite <- Hnx; exact Hx).
    reflexivity.
Qed.

(** ** Beyond the claims: a flog update is local to its lane *)

Lemma arena_of_with_arena_ne b arenap k a :
  k <> arenap -> arena_of (with_arena b arenap a) k = arena_of b k.
Proof.
  intros Hk. unfold arena_of, with_arena.
  destruct (arenas b) as [l|] eqn:Hl; [|rewrite Hl; reflexivity].
  simpl. apply list_lookup_insert_ne. congruence.
Qed.

Lemma index_insert_ne {A} (l : list A) i j x y :
  index l i = Some y -> j <> i ->
  index (<[Z.to_nat i := x]> l) j = index l j.
Proof.
  unfold index. destruct (Z.ltb_spec i 0); [discriminate|].
  intros _ Hj. destruct (Z.ltb_spec j 0); [reflexivity|].
  apply list_lookup_insert_ne. lia.
Qed.

Lemma flog_update_bt lane arenap lba old_map new_map (st st' : state W) rv :
  flog_update E lane arenap lba old_map new_map st = Some (rv, st') ->
  bt st' = bt st \/
  exists fr0 fr', flog_of (bt st) arenap lane = Some fr0 /\
                  bt st' = with_flog (bt st) arenap lane fr'.
Proof.
  unfold flog_update, bind. rewrite get_flog_eq.
  destruct (flog_of (bt st) arenap lane) as [fr|] eqn:Hfr; [|discriminate].
  destruct (entries fr (next fr)) as [off|]; [|discriminate].
  simpl of_option. unfold ret at 1.
  destruct st as [b w t e]. cbn [bt] in *.
  unfold call_nswrite at 1. cbn [bt world trace errno].
  destruct (nswrite E w lane _ _ off) as [r1 w1].
  destruct (r1 <? 0).
  { intros [= _ <-]. left. reflexivity. }
  unfold call_nswrite at 1. cbn [bt world trace errno].
  destruct (nswrite E w1 lane _ _ _) as [r2 w2].
  destruct (r2 <? 0).
  { intros [= _ <-]. left. reflexivity. }
  rewrite get_flog_eq. cbn [bt]. rewrite Hfr.
  rewrite put_flog_eq. cbn [bt]. rewrite Hfr.
  unfold ret, with_bt. intros [= _ <-]. right. cbn [bt]. eauto.
Qed.

(** X5.  flog_update touches the run-time flog of its own lane only: in
    every run that returns, the run-time flogs of the other lanes, the
    other arenas, every rtt cell and the layout parameters of the handle
    are as before. *)
Theorem flog_update_frame lane arenap lba old_map new_map (st st' : state W)
    rv :
  flog_update E lane arenap lba old_map new_map st = Some (rv, st') ->
  (forall j, j <> lane ->
     flog_of (bt st') arenap j = flog_of (bt st) arenap j) /\
  (forall k, k <> arenap -> arena_of (bt st') k = arena_of (bt st) k) /\
  (forall k l, rtt_of (bt st') k l = rtt_of (bt st) k l) /\
  nfree (bt st') = nfree (bt st) /\ nlba (bt st') = nlba (bt st) /\
  nlane (bt st') = nlane (bt st) /\ laidout (bt st') = laidout (bt st).
Proof.
  intros Hrun. apply flog_update_bt in Hrun as [-> | (fr0 & fr' & Hfr & ->)];
    [repeat split; reflexivity|].
  destruct (flog_of_inv _ _ _ _ Hfr) as (a & fl & Ha & Hfl & Hi).
  unfold with_flog. rewrite Ha, Hfl.
  split.
  { intros j Hj. rewrite (flog_of_with_arena _ _ _ _ _ Ha).
    cbn [flogs set_flogs]. unfold flog_of. rewrite Ha, Hfl.
    eapply index_insert_ne; eauto. }
  split.
  { intros k Hk. apply arena_of_with_arena_ne. exact Hk. }
  split.
  { intros k l. unfold rtt_of.
    destruct (Nat.eq_dec k arenap) as [-> | Hk].
    - rewrite (arena_of_with_arena _ _ _ _ Ha), Ha. reflexivity.
    - rewrite arena_of_with_arena_ne by exact Hk. reflexivity. }
  unfold with_arena, arena_of in *.
  destruct (arenas (bt st)); [|discriminate]. repeat split; reflexivity.
Qed.

(** ** Beyond the claims: the arena of an LBA *)

Lemma lba_to_arena_lba_loop_spec (l : list arena) (b : btt) w t e :
  arenas b = Some l ->
  forall rest k lba,
    drop k l = rest ->
    Forall (fun a => 0 <= external_nlba a) rest ->
    0 <= lba < total_nlba rest -> lba < 2 ^ 64 ->
    exists k' a premap_lba,
      @lba_to_arena_lba_loop W (length rest) k lba (mk_state b w t e)
      = Some ((k', premap_lba), mk_state b w t e) /\
      l !! k' = Some a /\
      (k <= k')%nat /\
      lba = total_nlba (take (k' - k) rest) + premap_lba /\
      0 <= premap_lba < external_nlba a.
Proof.
  intros Hl rest. induction rest as [|a rest IH]; intros k lba Hd Hall Hr H64.
  - cbn in Hr. lia.
  - assert (Hk : l !! k = Some a).
    { rewrite <- (take_drop k l), Hd.
      destruct (Nat.le_gt_cases (length l) k) as [Hge|Hlt].
      - rewrite drop_ge in Hd by lia. discriminate.
      - rewrite lookup_app_r by (rewrite length_take; lia).
        rewrite length_take, Nat.min_l by lia.
        rewrite Nat.sub_diag. reflexivity. }
    inversion Hall as [|? ? Ha Hall']; subst.
    cbn [length lba_to_arena_lba_loop]. unfold bind.
    rewrite get_arena_eq. unfold arena_of. cbn [bt]. rewrite Hl, Hk.
    unfold total_nlba in Hr. cbn [map fold_right] in Hr.
    fold (total_nlba rest) in Hr.
    destruct (Z.ltb_spec lba (external_nlba a)) as [Hlt|Hge].
    + exists k, a, lba. split; [reflexivity|]. split; [exact Hk|].
      split; [lia|]. rewrite Nat.sub_diag. cbn. lia.
    + assert (Hu : u64 (lba - external_nlba a) = lba - external_nlba a)
        by (unfold u64; apply Z.mod_small; lia).
      rewrite Hu.
      destruct (IH (S k) (lba - external_nlba a)) as
        (k' & a' & p & Hrun & Hk' & Hle & Hsum & Hp); try lia.
      { rewrite (drop_S l a k Hk) in Hd. congruence. }
      { exact Hall'. }
      exists k', a', p. split; [exact Hrun|]. split; [exact Hk'|].
      split; [lia|]. split; [|exact Hp].
      replace (k' - k)%nat with (S (k' - S k)) by lia.
      cbn [take]. unfold total_nlba in *. cbn [map fold_right]. lia.
Qed.

(** X6.  lba_to_arena_lba finds the arena an external LBA lives in.  On a
    handle whose arena array has narena arenas, for an LBA below the sum
    of their external_nlba it returns 0 with the index k of an arena and
    the pre-map LBA, such that the LBA is the pre-map LBA plus the
    external_nlba of the arenas before k, and the pre-map LBA is below the
    external_nlba of arena k; the state is unchanged. *)
Theorem lba_to_arena_lba_finds (st : state W) l lba :
  arenas (bt st) = Some l ->
  narena (bt st) = Z.of_nat (length l) ->
  Forall (fun a => 0 <= external_nlba a < 2 ^ 32) l ->
  0 <= lba < total_nlba l -> lba < 2 ^ 64 ->
  exists k a premap_lba,
    lba_to_arena_lba lba st = Some ((0, k, premap_lba), st) /\
    l !! k = Some a /\
    lba = total_nlba (take k l) + premap_lba /\
    0 <= premap_lba < external_nlba a.
Proof.
  intros Hl Hn Hall Hr H64. destruct st as [b w t e]. cbn [bt] in *.
  assert (Hall' : Forall (fun a => 0 <= external_nlba a) l)
    by (eapply Forall_impl; [exact Hall | cbn; intros; lia]).
  destruct (lba_to_arena_lba_loop_spec l b w t e Hl l 0%nat lba)
    as (k & a & p & Hrun & Hk & _ & Hsum & Hp); auto.
  exists k, a, p. rewrite Nat.sub_0_r in Hsum.
  split; [|auto].
  unfold lba_to_arena_lba, bind, get_bt. cbn [bt]. rewrite Hn, Nat2Z.id.
  rewrite Hrun. unfold ret. do 3 f_equal.
  apply Forall_lookup_1 with (i := k) (x := a) in Hall; [|exact Hk].
  unfold u32. apply Z.mod_small. cbn in Hall. lia.
Qed.

(** ** Beyond the claims: an arena in the error state *)

(** X7.  Once a layout exists, a write or a flag update of an LBA whose
    arena has a flag of BTTINFO_FLAG_ERROR_MASK set is refused: btt_write,
    btt_set_zero and btt_set_error return -1 with errno EIO, and the
    handle, the namespace and the trace are as before: no block is
    written, no map lock is taken and no flog entry is used. *)
Theorem arena_error_refuses_writes (st : state W) lane lba buf arenap
    premap_lba a :
  lba < nlba (bt st) -> laidout (bt st) <> 0 ->
  lba_to_arena_lba lba st = Some ((0, arenap, premap_lba), st) ->
  arena_of (bt st) arenap = Some a ->
  Z.land (flags a) (BTTINFO_FLAG_ERROR_MASK H) <> 0 ->
  btt_write H E lane lba buf st = Some (-1, failed_eio st) /\
  btt_set_zero H E lane lba st = Some (-1, failed_eio st) /\
  btt_set_error H E lane lba st = Some (-1, failed_eio st).
Proof.
  intros Hr Hl Hrun Ha Hf.
  apply Z.leb_gt in Hr. apply Z.eqb_neq in Hl, Hf.
  assert (Hset : forall setf,
            map_entry_setf H E lane lba setf st = Some (-1, failed_eio st)).
  { intros setf. unfold map_entry_setf, map_entry_setf_laidout, bind.
    rewrite invalid_lba_eq, Hr.
    change (negb (0 =? 0)) with false. cbv iota.
    unfold get_bt. rewrite Hl. cbn [andb]. unfold ret at 1.
    change (0 <? 0) with false. cbv beta iota.
    rewrite Hrun. cbv beta iota. change (0 <? 0) with false. cbv beta iota.
    rewrite get_arena_eq, Ha. cbv beta iota. rewrite Hf. reflexivity. }
  split; [|split; apply Hset].
  unfold btt_write, bind. rewrite invalid_lba_eq, Hr.
  change (negb (0 =? 0)) with false. cbv iota.
  unfold get_bt. rewrite Hl. unfold ret at 1.
  change (0 <? 0) with false. cbv beta iota.
  rewrite Hrun. cbv beta iota. change (0 <? 0) with false. cbv beta iota.
  rewrite get_arena_eq, Ha. cbv beta iota. rewrite Hf. reflexivity.
Qed.

(** ** Beyond the claims: the order of a write *)

Lemma rtt_wait_inv n arenap i free_entry (s : state W) x s' :
  rtt_wait n arenap i free_entry s = Some (x, s') -> s' = s.
Proof.
  revert i s. induction n as [|n IH]; intros i s; cbn [rtt_wait].
  - intros Hr. apply ret_inv in Hr. congruence.
  - intros Hr.
    apply bind_inv in Hr as (a & s1 & Ha & Hr).
    apply get_arena_inv in Ha as [_ ->].
    apply bind_inv in Hr as (r & s2 & Hrt & Hr).
    destruct (rtt a) as [r0|]; [|discriminate].
    apply ret_inv in Hrt. injection Hrt as -> ->.
    apply bind_inv in Hr as (v & s3 & Hv & Hr).
    destruct (index r0 i) as [v0|]; [|discriminate].
    apply ret_inv in Hv. injection Hv as -> ->.
    destruct (v0 =? free_entry); [discriminate|].
    eapply IH; eauto.
Qed.

Lemma flog_update_inv lane arenap lba old_map new_map b w t e rv s' :
  flog_update E lane arenap lba old_map new_map (mk_state b w t e)
  = Some (rv, s') ->
  exists fr off r1 w1,
    flog_of b arenap lane = Some fr /\
    entries fr (next fr) = Some off /\
    let buf1 := bytes_of_u32 lba ++ bytes_of_u32 old_map
                  ++ bytes_of_u32 new_map in
    let buf2 := bytes_of_u32 (NSEQ (flog_seq (flog fr))) in
    let ev1 := EvNsWrite lane buf1 12 off r1 in
    nswrite E w lane buf1 12 off = (r1, w1) /\
    (r1 < 0 /\ rv = -1 /\ s' = mk_state b w1 (t ++ [ev1]) e
     \/
     0 <= r1 /\
     exists r2 w2,
       let ev2 := EvNsWrite lane buf2 4 (s64 (off + 12)) r2 in
       nswrite E w1 lane buf2 4 (s64 (off + 12)) = (r2, w2) /\
       (r2 < 0 /\ rv = -1 /\ s' = mk_state b w2 (t ++ [ev1; ev2]) e
        \/
        0 <= r2 /\ rv = 0 /\
        s' = mk_state
               (with_flog b arenap lane
                  (mk_flog_runtime
                     (mk_flog lba old_map new_map (NSEQ (flog_seq (flog fr))))
                     (entries0 fr) (entries1 fr) (1 - next fr)))
               w2 (t ++ [ev1; ev2]) e)).
Proof.
  unfold flog_update, bind. rewrite get_flog_eq. cbn [bt].
  destruct (flog_of b arenap lane) as [fr|] eqn:Hfr; [|discriminate].
  destruct (entries fr (next fr)) as [off|] eqn:Hoff; [|discriminate].
  simpl of_option. unfold ret at 1.
  unfold htole32. change (4 * 3) with 12.
  destruct (nswrite E w lane
              (bytes_of_u32 lba ++ bytes_of_u32 old_map
                 ++ bytes_of_u32 new_map) 12 off) as [r1 w1] eqn:Hw1.
  rewrite (call_nswrite_eq _ _ _ _ _ _ _ _ _ _ Hw1). intros Hrun.
  exists fr, off, r1, w1. split; [reflexivity|]. split; [exact Hoff|].
  cbv zeta. split; [exact Hw1|].
  revert Hrun. destruct (Z.ltb_spec r1 0) as [Hr1|Hr1]; intros Hrun.
  { apply ret_inv in Hrun. injection Hrun as -> ->. left. auto. }
  right. split; [exact Hr1|].
  destruct (nswrite E w1 lane (bytes_of_u32 (NSEQ (flog_seq (flog fr)))) 4
              (s64 (off + 12))) as [r2 w2] eqn:Hw2.
  rewrite (call_nswrite_eq _ _ _ _ _ _ _ _ _ _ Hw2) in Hrun.
  exists r2, w2. split; [reflexivity|].
  rewrite <- app_assoc in Hrun. cbn [app] in Hrun.
  revert Hrun. destruct (Z.ltb_spec r2 0) as [Hr2|Hr2]; intros Hrun.
  { apply ret_inv in Hrun. injection Hrun as -> ->. left. auto. }
  right. rewrite get_flog_eq in Hrun. cbn [bt] in Hrun. rewrite Hfr in Hrun.
  rewrite put_flog_eq in Hrun. cbn [bt] in Hrun. rewrite Hfr in Hrun.
  unfold with_bt in Hrun. cbn [world trace errno] in Hrun.
  apply ret_inv in Hrun. injection Hrun as -> ->. auto.
Qed.

Lemma lock_num_of_with_flog b arenap i fr k premap_lba :
  lock_num_of (with_flog b arenap i fr) k premap_lba
  = lock_num_of b k premap_lba.
Proof.
  unfold with_flog.
  destruct (arena_of b arenap) as [a|] eqn:Ha; [|reflexivity].
  destruct (flogs a) as [fl|] eqn:Hfl; [|reflexivity].
  unfold lock_num_of.
  assert (Hn : nfree (with_arena b arenap
                        (set_flogs (Some (<[Z.to_nat i := fr]> fl)) a))
               = nfree b).
  { unfold with_arena. destruct (arenas b); reflexivity. }
  rewrite Hn.
  destruct (Nat.eq_dec k arenap) as [-> | Hk].
  - rewrite (arena_of_with_arena _ _ _ _ Ha), Ha. reflexivity.
  - rewrite arena_of_with_arena_ne by exact Hk. reflexivity.
Qed.

(** A successful write on a handle with a layout, step by step. *)
Lemma btt_write_inv (st st' : state W) lane lba buf :
  laidout (bt st) <> 0 ->
  btt_write H E lane lba buf st = Some (0, st') ->
  exists arenap premap_lba a fr off n data r1 r2 r3 r4 r5 w1 w2 w3 w4,
    lba < nlba (bt st) /\
    lba_to_arena_lba lba st = Some ((0, arenap, premap_lba), st) /\
    arena_of (bt st) arenap = Some a /\
    flog_of (bt st) arenap lane = Some fr /\
    entries fr (next fr) = Some off /\
    lock_num_of (bt st) arenap premap_lba = Some n /\
    let free_entry :=
      Z.land (flog_old_map (flog fr)) BTT_MAP_ENTRY_LBA_MASK in
    let old_entry := u32_at data 0 in
    let map_off := map_entry_off_of a premap_lba in
    let buf1 := bytes_of_u32 premap_lba ++ bytes_of_u32 old_entry
                  ++ bytes_of_u32 free_entry in
    let buf2 := bytes_of_u32 (NSEQ (flog_seq (flog fr))) in
    nswrite E (world st) lane buf (lbasize (bt st))
      (data_block_off_of a free_entry) = (r1, w1) /\
    nsread E w1 lane 4 map_off = (r2, data, w2) /\
    nswrite E w2 lane buf1 12 off = (r3, w3) /\
    nswrite E w3 lane buf2 4 (s64 (off + 12)) = (r4, w4) /\
    nswrite E w4 lane (bytes_of_u32 free_entry) 4 map_off
      = (r5, world st') /\
    trace st' = trace st ++
      [ EvNsWrite lane buf (lbasize (bt st))
          (data_block_off_of a free_entry) r1;
        EvSpinLock arenap n;
        EvNsRead lane 4 map_off r2 data;
        EvNsWrite lane buf1 12 off r3;
        EvNsWrite lane buf2 4 (s64 (off + 12)) r4;
        EvNsWrite lane (bytes_of_u32 free_entry) 4 map_off r5;
        EvSpinUnlock arenap n ] /\
    0 <= r1 /\ 0 <= r2 /\ 0 <= r3 /\ 0 <= r4 /\ 0 <= r5 /\
    bt st' =
      with_flog (bt st) arenap lane
        (mk_flog_runtime
           (mk_flog premap_lba old_entry free_entry
              (NSEQ (flog_seq (flog fr))))
           (entries0 fr) (entries1 fr) (1 - next fr)) /\
    errno st' = errno st.
Proof.
  intros Hl Hrun. destruct st as [b w t e]. cbn [bt world trace errno] in *.
  unfold btt_write in Hrun.
  apply bind_inv in Hrun as (inv & s1 & Hinv & Hrun).
  rewrite invalid_lba_eq in Hinv. cbn [bt world trace] in Hinv.
  destruct (Z.leb_spec (nlba b) lba) as [Hge|Hlt]; injection Hinv as <- <-.
  { apply ret_inv in Hrun. discriminate. }
  change (negb (0 =? 0)) with false in Hrun. cbv iota in Hrun.
  apply bind_inv in Hrun as (b0 & s2 & Hb & Hrun).
  apply get_bt_inv in Hb. injection Hb as -> ->. cbn [bt] in Hrun.
  rewrite (proj2 (Z.eqb_neq _ _) Hl) in Hrun.
  apply bind_inv in Hrun as (err & s3 & Hr & Hrun).
  apply ret_inv in Hr. injection Hr as -> ->.
  change (0 <? 0) with false in Hrun. cbv iota in Hrun.
  apply bind_inv in Hrun as ([[r arenap] premap_lba] & s4 & Hlba & Hrun).
  destruct (lba_to_arena_lba_inv _ _ _ _ _ _ Hlba) as [-> ->].
  change (0 <? 0) with false in Hrun. cbv iota in Hrun.
  apply bind_inv in Hrun as (a & s5 & Ha & Hrun).
  apply get_arena_inv in Ha as [Ha ->]. cbn [bt] in Ha.
  destruct (negb (Z.land (flags a) (BTTINFO_FLAG_ERROR_MASK H) =? 0)).
  { apply bind_inv in Hrun as (u & s6 & _ & Hrun).
    apply ret_inv in Hrun. discriminate. }
  apply bind_inv in Hrun as (fr & s6 & Hfr & Hrun).
  rewrite get_flog_eq in Hfr. cbn [bt] in Hfr.
  destruct (flog_of b arenap lane) as [fr0|] eqn:Hfl; [|discriminate].
  injection Hfr as -> <-.
  apply bind_inv in Hrun as (b1 & s7 & Hb & Hrun).
  apply get_bt_inv in Hb. injection Hb as -> ->. cbn [bt] in Hrun.
  apply bind_inv in Hrun as (u & s8 & Hw & Hrun).
  apply rtt_wait_inv in Hw. subst s8.
  fold (data_block_off_of a
          (Z.land (flog_old_map (flog fr)) BTT_MAP_ENTRY_LBA_MASK)) in Hrun.
  apply bind_inv in Hrun as (r1 & s9 & Hw1 & Hrun).
  destruct (nswrite E w lane buf (lbasize b)
              (data_block_off_of a
                 (Z.land (flog_old_map (flog fr)) BTT_MAP_ENTRY_LBA_MASK)))
    as [r1' w1] eqn:Hns1.
  rewrite (call_nswrite_eq _ _ _ _ _ _ _ _ _ _ Hns1) in Hw1.
  injection Hw1 as <- <-.
  revert Hrun. destruct (Z.ltb_spec r1' 0) as [Hr1|Hr1]; intros Hrun.
  { apply ret_inv in Hrun. discriminate. }
  apply bind_inv in Hrun as ([r2 old] & s10 & Hml & Hrun).
  apply map_lock_inv in Hml
    as (a' & n & r0 & data & w2 & Ha' & Hn & Hrd & -> & Hcase).
  rewrite Ha in Ha'. injection Ha' as <-.
  cbv zeta in Hcase.
  destruct Hcase as [(Hr0 & -> & ->) | (Hr0 & -> & ->)].
  { apply ret_inv in Hrun. discriminate. }
  change (0 <? 0) with false in Hrun. cbv iota in Hrun.
  unfold le32toh, htole32 in Hrun.
  apply bind_inv in Hrun as (r3 & s11 & Hfu & Hrun).
  apply flog_update_inv in Hfu
    as (fr1 & off & r3' & w3 & Hfr1 & Hoff & Hw3 & Hcase).
  rewrite Hfl in Hfr1. injection Hfr1 as <-.
  cbv zeta in Hcase.
  destruct Hcase as [(Hr3 & -> & ->) | (Hr3 & r4 & w4 & Hw4 & Hcase)].
  { change (-1 <? 0) with true in Hrun. cbv iota in Hrun.
    apply bind_inv in Hrun as (u' & s12 & _ & Hrun).
    apply ret_inv in Hrun. discriminate. }
  destruct Hcase as [(Hr4 & -> & ->) | (Hr4 & -> & ->)].
  { change (-1 <? 0) with true in Hrun. cbv iota in Hrun.
    apply bind_inv in Hrun as (u' & s12 & _ & Hrun).
    apply ret_inv in Hrun. discriminate. }
  change (0 <? 0) with false in Hrun. cbv iota in Hrun.
  apply bind_inv in Hrun as (r5 & s12 & Hmu & Hrun).
  apply map_unlock_inv in Hmu as (a2 & n2 & w5 & Ha2 & Hn2 & Hw5 & ->).
  rewrite lock_num_of_with_flog, Hn in Hn2. injection Hn2 as <-.
  destruct (flog_of_inv _ _ _ _ Hfl) as (a0 & fl & Ha0 & Hflogs & _).
  rewrite Ha in Ha0. injection Ha0 as <-.
  rewrite (arena_of_with_flog _ _ _ _ _ _ Ha Hflogs) in Ha2.
  injection Ha2 as <-.
  change (map_entry_off_of (set_flogs _ a) premap_lba)
    with (map_entry_off_of a premap_lba) in *.
  revert Hrun. destruct (Z.ltb_spec r5 0) as [Hr5|Hr5]; intros Hrun;
    apply ret_inv in Hrun; [discriminate|].
  injection Hrun as ->.
  exists arenap, premap_lba, a, fr, off, n, data, r1', r0, r3', r4, r5,
    w1, w2, w3, w4.
  split; [exact Hlt|]. split; [exact Hlba|]. split; [exact Ha|]. split; [exact Hfl|].
  split; [exact Hoff|]. split; [exact Hn|].
  cbv zeta. cbn [bt world trace errno].
  split; [exact Hns1|]. split; [exact Hrd|]. split; [exact Hw3|].
  split; [exact Hw4|]. split; [exact Hw5|].
  split; [rewrite <- !app_assoc; reflexivity|].
  repeat (split; [assumption|]). split; reflexivity.
Qed.

(** X8.  The order of a successful write.  On a handle with a layout, a
    btt_write that returns 0 has made exactly these calls, in this order:
    the caller's block is written to the free block of the lane (the
    old_map of the lane's run-time flog, without its flags); the map lock
    of the LBA is taken and the map entry read; the flog entry (pre-map
    LBA, old entry, free block) is written in its two writes; the free
    block is written to the map entry; the lock is released.  All five
    accesses succeeded, the lane's run-time flog holds the new entry, so
    the block the map pointed at before is the lane's next free block, and
    nothing else of the handle changed. *)
Theorem btt_write_order (st st' : state W) lane lba buf :
  laidout (bt st) <> 0 ->
  btt_write H E lane lba buf st = Some (0, st') ->
  exists arenap premap_lba a fr off n data r1 r2 r3 r4 r5,
    lba_to_arena_lba lba st = Some ((0, arenap, premap_lba), st) /\
    arena_of (bt st) arenap = Some a /\
    flog_of (bt st) arenap lane = Some fr /\
    entries fr (next fr) = Some off /\
    lock_num_of (bt st) arenap premap_lba = Some n /\
    let free_entry :=
      Z.land (flog_old_map (flog fr)) BTT_MAP_ENTRY_LBA_MASK in
    let old_entry := u32_at data 0 in
    let map_off := map_entry_off_of a premap_lba in
    trace st' = trace st ++
      [ EvNsWrite lane buf (lbasize (bt st))
          (data_block_off_of a free_entry) r1;
        EvSpinLock arenap n;
        EvNsRead lane 4 map_off r2 data;
        EvNsWrite lane
          (bytes_of_u32 premap_lba ++ bytes_of_u32 old_entry
             ++ bytes_of_u32 free_entry) 12 off r3;
        EvNsWrite lane (bytes_of_u32 (NSEQ (flog_seq (flog fr)))) 4
          (s64 (off + 12)) r4;
        EvNsWrite lane (bytes_of_u32 free_entry) 4 map_off r5;
        EvSpinUnlock arenap n ] /\
    0 <= r1 /\ 0 <= r2 /\ 0 <= r3 /\ 0 <= r4 /\ 0 <= r5 /\
    bt st' =
      with_flog (bt st) arenap lane
        (mk_flog_runtime
           (mk_flog premap_lba old_entry free_entry
              (NSEQ (flog_seq (flog fr))))
           (entries0 fr) (entries1 fr) (1 - next fr)) /\
    errno st' = errno st.
Proof.
  intros Hl Hrun.
  destruct (btt_write_inv st st' lane lba buf Hl Hrun)
    as (arenap & premap_lba & a & fr & off & n & data & r1 & r2 & r3 & r4
        & r5 & w1 & w2 & w3 & w4 & _ & Hlba & Ha & Hfr & Hoff & Hn & _ & _
        & _ & _ & _ & Hrest).
  exists arenap, premap_lba, a, fr, off, n, data, r1, r2, r3, r4, r5.
  auto 10.
Qed.

(** ** Beyond the claims: what a read does to the world and the handle *)

Lemma adds_refl P (s : state W) : adds P s s.
Proof. exists []. split; [symmetry; apply app_nil_r | constructor]. Qed.

Lemma adds_trans P (s1 s2 s3 : state W) :
  adds P s1 s2 -> adds P s2 s3 -> adds P s1 s3.
Proof.
  intros (l1 & H1 & F1) (l2 & H2 & F2). exists (l1 ++ l2).
  split; [rewrite H2, H1; symmetry; apply app_assoc|].
  apply Forall_app; auto.
Qed.

Lemma adds_event P b w t e b' w' e' ev :
  P ev -> @adds W P (mk_state b w t e) (mk_state b' w' (t ++ [ev]) e').
Proof. intros Hp. exists [ev]. split; [reflexivity | repeat constructor; auto]. Qed.

Lemma adds_silent P b w t e b' w' e' :
  @adds W P (mk_state b w t e) (mk_state b' w' t e').
Proof. exists []. split; [symmetry; apply app_nil_r | constructor]. Qed.

Lemma with_arena_with_arena b arenap a1 a2 :
  with_arena (with_arena b arenap a1) arenap a2 = with_arena b arenap a2.
Proof.
  unfold with_arena. destruct (arenas b) as [l|] eqn:Hl; cbn; [|now rewrite Hl].
  rewrite list_insert_insert_eq. reflexivity.
Qed.

Lemma with_rtt_with_rtt b arenap lane v v' v0 :
  rtt_of b arenap lane = Some v0 ->
  with_rtt (with_rtt b arenap lane v) arenap lane v'
  = with_rtt b arenap lane v'.
Proof.
  unfold rtt_of, with_rtt.
  destruct (arena_of b arenap) as [a|] eqn:Ha; [|discriminate].
  destruct (rtt a) as [r|] eqn:Hr; [|discriminate]. intros _.
  rewrite (arena_of_with_arena _ _ _ _ Ha). cbn [rtt set_rtt].
  rewrite with_arena_with_arena, list_insert_insert_eq. reflexivity.
Qed.

Lemma btt_read_loop_reader fuel :
  forall lane arenap map_entry_off entry buf (s s' : state W) r,
    btt_read_loop E fuel lane arenap map_entry_off entry buf s
      = Some (r, s') ->
    adds (is_nsread_of lane) s s' /\
    (bt s' = bt s \/ exists v, bt s' = with_rtt (bt s) arenap lane v).
Proof.
  induction fuel as [|fuel IH];
    intros lane arenap map_entry_off entry buf s s' r Hl; simpl in Hl;
    [discriminate|].
  destruct s as [b w t e]. cbn [bt].
  destruct (negb (Z.land entry BTT_MAP_ENTRY_ERROR =? 0)).
  { unfold bind, set_errno, ret in Hl. injection Hl as _ <-.
    split; [apply adds_silent | left; reflexivity]. }
  destruct (negb (Z.land entry BTT_MAP_ENTRY_ZERO =? 0)).
  { unfold zero_block, bind, get_bt, ret in Hl. injection Hl as _ <-.
    split; [apply adds_silent | left; reflexivity]. }
  unfold bind in Hl. rewrite put_rtt_eq in Hl. cbn [bt] in Hl.
  destruct (rtt_of b arenap lane) as [v0|] eqn:Hrtt; [|discriminate].
  assert (Hpub := rtt_of_with_rtt _ _ _ entry _ Hrtt).
  unfold with_bt in Hl. cbn [bt world trace errno] in Hl.
  destruct (nsread E w lane 4 map_entry_off) as [[r2 data] w2] eqn:Hrd.
  rewrite (call_nsread_eq _ _ _ _ _ _ _ _ _ _ Hrd) in Hl.
  destruct (r2 <? 0).
  { rewrite put_rtt_eq in Hl. cbn [bt] in Hl. rewrite Hpub in Hl.
    unfold ret, with_bt in Hl. injection Hl as _ <-.
    cbn [bt world trace errno].
    split; [apply adds_event; reflexivity|].
    right. eexists. eapply with_rtt_with_rtt; eauto. }
  destruct (entry =? le32toh (u32_at data 0)).
  - rewrite get_arena_eq in Hl. cbn [bt] in Hl.
    destruct (arena_of (with_rtt b arenap lane entry) arenap) as [a|];
      [|discriminate].
    unfold get_bt in Hl. cbn [bt world trace errno] in Hl.
    destruct (nsread E w2 lane (lbasize (with_rtt b arenap lane entry))
                (s64 (dataoff a + u32 (entry * internal_lbasize a))))
      as [[r3 data3] w3] eqn:Hrd3.
    rewrite (call_nsread_eq _ _ _ _ _ _ _ _ _ _ Hrd3) in Hl.
    rewrite put_rtt_eq in Hl. cbn [bt] in Hl. rewrite Hpub in Hl.
    unfold ret, with_bt in Hl. injection Hl as _ <-.
    cbn [bt world trace errno].
    split.
    + eexists [_; _]. cbn [trace]. rewrite <- app_assoc.
      split; [reflexivity | repeat constructor].
    + right. eexists. eapply with_rtt_with_rtt; eauto.
  - apply IH in Hl. cbn [bt] in Hl. destruct Hl as [Hadds Hbt].
    split.
    + eapply adds_trans; [apply adds_event with (ev := EvNsRead lane 4 map_entry_off r2 data); reflexivity | exact Hadds].
    + right. destruct Hbt as [-> | [v ->]]; eexists; [reflexivity|].
      eapply with_rtt_with_rtt; eauto.
Qed.

(** X9.  btt_read is a reader.  In every run that returns, whatever the
    result, the only calls made are nsread calls through the caller's
    lane: nothing is written, mapped or synced, no lock is taken and
    nothing is allocated.  Of the handle at most one cell changes: the
    rtt cell of the lane in the arena of the LBA. *)
Theorem btt_read_is_reader (st st' : state W) fuel lane lba buf rv :
  btt_read E fuel lane lba buf st = Some (rv, st') ->
  adds (is_nsread_of lane) st st' /\
  (bt st' = bt st \/
   exists arenap premap_lba v,
     lba_to_arena_lba lba st = Some ((0, arenap, premap_lba), st) /\
     bt st' = with_rtt (bt st) arenap lane v).
Proof.
  intros Hrun. destruct st as [b w t e]. cbn [bt] in *.
  unfold btt_read in Hrun.
  apply bind_inv in Hrun as (inv & s1 & Hinv & Hrun).
  rewrite invalid_lba_eq in Hinv. cbn [bt world trace] in Hinv.
  destruct (nlba b <=? lba); injection Hinv as <- <-.
  { apply ret_inv in Hrun. injection Hrun as _ ->.
    split; [apply adds_silent | left; reflexivity]. }
  change (negb (0 =? 0)) with false in Hrun. cbv iota in Hrun.
  apply bind_inv in Hrun as (b0 & s2 & Hb & Hrun).
  apply get_bt_inv in Hb. injection Hb as -> ->. cbn [bt] in Hrun.
  destruct (laidout b =? 0).
  { unfold zero_block, bind, get_bt, ret in Hrun. injection Hrun as _ <-.
    split; [apply adds_silent | left; reflexivity]. }
  apply bind_inv in Hrun as ([[r arenap] premap_lba] & s4 & Hlba & Hrun).
  destruct (lba_to_arena_lba_inv _ _ _ _ _ _ Hlba) as [-> ->].
  change (0 <? 0) with false in Hrun. cbv iota in Hrun.
  apply bind_inv in Hrun as (a & s5 & Ha & Hrun).
  apply get_arena_inv in Ha as [Ha ->]. cbn [bt] in Ha.
  apply bind_inv in Hrun as ([r1 data] & s6 & Hrd & Hrun).
  destruct (nsread E w lane 4
              (s64 (mapoff a + u32 (BTT_MAP_ENTRY_SIZE * premap_lba))))
    as [[r1' data'] w1] eqn:Hns.
  rewrite (call_nsread_eq _ _ _ _ _ _ _ _ _ _ Hns) in Hrd.
  injection Hrd as <- <- <-.
  destruct (r1' <? 0).
  { apply ret_inv in Hrun. injection Hrun as _ ->.
    split; [apply adds_event; reflexivity | left; reflexivity]. }
  apply btt_read_loop_reader in Hrun. cbn [bt] in Hrun.
  destruct Hrun as [Hadds Hbt]. split.
  - eapply adds_trans; [|exact Hadds].
    apply adds_event with
      (ev := EvNsRead lane 4
               (s64 (mapoff a + u32 (BTT_MAP_ENTRY_SIZE * premap_lba)))
               r1' data').
    reflexivity.
  - destruct Hbt as [-> | [v ->]]; [left; reflexivity|].
    right. exists arenap, premap_lba, v. split; [exact Hlba | reflexivity].
Qed.

(** ** Relations kept along a class of events *)

Section KeptSteps.

Variable P : event -> Prop.
Variable R : state W -> state W -> Prop.
Hypothesis HK : kept P R.

Lemma kept_call_nsread lane count off :
  (forall r data, P (EvNsRead lane count off r data)) ->
  respects R (call_nsread E lane count off).
Proof.
  intros Hp [b w t e] [r data] s'. unfold call_nsread.
  cbn [bt world trace errno].
  destruct (nsread E w lane count off) as [[r' data'] w'].
  intros [= <- <- <-]. apply (k_env P R HK). apply Hp.
Qed.

Lemma kept_call_nswrite lane buf count off :
  (forall r, P (EvNsWrite lane buf count off r)) ->
  respects R (call_nswrite E lane buf count off).
Proof.
  intros Hp [b w t e] r s'. unfold call_nswrite. cbn [bt world trace errno].
  destruct (nswrite E w lane buf count off) as [r' w'].
  intros [= <- <-]. apply (k_env P R HK). apply Hp.
Qed.

Lemma kept_call_nsmap lane len off :
  (forall r addr, P (EvNsMap lane len off r addr)) ->
  respects R (call_nsmap E lane len off).
Proof.
  intros Hp [b w t e] [r addr] s'. unfold call_nsmap.
  cbn [bt world trace errno].
  destruct (nsmap E w lane len off) as [[r' addr'] w'].
  intros [= <- <- <-]. apply (k_env P R HK). apply Hp.
Qed.

Lemma kept_call_nssync lane addr len :
  P (EvNsSync lane addr len) -> respects R (call_nssync E lane addr len).
Proof.
  intros Hp [b w t e] [] s'. unfold call_nssync. cbn [bt world trace errno].
  intros [= <-]. apply (k_env P R HK). apply Hp.
Qed.

Lemma kept_call_load32 addr :
  (forall v, P (EvLoad32 addr v)) -> respects R (call_load32 E addr).
Proof.
  intros Hp [b w t e] r s'. unfold call_load32. cbn [bt world trace errno].
  intros [= <- <-]. apply (k_env P R HK). apply Hp.
Qed.

Lemma kept_call_store32 addr v :
  P (EvStore32 addr v) -> respects R (call_store32 E addr v).
Proof.
  intros Hp [b w t e] [] s'. unfold call_store32. cbn [bt world trace errno].
  intros [= <-]. apply (k_env P R HK). apply Hp.
Qed.

Lemma kept_call_Malloc size :
  (forall ok, P (EvMalloc size ok)) -> respects R (call_Malloc E size).
Proof.
  intros Hp [b w t e] r s'. unfold call_Malloc. cbn [bt world trace errno].
  destruct (Malloc E w size) as [ok w'].
  intros [= <- <-]. apply (k_env P R HK). apply Hp.
Qed.

Lemma kept_log ev : P ev -> respects R (@log W ev).
Proof.
  intros Hp [b w t e] [] s'. unfold log. cbn [bt world trace errno].
  intros [= <-]. apply (k_env P R HK). apply Hp.
Qed.

Lemma kept_get_flog arenap i : respects R (@get_flog W arenap i).
Proof.
  intros s fr s'. rewrite get_flog_eq.
  destruct (flog_of (bt s) arenap i); [|discriminate].
  intros [= _ <-]. apply (k_refl P R HK).
Qed.

Hypothesis HB : kept_handle R.

Lemma kept_modify_bt f : respects R (@modify_bt W f).
Proof.
  intros [b w t e] [] s'. unfold modify_bt. cbn [bt world trace errno].
  intros [= <-]. apply (k_bt R HB).
Qed.

Lemma kept_put_bt b0 : respects R (@put_bt W b0).
Proof.
  intros [b w t e] [] s'. unfold put_bt. cbn [bt world trace errno].
  intros [= <-]. apply (k_bt R HB).
Qed.

Lemma kept_set_errno v : respects R (@set_errno W v).
Proof.
  intros [b w t e] [] s'. unfold set_errno. cbn [bt world trace errno].
  intros [= <-]. apply (k_errno R HB).
Qed.

Lemma kept_put_arena arenap a : respects R (@put_arena W arenap a).
Proof.
  intros [b w t e] [] s'. rewrite put_arena_eq. cbn [bt].
  destruct (arena_of b arenap); [|discriminate].
  unfold with_bt. cbn [bt world trace errno].
  intros [= <-]. apply (k_bt R HB).
Qed.

Lemma kept_put_flog arenap i fr : respects R (@put_flog W arenap i fr).
Proof.
  intros [b w t e] [] s'. rewrite put_flog_eq. cbn [bt].
  destruct (flog_of b arenap i); [|discriminate].
  unfold with_bt. cbn [bt world trace errno].
  intros [= <-]. apply (k_bt R HB).
Qed.

Lemma kept_put_rtt arenap lane v : respects R (@put_rtt W arenap lane v).
Proof.
  intros [b w t e] [] s'. rewrite put_rtt_eq. cbn [bt].
  destruct (rtt_of b arenap lane); [|discriminate].
  unfold with_bt. cbn [bt world trace errno].
  intros [= <-]. apply (k_bt R HB).
Qed.

End KeptSteps.

Ltac kept_prem :=
  intros; cbn;
  solve [ auto | exact I | reflexivity
        | match goal with
          | Hq : forall ev, quiet ev -> ?P ev |- ?P _ =>
              apply Hq; reflexivity
          end ].

Create HintDb kept.

Ltac kept_tac :=
  repeat first
    [ solve [eauto with kept]
    | match goal with
      | HK : kept _ ?R |- respects ?R (ret _) =>
          apply respects_ret; exact (k_refl _ _ HK)
      | |- respects _ undef => apply respects_undef
      | HK : kept _ ?R |- respects ?R (of_option _) =>
          apply respects_of_option; exact (k_refl _ _ HK)
      | HK : kept _ ?R |- respects ?R get_bt =>
          apply respects_get_bt; exact (k_refl _ _ HK)
      | HK : kept _ ?R |- respects ?R (get_arena _) =>
          apply respects_get_arena; exact (k_refl _ _ HK)
      | HK : kept _ ?R |- respects ?R (get_flog _ _) =>
          apply (kept_get_flog _ _ HK)
      | HK : kept _ ?R |- respects ?R (call_nsread _ _ _ _) =>
          apply (kept_call_nsread _ _ HK); kept_prem
      | HK : kept _ ?R |- respects ?R (call_nswrite _ _ _ _ _) =>
          apply (kept_call_nswrite _ _ HK); kept_prem
      | HK : kept _ ?R |- respects ?R (call_nsmap _ _ _ _) =>
          apply (kept_call_nsmap _ _ HK); kept_prem
      | HK : kept _ ?R |- respects ?R (call_nssync _ _ _ _) =>
          apply (kept_call_nssync _ _ HK); kept_prem
      | HK : kept _ ?R |- respects ?R (call_load32 _ _) =>
          apply (kept_call_load32 _ _ HK); kept_prem
      | HK : kept _ ?R |- respects ?R (call_store32 _ _ _) =>
          apply (kept_call_store32 _ _ HK); kept_prem
      | HK : kept _ ?R |- respects ?R (call_Malloc _ _) =>
          apply (kept_call_Malloc _ _ HK); kept_prem
      | HK : kept _ ?R |- respects ?R (log _) =>
          apply (kept_log _ _ HK); kept_prem
      | HB : kept_handle ?R |- respects ?R (modify_bt _) =>
          apply (kept_modify_bt _ HB)
      | HB : kept_handle ?R |- respects ?R (put_bt _) =>
          apply (kept_put_bt _ HB)
      | HB : kept_handle ?R |- respects ?R (set_errno _) =>
          apply (kept_set_errno _ HB)
      | HB : kept_handle ?R |- respects ?R (put_arena _ _) =>
          apply (kept_put_arena _ HB)
      | HB : kept_handle ?R |- respects ?R (put_flog _ _ _) =>
          apply (kept_put_flog _ HB)
      | HB : kept_handle ?R |- respects ?R (put_rtt _ _ _) =>
          apply (kept_put_rtt _ HB)
      | HK : kept _ ?R |- respects ?R (bind _ _) =>
          apply respects_bind; [exact (k_trans _ _ HK) | | intros ?]
      | |- respects _ (match ?x with _ => _ end) => destruct x
      end
    | progress cbv zeta ].

Lemma adds_kept P : kept P (@adds W P).
Proof.
  split.
  - apply adds_refl.
  - apply adds_trans.
  - intros b w t e w' ev Hp. apply adds_event. exact Hp.
Qed.

Lemma adds_kept_handle P : kept_handle (@adds W P).
Proof. split; intros; apply adds_silent. Qed.

(** ** Beyond the claims: what opening a namespace does to it *)

Section Opening.

Variable P : event -> Prop.
Variable R : state W -> state W -> Prop.
Hypothesis HK : kept P R.
Hypothesis HB : kept_handle R.
Hypothesis P_read : forall lane count off r data,
    P (EvNsRead lane count off r data).
Hypothesis P_write4 : forall lane buf off r, P (EvNsWrite lane buf 4 off r).
Hypothesis P_malloc : forall size ok, P (EvMalloc size ok).
Hypothesis P_free : P EvFree.

Lemma opening_read_flog_pair lane arenap flog_off i flognum :
  respects R (read_flog_pair H E lane arenap flog_off i flognum).
Proof. unfold read_flog_pair. kept_tac. Qed.

Hint Resolve opening_read_flog_pair : kept.

Lemma opening_read_flogs_loop n lane arenap flog_off i :
  respects R (read_flogs_loop H E n lane arenap flog_off i).
Proof.
  revert flog_off i. induction n as [|n IH]; intros flog_off i; simpl;
    kept_tac.
Qed.

Hint Resolve opening_read_flogs_loop : kept.

Lemma opening_read_arena lane arena_off arenap :
  respects R (read_arena H E lane arena_off arenap).
Proof.
  unfold read_arena, read_flogs, build_rtt, build_map_locks. kept_tac.
Qed.

Hint Resolve opening_read_arena : kept.

Lemma opening_read_arenas_loop n lane arena_off arenap :
  respects R (read_arenas_loop H E n lane arena_off arenap).
Proof.
  revert arena_off arenap.
  induction n as [|n IH]; intros arena_off arenap; simpl; kept_tac.
Qed.

Lemma opening_free_arenas_loop guard n i :
  respects R (@free_arenas_loop W guard n i).
Proof.
  revert i. induction n as [|n IH]; intros i; simpl; kept_tac.
Qed.

Hint Resolve opening_read_arenas_loop opening_free_arenas_loop : kept.

Lemma opening_read_arenas lane narena :
  respects R (read_arenas H E lane narena).
Proof. unfold read_arenas, read_arenas_err. kept_tac. Qed.

Lemma opening_write_layout_loop fuel lane flog_size internal_lbasize
    rawsize total_nlba arena_off :
  respects R
    (write_layout_loop H E fuel lane 0 flog_size internal_lbasize
       rawsize total_nlba arena_off).
Proof.
  revert rawsize total_nlba arena_off.
  induction fuel as [|fuel IH]; intros; simpl;
    unfold write_layout_arena; change (0 =? 0) with true; cbv iota;
    kept_tac.
Qed.

Hint Resolve opening_read_arenas opening_write_layout_loop : kept.

Lemma opening_write_layout lane : respects R (write_layout H E lane 0).
Proof.
  unfold write_layout. change (negb (0 =? 0)) with false. cbv iota.
  kept_tac.
Qed.

Hint Resolve opening_write_layout : kept.

Lemma opening_read_layout_loop fuel lane narena smallest_nfree rawsize
    total_nlba arena_off :
  respects R
    (read_layout_loop H E fuel lane narena smallest_nfree rawsize total_nlba
       arena_off).
Proof.
  revert narena smallest_nfree rawsize total_nlba arena_off.
  induction fuel as [|fuel IH]; intros; simpl; kept_tac.
Qed.

Hint Resolve opening_read_layout_loop : kept.

Lemma opening_btt_init fuel rawsize lbasize parent_uuid maxlane :
  respects R (btt_init H E fuel rawsize lbasize parent_uuid maxlane).
Proof.
  unfold btt_init, read_layout, btt_fini. kept_tac.
Qed.

End Opening.

(** X10.  The calls of btt_init.  In every run of btt_init that returns,
    with or without a handle, every call made is an allocation, a free, a
    namespace read, or a namespace write of four bytes: nothing is mapped
    or synced, nothing is loaded or stored through a mapping, no lock is
    taken, and no write of another size (a block, a flog entry, an info
    block) is made.  The writes of four bytes are those with which
    read_flog_pair completes a map update.  Nothing is said of where they
    land: their offset, mapoff + 4 * lba for the lba of the flog entry, is
    not checked against the map. *)
Theorem btt_init_opens (st st' : state W) fuel rawsize lbasize parent_uuid
    maxlane res :
  btt_init H E fuel rawsize lbasize parent_uuid maxlane st
  = Some (res, st') ->
  adds opens st st'.
Proof.
  apply (opening_btt_init opens (adds opens) (adds_kept _)
           (adds_kept_handle _)); intros; cbn; auto.
Qed.

(** ** Beyond the claims: write_layout without writing *)

Lemma write_layout_loop_dry fuel lane flog_size internal_lbasize rawsize
    total_nlba arena_off (s s' : state W) r t :
  write_layout_loop H E fuel lane 0 flog_size internal_lbasize rawsize
    total_nlba arena_off s = Some ((r, t), s') ->
  r = 0 /\ s' = s.
Proof.
  revert rawsize total_nlba arena_off.
  induction fuel as [|fuel IH]; intros rawsize total_nlba arena_off; simpl;
    destruct (rawsize <? BTT_MIN_SIZE H).
  - intros Hr. apply ret_inv in Hr. injection Hr as -> _ ->. auto.
  - discriminate.
  - intros Hr. apply ret_inv in Hr. injection Hr as -> _ ->. auto.
  - intros Hr. apply bind_inv in Hr as (x & s1 & Ha & Hr).
    unfold write_layout_arena in Ha.
    apply bind_inv in Ha as (b & s2 & Hb & Ha).
    apply get_bt_inv in Hb. injection Hb as -> ->.
    apply bind_inv in Ha as (n & s3 & Ho & Ha).
    destruct (udiv _ _); [|discriminate Ho].
    apply ret_inv in Ho. injection Ho as -> ->.
    change (0 =? 0) with true in Ha. cbv beta iota zeta in Ha.
    apply ret_inv in Ha. injection Ha as -> ->. cbv beta iota zeta in Hr.
    change (0 <? 0) with false in Hr. cbv iota in Hr.
    exact (IH _ _ _ Hr).
Qed.

(** X17.  write_layout without writing.  A call of write_layout with
    write = 0 that returns has returned 0 and has made no call at all: the
    namespace, the trace and errno are as before, and of the handle only
    narena and nlba are set. *)
Theorem write_layout_dry_run (st st' : state W) lane rv :
  write_layout H E lane 0 st = Some (rv, st') ->
  rv = 0 /\ world st' = world st /\ trace st' = trace st /\
  errno st' = errno st /\
  exists n t, bt st' = set_nlba t (set_narena n (bt st)).
Proof.
  unfold write_layout. intros Hr.
  apply bind_inv in Hr as (b & s1 & Hb & Hr).
  apply get_bt_inv in Hb. injection Hb as -> ->.
  apply bind_inv in Hr as (q & s1 & Hq & Hr).
  destruct (udiv _ _); [|discriminate Hq].
  apply ret_inv in Hq. injection Hq as -> ->.
  apply bind_inv in Hr as (m & s1 & Hm & Hr).
  destruct (umod _ _); [|discriminate Hm].
  apply ret_inv in Hm. injection Hm as -> ->.
  apply bind_inv in Hr as (u & s1 & Hn & Hr).
  apply modify_bt_inv in Hn. subst s1.
  apply bind_inv in Hr as (pair & s1 & Hp & Hr).
  destruct (roundup _ _); [|discriminate Hp].
  apply ret_inv in Hp. injection Hp as -> ->.
  apply bind_inv in Hr as (fs & s1 & Hf & Hr).
  destruct (roundup _ _); [|discriminate Hf].
  apply ret_inv in Hf. injection Hf as -> ->.
  apply bind_inv in Hr as (il & s1 & Hi & Hr).
  destruct (roundup _ _); [|discriminate Hi].
  apply ret_inv in Hi. injection Hi as -> ->.
  apply bind_inv in Hr as ([r t] & s1 & Hl & Hr).
  apply write_layout_loop_dry in Hl as [-> ->].
  change (0 <? 0) with false in Hr. cbv iota in Hr.
  apply bind_inv in Hr as (u' & s1 & Hn & Hr).
  apply modify_bt_inv in Hn. subst s1.
  change (negb (0 =? 0)) with false in Hr. cbv iota in Hr.
  apply ret_inv in Hr. injection Hr as -> ->.
  cbn. repeat split. eauto.
Qed.

(** ** Beyond the claims: the locks *)

Section Layout.

Variable P : event -> Prop.
Variable R : state W -> state W -> Prop.
Hypothesis HK : kept P R.
Hypothesis HB : kept_handle R.
Hypothesis P_quiet : forall ev, quiet ev -> P ev.

Lemma layout_write_map_loop n lane external_nlba map_entry_off
    i mapp mlen next_index remaining :
  respects R
    (write_map_loop E n lane external_nlba map_entry_off
       i mapp mlen next_index remaining).
Proof.
  revert i mapp mlen next_index remaining.
  induction n as [|n IH]; intros; simpl; kept_tac.
Qed.

Lemma layout_write_flog_loop n lane flog_entry_off next_free_lba :
  respects R (write_flog_loop H E n lane flog_entry_off next_free_lba).
Proof.
  revert flog_entry_off next_free_lba.
  induction n as [|n IH]; intros; simpl; kept_tac.
Qed.

Hint Resolve layout_write_map_loop layout_write_flog_loop : kept.

Lemma layout_write_layout_loop fuel lane write flog_size internal_lbasize
    rawsize total_nlba arena_off :
  respects R
    (write_layout_loop H E fuel lane write flog_size internal_lbasize
       rawsize total_nlba arena_off).
Proof.
  revert rawsize total_nlba arena_off.
  induction fuel as [|fuel IH]; intros; simpl; unfold write_layout_arena;
    kept_tac.
Qed.

Hint Resolve layout_write_layout_loop : kept.

Lemma layout_write_layout lane write :
  respects R (write_layout H E lane write).
Proof.
  assert (Hra : forall narena, respects R (read_arenas H E lane narena)).
  { intros narena. apply (opening_read_arenas P R HK HB);
      intros; apply P_quiet; reflexivity. }
  unfold write_layout. kept_tac.
Qed.

Lemma layout_flog_update lane arenap lba old_map new_map :
  respects R (flog_update E lane arenap lba old_map new_map).
Proof. unfold flog_update. kept_tac. Qed.

End Layout.

Lemma lock_id_eqb_refl l : lock_id_eqb l l = true.
Proof.
  destruct l as [|a n]; [reflexivity|]. cbn [lock_id_eqb].
  rewrite Nat.eqb_refl, Z.eqb_refl. reflexivity.
Qed.

Lemma locks_after_app evs1 :
  forall held evs2,
    locks_after held (evs1 ++ evs2) =
    match locks_after held evs1 with
    | Some held1 => locks_after held1 evs2
    | None => None
    end.
Proof.
  induction evs1 as [|ev evs1 IH]; intros held evs2; [reflexivity|].
  cbn [app locks_after].
  destruct (lock_op ev) as [[[] l]|]; [| |apply IH];
    destruct (existsb (lock_id_eqb l) held); auto.
Qed.

Lemma locks_after_quiet held evs :
  Forall quiet evs -> locks_after held evs = Some held.
Proof.
  induction 1 as [|ev evs Hq _ IH]; [reflexivity|].
  cbn [locks_after]. rewrite Hq. exact IH.
Qed.

Lemma locks_after_one l pre mid post ev_lock ev_unlock :
  lock_op ev_lock = Some (true, l) ->
  lock_op ev_unlock = Some (false, l) ->
  Forall quiet pre -> Forall quiet mid -> Forall quiet post ->
  locks_after [] (pre ++ ev_lock :: mid ++ ev_unlock :: post) = Some [].
Proof.
  intros Hl Hu Hpre Hmid Hpost.
  rewrite locks_after_app, (locks_after_quiet _ _ Hpre).
  cbn [locks_after]. rewrite Hl. cbn [existsb].
  rewrite locks_after_app, (locks_after_quiet _ _ Hmid).
  cbn [locks_after]. rewrite Hu. cbn [existsb List.filter].
  rewrite lock_id_eqb_refl. cbn [orb negb].
  apply locks_after_quiet. exact Hpost.
Qed.

Lemma locks_step_trans h1 h2 h3 (s1 s2 s3 : state W) :
  locks_step h1 h2 s1 s2 -> locks_step h2 h3 s2 s3 -> locks_step h1 h3 s1 s3.
Proof.
  intros (l1 & H1 & F1) (l2 & H2 & F2). exists (l1 ++ l2).
  split; [rewrite H2, H1; symmetry; apply app_assoc|].
  rewrite locks_after_app, F1. exact F2.
Qed.

Lemma locks_step_quiet h (s s' : state W) :
  adds quiet s s' -> locks_step h h s s'.
Proof.
  intros (evs & Ht & Hq). exists evs. split; [exact Ht|].
  apply locks_after_quiet. exact Hq.
Qed.

Lemma locks_step_silent h b w t e b' w' e' :
  @locks_step W h h (mk_state b w t e) (mk_state b' w' t e').
Proof. apply locks_step_quiet, adds_silent. Qed.

Lemma first_write_layout_locks lane (s s' : state W) err :
  first_write_layout H E lane s = Some (err, s') -> locks_step [] [] s s'.
Proof.
  unfold first_write_layout. intros Hrun.
  apply bind_inv in Hrun as ([] & s1 & Hlock & Hrun).
  apply bind_inv in Hrun as (b & s2 & Hb & Hrun).
  apply get_bt_inv in Hb. injection Hb as -> ->.
  apply bind_inv in Hrun as (err' & s3 & Hw & Hrun).
  apply bind_inv in Hrun as ([] & s4 & Hunlock & Hrun).
  apply ret_inv in Hrun. injection Hrun as _ ->.
  assert (Hq : adds quiet s1 s3).
  { destruct (laidout (bt s1) =? 0).
    - eapply (layout_write_layout quiet (adds quiet) (adds_kept _)
                (adds_kept_handle _)); [intros ev Hev; exact Hev | exact Hw].
    - apply ret_inv in Hw. injection Hw as _ ->. apply adds_refl. }
  destruct Hq as (evs & Ht & Hq).
  unfold log in Hlock, Hunlock.
  injection Hlock as <-. injection Hunlock as <-.
  cbn [trace] in *.
  exists (EvMutexLock :: evs ++ [EvMutexUnlock]). split.
  - rewrite Ht, <- !app_assoc. reflexivity.
  - apply (locks_after_one Mutex [] evs []); auto; constructor.
Qed.

Lemma map_entry_setf_laidout_locks lane lba setf (s s' : state W) rv :
  map_entry_setf_laidout H E lane lba setf s = Some (rv, s') ->
  locks_step [] [] s s'.
Proof.
  intros Hs. unfold map_entry_setf_laidout in Hs.
  apply bind_inv in Hs as ([[r arenap] premap_lba] & s1 & Hl & Hs).
  destruct (lba_to_arena_lba_inv _ _ _ _ _ _ Hl) as [-> ->].
  change (0 <? 0) with false in Hs. cbv iota in Hs.
  apply bind_inv in Hs as (a & s2 & Ha & Hs).
  apply get_arena_inv in Ha as [Ha ->].
  destruct s as [b w t e]. cbn [bt world trace] in *.
  destruct (negb (Z.land (flags a) (BTTINFO_FLAG_ERROR_MASK H) =? 0)).
  { unfold bind, set_errno, ret in Hs. injection Hs as _ <-.
    apply locks_step_silent. }
  apply bind_inv in Hs as ([r1 old] & s3 & Hlock & Hs).
  apply map_lock_inv in Hlock
    as (a' & n & r0 & data & w1 & Ha' & Hn & Hrd & -> & Hcase).
  cbv zeta in Hcase.
  destruct Hcase as [(Hr0 & -> & ->) | (Hr0 & -> & ->)].
  { apply ret_inv in Hs. injection Hs as _ ->.
    eexists. split; [reflexivity|].
    apply (locks_after_one (Spin arenap n) [] [_] []);
      auto; repeat constructor. }
  change (0 <? 0) with false in Hs. cbv iota in Hs.
  destruct ((setf =? BTT_MAP_ENTRY_ZERO)
            && negb (Z.land (le32toh (u32_at data 0)) BTT_MAP_ENTRY_ZERO =? 0)).
  - apply bind_inv in Hs as ([] & s4 & Hab & Hs).
    apply map_abort_inv in Hab as (n' & Hn' & ->).
    rewrite Hn in Hn'. injection Hn' as <-.
    apply ret_inv in Hs. injection Hs as _ ->.
    eexists. split; [cbn [trace]; rewrite <- app_assoc; reflexivity|].
    apply (locks_after_one (Spin arenap n) [] [_] []);
      auto; repeat constructor.
  - apply bind_inv in Hs as (r2 & s4 & Hun & Hs).
    apply map_unlock_inv in Hun as (a2 & n' & w2 & _ & Hn' & _ & ->).
    rewrite Hn in Hn'. injection Hn' as <-.
    assert (s' = mk_state b w2
                   ((t ++ [EvSpinLock arenap n;
                           EvNsRead lane 4 (map_entry_off_of a' premap_lba)
                             r0 data]) ++
                    [EvNsWrite lane
                       (bytes_of_u32
                          (htole32 (Z.lor (le32toh (u32_at data 0)) setf)))
                       4 (map_entry_off_of a2 premap_lba) r2;
                     EvSpinUnlock arenap n]) e) as ->.
    { destruct (r2 <? 0); apply ret_inv in Hs; congruence. }
    eexists. split; [cbn [trace]; rewrite <- app_assoc; reflexivity|].
    apply (locks_after_one (Spin arenap n) [] [_; _] []);
      auto; repeat constructor.
Qed.

(** X11.  The lock discipline of the writers.  In every run of btt_write,
    btt_set_zero or btt_set_error that returns, whatever the result, the
    thread releases every lock it took: the layout mutex also when the
    layout write failed, the map lock also when the read of the map entry,
    the flog update or the write of the map entry failed.  It never takes
    a lock it holds and never releases one it does not hold. *)
Theorem writers_release_locks (st st' : state W) lane lba buf rv :
  btt_write H E lane lba buf st = Some (rv, st') \/
  btt_set_zero H E lane lba st = Some (rv, st') \/
  btt_set_error H E lane lba st = Some (rv, st') ->
  locks_step [] [] st st'.
Proof.
  assert (Hfirst : forall (s s2 : state W) err,
    (if laidout (bt s) =? 0 then first_write_layout H E lane else ret 0) s
    = Some (err, s2) -> locks_step [] [] s s2).
  { intros s s2 err Hw. destruct (laidout (bt s) =? 0).
    - eapply first_write_layout_locks; eauto.
    - apply ret_inv in Hw. injection Hw as _ ->.
      apply locks_step_quiet, adds_refl. }
  assert (Hsetf : forall setf,
    map_entry_setf H E lane lba setf st = Some (rv, st') ->
    locks_step [] [] st st').
  { intros setf Hrun. unfold map_entry_setf in Hrun.
    apply bind_inv in Hrun as (inv & s1 & Hinv & Hrun).
    rewrite invalid_lba_eq in Hinv.
    destruct st as [b w t e]. cbn [bt world trace errno] in *.
    destruct (nlba b <=? lba); injection Hinv as <- <-.
    { apply ret_inv in Hrun. injection Hrun as _ ->.
      apply locks_step_silent. }
    change (negb (0 =? 0)) with false in Hrun. cbv iota in Hrun.
    apply bind_inv in Hrun as (b0 & s2 & Hb & Hrun).
    apply get_bt_inv in Hb. injection Hb as -> ->. cbn [bt] in Hrun.
    destruct ((laidout b =? 0) && (setf =? BTT_MAP_ENTRY_ZERO)).
    { apply ret_inv in Hrun. injection Hrun as _ ->.
      apply locks_step_silent. }
    apply bind_inv in Hrun as (err & s3 & Hw & Hrun).
    apply (Hfirst (mk_state b w t e)) in Hw.
    eapply locks_step_trans; [exact Hw|].
    destruct (err <? 0).
    { apply ret_inv in Hrun. injection Hrun as _ ->.
      apply locks_step_quiet, adds_refl. }
    eapply map_entry_setf_laidout_locks; eauto. }
  intros [Hrun | [Hrun | Hrun]]; [|eapply Hsetf; exact Hrun ..].
  clear Hsetf. unfold btt_write in Hrun.
  apply bind_inv in Hrun as (inv & s1 & Hinv & Hrun).
  rewrite invalid_lba_eq in Hinv.
  destruct st as [b w t e]. cbn [bt world trace errno] in *.
  destruct (nlba b <=? lba); injection Hinv as <- <-.
  { apply ret_inv in Hrun. injection Hrun as _ ->. apply locks_step_silent. }
  change (negb (0 =? 0)) with false in Hrun. cbv iota in Hrun.
  apply bind_inv in Hrun as (b0 & s2 & Hb & Hrun).
  apply get_bt_inv in Hb. injection Hb as -> ->. cbn [bt] in Hrun.
  apply bind_inv in Hrun as (err & s3 & Hw & Hrun).
  apply (Hfirst (mk_state b w t e)) in Hw.
  eapply locks_step_trans; [exact Hw|]. clear Hw Hfirst b w t e.
  destruct (err <? 0).
  { apply ret_inv in Hrun. injection Hrun as _ ->.
    apply locks_step_quiet, adds_refl. }
  apply bind_inv in Hrun as ([[r arenap] premap_lba] & s4 & Hlba & Hrun).
  destruct (lba_to_arena_lba_inv _ _ _ _ _ _ Hlba) as [-> ->].
  change (0 <? 0) with false in Hrun. cbv iota in Hrun.
  apply bind_inv in Hrun as (a & s5 & Ha & Hrun).
  apply get_arena_inv in Ha as [Ha ->].
  destruct s3 as [b w t e]. cbn [bt] in *.
  destruct (negb (Z.land (flags a) (BTTINFO_FLAG_ERROR_MASK H) =? 0)).
  { unfold bind, set_errno, ret in Hrun. injection Hrun as _ <-.
    apply locks_step_silent. }
  apply bind_inv in Hrun as (fr & s6 & Hfr & Hrun).
  rewrite get_flog_eq in Hfr. cbn [bt] in Hfr.
  destruct (flog_of b arenap lane) as [fr0|] eqn:Hfl; [|discriminate].
  injection Hfr as -> <-.
  apply bind_inv in Hrun as (b1 & s7 & Hb & Hrun).
  apply get_bt_inv in Hb. injection Hb as -> ->. cbn [bt] in Hrun.
  apply bind_inv in Hrun as (u & s8 & Hwait & Hrun).
  apply rtt_wait_inv in Hwait. subst s8.
  apply bind_inv in Hrun as (r1 & s9 & Hw1 & Hrun).
  unfold call_nswrite in Hw1. cbn [bt world trace errno] in Hw1.
  destruct (nswrite E w lane buf _ _) as [r1' w1].
  injection Hw1 as <- <-.
  destruct (r1' <? 0).
  { apply ret_inv in Hrun. injection Hrun as _ ->.
    eexists. split; [reflexivity|].
    apply locks_after_quiet. repeat constructor. }
  apply bind_inv in Hrun as ([r2 old] & s10 & Hml & Hrun).
  apply map_lock_inv in Hml
    as (a' & n & r0 & data & w2 & Ha' & Hn & Hrd & -> & Hcase).
  cbv zeta in Hcase.
  destruct Hcase as [(Hr0 & -> & ->) | (Hr0 & -> & ->)].
  { apply ret_inv in Hrun. injection Hrun as _ ->.
    eexists. split; [cbn [trace]; rewrite <- app_assoc; reflexivity|].
    apply (locks_after_one (Spin arenap n) [_] [_] []);
      auto; repeat constructor. }
  change (0 <? 0) with false in Hrun. cbv iota in Hrun.
  apply bind_inv in Hrun as (r3 & s11 & Hfu & Hrun).
  assert (Hnum : lock_num_of (bt s11) arenap premap_lba = Some n).
  { apply flog_update_bt in Hfu. cbn [bt] in Hfu.
    destruct Hfu as [-> | (f0 & f1 & _ & ->)]; [exact Hn|].
    rewrite lock_num_of_with_flog. exact Hn. }
  assert (Hq : adds quiet
                 (mk_state b w2
                    ((t ++ [EvNsWrite lane buf (lbasize b)
                              (s64 (dataoff a +
                                    u32 (Z.land (flog_old_map (flog fr))
                                           BTT_MAP_ENTRY_LBA_MASK *
                                         internal_lbasize a))) r1']) ++
                     [EvSpinLock arenap n;
                      EvNsRead lane 4 (map_entry_off_of a' premap_lba) r0
                        data]) e) s11).
  { eapply (layout_flog_update quiet (adds quiet) (adds_kept _)
              (adds_kept_handle _)); [intros ev Hev; exact Hev | exact Hfu]. }
  destruct Hq as (evs & Ht & Hq). cbn [trace] in Ht.
  destruct s11 as [b11 w11 t11 e11]. cbn [bt trace] in *. subst t11.
  destruct (r3 <? 0).
  - apply bind_inv in Hrun as ([] & s12 & Hab & Hrun).
    apply map_abort_inv in Hab as (n' & Hn' & ->).
    rewrite Hnum in Hn'. injection Hn' as <-.
    apply ret_inv in Hrun. injection Hrun as _ ->.
    eexists. split; [cbn [trace]; rewrite <- !app_assoc; reflexivity|].
    apply (locks_after_one (Spin arenap n) [_] (_ :: evs) []);
      auto; repeat constructor; auto.
  - apply bind_inv in Hrun as (r5 & s12 & Hun & Hrun).
    apply map_unlock_inv in Hun as (a2 & n' & w5 & _ & Hn' & _ & ->).
    rewrite Hnum in Hn'. injection Hn' as <-.
    match type of Hrun with
    | _ ?s = _ => assert (st' = s) as ->
                    by (destruct (r5 <? 0); apply ret_inv in Hrun; congruence)
    end.
    eexists. split; [cbn [trace]; rewrite <- !app_assoc; reflexivity|].
    cbn [app].
    match goal with
    | |- context [evs ++ [?x; ?y]] =>
        replace (evs ++ [x; y]) with ((evs ++ [x]) ++ [y])
          by (rewrite <- app_assoc; reflexivity)
    end.
    apply (locks_after_one (Spin arenap n) [_] (_ :: evs ++ [_]) []);
      auto; repeat constructor; auto.
    apply Forall_app. split; [exact Hq | repeat constructor].
Qed.

(** ** Beyond the claims: the consistency check only looks *)

Lemma observes_kept P : kept P (@observes W P).
Proof.
  split.
  - intros s. split; [apply adds_refl | auto].
  - intros s1 s2 s3 (Ha & Hb & He) (Ha' & Hb' & He').
    split; [eapply adds_trans; eauto | split; congruence].
  - intros b w t e w' ev Hp. split; [apply adds_event; exact Hp | auto].
Qed.

Section Checking.

Variable P : event -> Prop.
Variable R : state W -> state W -> Prop.
Hypothesis HK : kept P R.
Hypothesis P_checks : forall ev, checks ev -> P ev.

Ltac checks_prem := intros; apply P_checks; exact I.

Lemma checking_check_map_loop n external_nlba i mapp next_index remaining
    map_entry_off bitmap consistent :
  respects R
    (check_map_loop E n external_nlba i mapp next_index remaining
       map_entry_off bitmap consistent).
Proof.
  revert i mapp next_index remaining map_entry_off bitmap consistent.
  induction n as [|n IH]; intros; simpl.
  - kept_tac.
  - repeat first
      [ apply (kept_call_load32 _ _ HK); checks_prem
      | apply (kept_call_nsmap _ _ HK); checks_prem
      | progress kept_tac ].
Qed.

Lemma checking_check_flog_loop n arenap i bitmap consistent :
  respects R (@check_flog_loop W n arenap i bitmap consistent).
Proof.
  revert i bitmap consistent.
  induction n as [|n IH]; intros; simpl; kept_tac.
Qed.

Lemma checking_check_arena arenap : respects R (check_arena E arenap).
Proof.
  unfold check_arena.
  repeat first
    [ apply checking_check_map_loop
    | apply checking_check_flog_loop
    | apply (kept_call_Malloc _ _ HK); checks_prem
    | apply (kept_log _ _ HK); checks_prem
    | progress kept_tac ].
Qed.

Lemma checking_btt_check_loop n arenap consistent :
  respects R (btt_check_loop E n arenap consistent).
Proof.
  revert consistent. induction n as [|n IH]; intros; simpl.
  - kept_tac.
  - apply respects_bind; [exact (k_trans _ _ HK) | | intros ?].
    + apply checking_check_arena.
    + kept_tac.
Qed.

Lemma checking_btt_check : respects R (btt_check E).
Proof.
  unfold btt_check.
  apply respects_bind; [exact (k_trans _ _ HK) | | intros ?].
  - kept_tac.
  - destruct (laidout a =? 0); [kept_tac | apply checking_btt_check_loop].
Qed.

End Checking.

(** X12.  btt_check only looks.  In every run that returns, whatever the
    verdict, the handle and errno are as before, and the calls made are
    the allocation and the release of the bitmap, mappings of the map
    area and loads from them: nothing is read or written through nsread
    and nswrite, nothing is stored or synced, no lock is taken. *)
Theorem btt_check_only_looks (st st' : state W) rv :
  btt_check E st = Some (rv, st') ->
  adds checks st st' /\ bt st' = bt st /\ errno st' = errno st.
Proof.
  apply (checking_btt_check checks (observes checks) (observes_kept _)).
  intros ev Hev. exact Hev.
Qed.

(** ** Beyond the claims: the verdict of check_arena *)

Lemma land_bit x k :
  0 <= k -> (Z.land x (Z.shiftl 1 k) =? 0) = negb (Z.testbit x k).
Proof.
  intros Hk. rewrite Z.shiftl_1_l.
  destruct (Z.testbit x k) eqn:Hb; cbn [negb].
  - apply Z.eqb_neq. intros H0.
    assert (Hc : Z.testbit (Z.land x (2 ^ k)) k = true)
      by (rewrite Z.land_spec, Hb, Z.pow2_bits_true by exact Hk; reflexivity).
    rewrite H0, Z.bits_0 in Hc. discriminate.
  - apply Z.eqb_eq. apply Z.bits_inj'. intros n Hn.
    rewrite Z.land_spec, Z.bits_0, Z.pow2_bits_eqb by exact Hk.
    destruct (Z.eqb_spec k n) as [<- | Hne]; [rewrite Hb|];
      auto using andb_false_r.
Qed.

Lemma isset_testbit bitmap i :
  isset bitmap i =
  match index bitmap (i / 8) with
  | Some byte => Some (Z.testbit byte (i mod 8))
  | None => None
  end.
Proof.
  unfold isset. destruct (index bitmap (i / 8)) as [byte|]; [|reflexivity].
  rewrite land_bit by (apply Z.mod_pos_bound; lia).
  rewrite negb_involutive. reflexivity.
Qed.

Lemma isset_setbit bitmap bitmap' i j :
  setbit bitmap i = Some bitmap' ->
  isset bitmap' j = if j =? i then Some true else isset bitmap j.
Proof.
  unfold setbit, store. rewrite !isset_testbit.
  destruct (index bitmap (i / 8)) as [byte|] eqn:Hi; [|discriminate].
  intros [= <-].
  destruct (Z.eq_dec (j / 8) (i / 8)) as [Hq | Hq].
  - rewrite Hq, (index_insert _ _ _ _ Hi), Hi.
    rewrite Z.lor_spec, Z.shiftl_1_l,
      Z.pow2_bits_eqb by (apply Z.mod_pos_bound; lia).
    destruct (Z.eqb_spec j i) as [-> | Hne].
    + rewrite Z.eqb_refl, orb_true_r. reflexivity.
    + destruct (Z.eqb_spec (i mod 8) (j mod 8)) as [Hm | Hm].
      * exfalso. apply Hne.
        rewrite (Z.div_mod j 8), (Z.div_mod i 8) by lia. congruence.
      * rewrite orb_false_r. reflexivity.
  - rewrite (index_insert_ne _ _ _ _ _ Hi Hq).
    destruct (Z.eqb_spec j i) as [-> | Hne]; [contradiction | reflexivity].
Qed.

Lemma isset_zeros k j : isset (replicate k 0) j <> Some true.
Proof.
  rewrite isset_testbit. unfold index.
  destruct (j / 8 <? 0); [discriminate|].
  destruct (replicate k 0 !! Z.to_nat (j / 8)) as [byte|] eqn:Hb;
    [|discriminate].
  apply lookup_replicate in Hb as [-> _]. rewrite Z.bits_0. discriminate.
Qed.

Lemma mark_list_app l1 :
  forall bitmap c l2,
    mark_list bitmap c (l1 ++ l2) =
    match mark_list bitmap c l1 with
    | Some (bitmap1, c1) => mark_list bitmap1 c1 l2
    | None => None
    end.
Proof.
  induction l1 as [|e l1 IH]; intros bitmap c l2; [reflexivity|].
  cbn [app mark_list].
  destruct (mark bitmap e c) as [[b1 c1]|]; [apply IH | reflexivity].
Qed.

Lemma mark_list_zero l :
  forall bitmap bitmap' c', mark_list bitmap 0 l = Some (bitmap', c') -> c' = 0.
Proof.
  induction l as [|e l IH]; intros bitmap bitmap' c'; cbn [mark_list].
  - congruence.
  - unfold mark. destruct (isset bitmap e) as [[]|]; [| |discriminate].
    + apply IH.
    + destruct (setbit bitmap e); [apply IH | discriminate].
Qed.

(** The bitmap holds the set of the LBAs seen; the verdict stays 1 as long
    as no LBA comes twice. *)
Lemma mark_list_spec l :
  forall bitmap c seen bitmap' c',
    mark_list bitmap c l = Some (bitmap', c') ->
    (forall j, isset bitmap j = Some true <-> j ∈ seen) ->
    c = 1 \/ c = 0 ->
    (forall j, isset bitmap' j = Some true <-> j ∈ seen ++ l) /\
    (c' = 1 \/ c' = 0) /\
    (c' = 1 <-> c = 1 /\ NoDup l /\ forall x, x ∈ l -> x ∉ seen).
Proof.
  induction l as [|e l IH]; intros bitmap c seen bitmap' c' Hm Hinv Hc;
    cbn [mark_list] in Hm.
  - injection Hm as <- <-. rewrite app_nil_r.
    split; [exact Hinv|]. split; [exact Hc|].
    split; [intros ->; repeat split; [constructor | intros x Hx; inversion Hx]
           | tauto].
  - unfold mark in Hm.
    destruct (isset bitmap e) as [[]|] eqn:He; [| |discriminate].
    + (* seen before *)
      assert (He' : e ∈ seen) by (apply Hinv; exact He).
      assert (Hc' := mark_list_zero _ _ _ _ Hm).
      destruct (IH bitmap 0 seen bitmap' c' Hm Hinv (or_intror eq_refl))
        as (Hinv' & _ & _).
      split.
      { intros j. rewrite Hinv'.
        rewrite !elem_of_app, elem_of_cons. intuition congruence. }
      split; [right; exact Hc'|].
      split; [intros ->; discriminate|].
      intros (_ & _ & Hd). exfalso. apply (Hd e); [left | exact He'].
    + (* new *)
      destruct (setbit bitmap e) as [bitmap1|] eqn:Hs; [|discriminate].
      assert (He' : e ∉ seen).
      { intros Hin. apply Hinv in Hin. congruence. }
      assert (Hinv1 : forall j,
                isset bitmap1 j = Some true <-> j ∈ seen ++ [e]).
      { intros j. rewrite (isset_setbit _ _ _ _ Hs), elem_of_app,
          list_elem_of_singleton.
        destruct (Z.eqb_spec j e) as [-> | Hne].
        - tauto.
        - rewrite Hinv. tauto. }
      destruct (IH bitmap1 c (seen ++ [e]) bitmap' c' Hm Hinv1 Hc)
        as (Hinv' & Hc' & Hiff).
      split; [intros j; rewrite Hinv', <- app_assoc; reflexivity|].
      split; [exact Hc'|].
      rewrite Hiff, NoDup_cons.
      split.
      * intros (-> & Hnd & Hd). split; [reflexivity|]. split.
        -- split; [|exact Hnd]. intros Hin.
           apply (Hd e Hin). apply elem_of_app. right. left.
        -- intros x Hx Hin. apply elem_of_cons in Hx as [-> | Hx];
             [contradiction|].
           apply (Hd x Hx). apply elem_of_app. left. exact Hin.
      * intros (-> & (Hne & Hnd) & Hd). split; [reflexivity|].
        split; [exact Hnd|]. intros x Hx Hin.
        apply elem_of_app in Hin as [Hin | Hin].
        -- apply (Hd x); [right; exact Hx | exact Hin].
        -- apply list_elem_of_singleton in Hin as ->. contradiction.
Qed.

Lemma check_clear_loop_spec n :
  forall i bitmap c c',
    check_clear_loop n i bitmap c = Some c' ->
    c = 1 \/ c = 0 ->
    (c' = 1 \/ c' = 0) /\
    (c' = 1 <->
     c = 1 /\ forall j, i <= j < i + Z.of_nat n -> isset bitmap j = Some true).
Proof.
  induction n as [|n IH]; intros i bitmap c c' Hl Hc;
    cbn [check_clear_loop] in Hl.
  - injection Hl as <-. split; [exact Hc|].
    split; [intros ->; split; [reflexivity | intros j Hj; lia] | tauto].
  - unfold isclr in Hl.
    destruct (isset bitmap i) as [set|] eqn:Hi; [|discriminate].
    apply IH in Hl as [Hc' Hiff];
      [|destruct (negb set); [right; reflexivity | exact Hc]].
    split; [exact Hc'|]. rewrite Hiff.
    destruct set; cbn [negb].
    + split.
      * intros [-> Hall]. split; [reflexivity|]. intros j Hj.
        destruct (Z.eq_dec j i) as [-> | Hne]; [exact Hi | apply Hall; lia].
      * intros [-> Hall]. split; [reflexivity|]. intros j Hj.
        apply Hall. lia.
    + split; [intros [Hx _]; discriminate|].
      intros [_ Hall]. specialize (Hall i ltac:(lia)). congruence.
Qed.

Lemma loaded_app evs1 evs2 : loaded (evs1 ++ evs2) = loaded evs1 ++ loaded evs2.
Proof. unfold loaded. apply flat_map_app. Qed.

Lemma check_map_loop_marks n :
  forall external_nlba i mapp next_index remaining map_entry_off bitmap c
         (s s' : state W) r bitmap' c',
    check_map_loop E n external_nlba i mapp next_index remaining
      map_entry_off bitmap c s = Some ((r, bitmap', c'), s') ->
    exists evs,
      trace s' = trace s ++ evs /\
      (r = 0 \/ r = -1) /\
      (r = 0 ->
       length (loaded evs) = n /\
       mark_list bitmap c (map post_lba (loaded evs)) = Some (bitmap', c')).
Proof.
  induction n as [|n IH]; intros external_nlba i mapp next_index remaining
    map_entry_off bitmap c s s' r bitmap' c' Hrun;
    cbn [check_map_loop] in Hrun.
  - apply ret_inv in Hrun. injection Hrun as -> -> -> ->.
    exists []. rewrite app_nil_r. auto.
  - cbv zeta in Hrun.
    assert (Hbody : forall mapp next_index remaining (s0 : state W),
      bind (call_load32 E (mapp + 4 * next_index))
        (fun v =>
           bind (of_option
                   (mark bitmap (Z.land (le32toh v) BTT_MAP_ENTRY_LBA_MASK)
                      c))
             (fun x => let '(bitmap, consistent) := x in
                check_map_loop E n external_nlba (i + 1) mapp
                  (s32 (next_index + 1)) (s32 (remaining - 4))
                  (s64 (map_entry_off + 4)) bitmap consistent)) s0
      = Some ((r, bitmap', c'), s') ->
      exists evs,
        trace s' = trace s0 ++ evs /\
        (r = 0 \/ r = -1) /\
        (r = 0 ->
         length (loaded evs) = S n /\
         mark_list bitmap c (map post_lba (loaded evs))
         = Some (bitmap', c'))).
    { intros mapp0 ni rem s0 Hb.
      apply bind_inv in Hb as (v & s1 & Hld & Hb).
      apply bind_inv in Hb as ([bm1 c1] & s2 & Hmk & Hb).
      destruct (mark bitmap (Z.land (le32toh v) BTT_MAP_ENTRY_LBA_MASK) c)
        as [[bm1' c1']|] eqn:Hmark; [|discriminate].
      apply ret_inv in Hmk. injection Hmk as -> -> ->.
      apply IH in Hb as (evs & Ht & Hr & Hok).
      destruct s0 as [b0 w0 t0 e0].
      unfold call_load32 in Hld. cbn [bt world trace errno] in Hld.
      injection Hld as <- <-. cbn [trace] in *.
      exists (EvLoad32 (mapp0 + 4 * ni) (load32 E w0 (mapp0 + 4 * ni)) :: evs).
      split; [rewrite Ht, <- app_assoc; reflexivity|].
      split; [exact Hr|]. intros H0. destruct (Hok H0) as [Hlen Hml].
      change (loaded (EvLoad32 (mapp0 + 4 * ni)
                        (load32 E w0 (mapp0 + 4 * ni)) :: evs))
        with (load32 E w0 (mapp0 + 4 * ni) :: loaded evs).
      cbn [length map mark_list]. unfold post_lba at 1.
      unfold le32toh in Hmark. rewrite Hmark.
      split; [congruence | exact Hml]. }
    destruct (remaining =? 0); [|eapply Hbody; exact Hrun].
    apply bind_inv in Hrun as ([r1 addr] & s1 & Hmap & Hrun).
    destruct s as [b w t e].
    unfold call_nsmap in Hmap. cbn [bt world trace errno] in Hmap.
    destruct (nsmap E w 0 _ map_entry_off) as [[r1' addr'] w'].
    injection Hmap as <- <- <-.
    destruct (s32 r1' <? 0).
    + apply ret_inv in Hrun. injection Hrun as -> -> -> ->.
      eexists [_]. split; [reflexivity|]. split; [right; reflexivity|].
      intros Hx. discriminate.
    + apply Hbody in Hrun as (evs & Ht & Hr & Hok).
      cbn [trace] in *.
      eexists (_ :: evs). split; [rewrite Ht, <- app_assoc; reflexivity|].
      split; [exact Hr|]. exact Hok.
Qed.

Lemma check_flog_loop_marks arenap a fl n :
  forall i bitmap c (s s' : state W) bitmap' c',
    0 <= i ->
    arena_of (bt s) arenap = Some a -> flogs a = Some fl ->
    check_flog_loop n arenap i bitmap c s = Some ((bitmap', c'), s') ->
    s' = s /\
    mark_list bitmap c
      (map (fun fr => post_lba (flog_old_map (flog fr)))
         (take n (drop (Z.to_nat i) fl)))
    = Some (bitmap', c').
Proof.
  induction n as [|n IH]; intros i bitmap c s s' bitmap' c' Hi Ha Hfl Hrun;
    cbn [check_flog_loop] in Hrun.
  - apply ret_inv in Hrun. injection Hrun as -> -> ->. auto.
  - apply bind_inv in Hrun as (fr & s1 & Hfr & Hrun).
    rewrite get_flog_eq in Hfr.
    destruct (flog_of (bt s) arenap i) as [fr0|] eqn:Hfo; [|discriminate].
    injection Hfr as -> <-.
    unfold flog_of in Hfo. rewrite Ha, Hfl in Hfo.
    unfold index in Hfo. rewrite (ltb_nonneg _ Hi) in Hfo.
    cbv zeta in Hrun.
    apply bind_inv in Hrun as ([bm1 c1] & s2 & Hmk & Hrun).
    destruct (mark bitmap
                (Z.land (flog_old_map (flog fr)) BTT_MAP_ENTRY_LBA_MASK) c)
      as [[bm1' c1']|] eqn:Hmark; [|discriminate].
    apply ret_inv in Hmk. injection Hmk as -> -> ->.
    apply IH in Hrun as [-> Hml]; [|lia|exact Ha|exact Hfl].
    split; [reflexivity|].
    rewrite (drop_S _ _ _ Hfo). cbn [take map mark_list].
    unfold post_lba at 1. rewrite Hmark.
    replace (Z.to_nat (i + 1)) with (S (Z.to_nat i)) in Hml by lia.
    exact Hml.
Qed.

(** X13.  The verdict of check_arena.  When check_arena returns a verdict
    (not -1), take the post-map LBAs it looked at: those of the map
    entries it loaded, one for each external LBA of the arena, followed by
    those of the old_map fields of the nfree run-time flogs.  The verdict
    is 1 exactly when no post-map LBA comes twice in that list and every
    internal LBA of the arena is in it; otherwise it is 0. *)
Theorem check_arena_verdict (st st' : state W) arenap a fl rv :
  arena_of (bt st) arenap = Some a -> flogs a = Some fl ->
  check_arena E arenap st = Some (rv, st') -> 0 <= rv ->
  exists evs,
    trace st' = trace st ++ evs /\
    length (loaded evs) = Z.to_nat (external_nlba a) /\
    let posts :=
      map post_lba (loaded evs) ++
      map (fun fr => post_lba (flog_old_map (flog fr)))
        (take (Z.to_nat (nfree (bt st))) fl) in
    (rv = 1 \/ rv = 0) /\
    (rv = 1 <->
     NoDup posts /\ forall i, 0 <= i < internal_nlba a -> i ∈ posts).
Proof.
  intros Ha Hfl Hrun Hrv. unfold check_arena in Hrun.
  apply bind_inv in Hrun as (a0 & s1 & Ha0 & Hrun).
  apply get_arena_inv in Ha0 as [Ha0 ->].
  rewrite Ha in Ha0. injection Ha0 as <-.
  apply bind_inv in Hrun as (b0 & s2 & Hb & Hrun).
  apply get_bt_inv in Hb. injection Hb as -> ->.
  cbv zeta in Hrun.
  apply bind_inv in Hrun as (ok & s3 & Hmal & Hrun).
  destruct st as [b w t e]. cbn [bt trace] in *.
  unfold call_Malloc in Hmal. cbn [bt world trace errno] in Hmal.
  destruct (Malloc E w _) as [ok' w1]. injection Hmal as <- <-.
  destruct ok'; cbn [negb] in Hrun;
    [|apply ret_inv in Hrun; injection Hrun as -> _; lia].
  apply bind_inv in Hrun as ([[r bm1] c1] & s4 & Hmap & Hrun).
  assert (Hbt : bt s4 = b).
  { apply (checking_check_map_loop checks (observes checks)
             (observes_kept _) (fun ev Hev => Hev)) in Hmap.
    destruct Hmap as (_ & Hbt & _). exact Hbt. }
  apply check_map_loop_marks in Hmap as (evs & Ht & Hr & Hok).
  cbn [trace] in Ht.
  destruct (Z.ltb_spec r 0) as [Hneg | Hpos];
    [apply ret_inv in Hrun; injection Hrun as -> _; lia|].
  destruct Hr as [-> | ->]; [|lia].
  destruct (Hok eq_refl) as [Hlen Hml1]. clear Hok.
  apply bind_inv in Hrun as ([bm2 c2] & s5 & Hflog & Hrun).
  apply (check_flog_loop_marks arenap a fl) in Hflog as [-> Hml2];
    [|lia|rewrite Hbt; exact Ha|exact Hfl].
  change (Z.to_nat 0) with 0%nat in Hml2.
  rewrite drop_0 in Hml2.
  apply bind_inv in Hrun as (c3 & s6 & Hclr & Hrun).
  destruct (check_clear_loop (Z.to_nat (internal_nlba a)) 0 bm2 c2)
    as [c3'|] eqn:Hcl; [|discriminate].
  apply ret_inv in Hclr. injection Hclr as -> ->.
  apply bind_inv in Hrun as ([] & s7 & Hfree & Hrun).
  apply ret_inv in Hrun. injection Hrun as -> ->.
  unfold log in Hfree. injection Hfree as <-. cbn [trace].
  exists ((EvMalloc (u64 (s32 (u32 (internal_nlba a + (8 - 1)) / 8))) true
             :: evs) ++ [EvFree]).
  split; [rewrite Ht, <- !app_assoc; reflexivity|].
  change (loaded ((EvMalloc (u64 (s32 (u32 (internal_nlba a + (8 - 1)) / 8)))
                     true :: evs) ++ [EvFree]))
    with (loaded (evs ++ [EvFree])).
  rewrite loaded_app. change (loaded [EvFree]) with (@nil Z).
  rewrite app_nil_r.
  split; [exact Hlen|]. cbv zeta.
  set (l1 := map post_lba (loaded evs)) in *.
  set (l2 := map (fun fr => post_lba (flog_old_map (flog fr)))
               (take (Z.to_nat (nfree b)) fl)) in *.
  assert (Hml : mark_list (replicate (Z.to_nat
                   (s32 (u32 (internal_nlba a + (8 - 1)) / 8))) 0) 1
                  (l1 ++ l2) = Some (bm2, c2))
    by (rewrite mark_list_app, Hml1; exact Hml2).
  apply (mark_list_spec _ _ _ []) in Hml as (Hinv & Hc2 & Hiff2);
    [| |left; reflexivity].
  2:{ intros j. split; [intros Hx; exfalso; eapply isset_zeros; eauto
                       | intros Hx; inversion Hx]. }
  cbn [app] in Hinv.
  apply check_clear_loop_spec in Hcl as (Hc3 & Hiff3); [|exact Hc2].
  split; [exact Hc3|].
  rewrite Hiff3, Hiff2. split.
  - intros ((_ & Hnd & _) & Hall). split; [exact Hnd|].
    intros i Hi. apply Hinv, Hall. lia.
  - intros (Hnd & Hall). split.
    + split; [reflexivity|]. split; [exact Hnd|]. intros x _ Hx.
      inversion Hx.
    + intros j Hj. apply Hinv, Hall. lia.
Qed.

(** ** The arena of an LBA depends on the sizes of the arenas only *)

Lemma lba_to_arena_lba_loop_agree n :
  forall k lba (s s2 : state W) x,
    (forall j, option_map external_nlba (arena_of (bt s2) j)
               = option_map external_nlba (arena_of (bt s) j)) ->
    lba_to_arena_lba_loop n k lba s = Some (x, s) ->
    lba_to_arena_lba_loop n k lba s2 = Some (x, s2).
Proof.
  induction n as [|n IH]; intros k lba s s2 x Hag; cbn [lba_to_arena_lba_loop].
  - unfold ret. congruence.
  - unfold bind. rewrite !get_arena_eq. specialize (Hag k) as Hk.
    destruct (arena_of (bt s) k) as [a|]; [|discriminate].
    destruct (arena_of (bt s2) k) as [a2|]; [|discriminate].
    cbn [option_map] in Hk. injection Hk as ->.
    destruct (lba <? external_nlba a).
    + unfold ret. congruence.
    + apply IH. exact Hag.
Qed.

Lemma lba_to_arena_lba_with_flog lba b arenap i fr w t e w' t' e' x :
  @lba_to_arena_lba W lba (mk_state b w t e) = Some (x, mk_state b w t e) ->
  @lba_to_arena_lba W lba (mk_state (with_flog b arenap i fr) w' t' e')
  = Some (x, mk_state (with_flog b arenap i fr) w' t' e').
Proof.
  assert (Hag : forall j,
            option_map external_nlba (arena_of (with_flog b arenap i fr) j)
            = option_map external_nlba (arena_of b j)).
  { intros j. unfold with_flog.
    destruct (arena_of b arenap) as [a|] eqn:Ha; [|reflexivity].
    destruct (flogs a) as [fl|] eqn:Hfl; [|reflexivity].
    destruct (Nat.eq_dec j arenap) as [-> | Hj].
    - rewrite (arena_of_with_arena _ _ _ _ Ha), Ha. reflexivity.
    - rewrite arena_of_with_arena_ne by exact Hj. reflexivity. }
  assert (Hn : narena (with_flog b arenap i fr) = narena b).
  { unfold with_flog.
    destruct (arena_of b arenap) as [a|]; [|reflexivity].
    destruct (flogs a); [|reflexivity].
    unfold with_arena. destruct (arenas b); reflexivity. }
  unfold lba_to_arena_lba, bind, get_bt. cbn [bt]. rewrite Hn.
  destruct (lba_to_arena_lba_loop (Z.to_nat (narena b)) 0 lba
              (mk_state b w t e)) as [[[k p] s1]|] eqn:Hloop; [|discriminate].
  assert (s1 = mk_state b w t e) as ->
    by (symmetry; eapply lba_to_arena_lba_loop_pure; eauto).
  rewrite (lba_to_arena_lba_loop_agree _ _ _ (mk_state b w t e)
             (mk_state (with_flog b arenap i fr) w' t' e') (k, p) Hag Hloop).
  unfold ret. congruence.
Qed.

Lemma with_flog_params b arenap i fr :
  nlba (with_flog b arenap i fr) = nlba b /\
  laidout (with_flog b arenap i fr) = laidout b /\
  lbasize (with_flog b arenap i fr) = lbasize b.
Proof.
  unfold with_flog.
  destruct (arena_of b arenap) as [a|]; [|auto].
  destruct (flogs a); [|auto].
  unfold with_arena. destruct (arenas b); auto.
Qed.

Lemma rtt_of_with_flog b arenap i fr k lane :
  rtt_of (with_flog b arenap i fr) k lane = rtt_of b k lane.
Proof.
  unfold with_flog.
  destruct (arena_of b arenap) as [a|] eqn:Ha; [|reflexivity].
  destruct (flogs a) as [fl|] eqn:Hfl; [|reflexivity].
  unfold rtt_of.
  destruct (Nat.eq_dec k arenap) as [-> | Hk].
  - rewrite (arena_of_with_arena _ _ _ _ Ha), Ha. reflexivity.
  - rewrite arena_of_with_arena_ne by exact Hk. reflexivity.
Qed.

(** ** A read that finds its map entry stable and without flags *)

Lemma with_rtt_params b arenap lane v :
  lbasize (with_rtt b arenap lane v) = lbasize b.
Proof.
  unfold with_rtt.
  destruct (arena_of b arenap) as [a|]; [|reflexivity].
  destruct (rtt a); [|reflexivity].
  unfold with_arena. destruct (arenas b); reflexivity.
Qed.

Lemma arena_of_with_rtt b arenap lane v a v0 :
  arena_of b arenap = Some a -> rtt_of b arenap lane = Some v0 ->
  exists a', arena_of (with_rtt b arenap lane v) arenap = Some a' /\
             dataoff a' = dataoff a /\
             internal_lbasize a' = internal_lbasize a.
Proof.
  intros Ha. unfold rtt_of, with_rtt. rewrite Ha.
  destruct (rtt a) as [r|]; [|discriminate]. intros _.
  eexists. split; [eapply arena_of_with_arena; eauto|]. auto.
Qed.

Lemma btt_read_stable_run (st : state W) fuel lane lba buf arenap premap_lba
    a v r1 d1 w1 r2 d2 w2 r3 d3 w3 :
  lba < nlba (bt st) -> laidout (bt st) <> 0 ->
  lba_to_arena_lba lba st = Some ((0, arenap, premap_lba), st) ->
  arena_of (bt st) arenap = Some a ->
  rtt_of (bt st) arenap lane = Some v ->
  nsread E (world st) lane 4 (map_entry_off_of a premap_lba)
    = (r1, d1, w1) ->
  0 <= r1 ->
  Z.land (u32_at d1 0) BTT_MAP_ENTRY_ERROR = 0 ->
  Z.land (u32_at d1 0) BTT_MAP_ENTRY_ZERO = 0 ->
  nsread E w1 lane 4 (map_entry_off_of a premap_lba) = (r2, d2, w2) ->
  0 <= r2 -> u32_at d2 0 = u32_at d1 0 ->
  nsread E w2 lane (lbasize (bt st)) (data_block_off_of a (u32_at d1 0))
    = (r3, d3, w3) ->
  exists st',
    btt_read E (S fuel) lane lba buf st = Some ((r3, d3), st') /\
    bt st' = with_rtt (bt st) arenap lane BTT_MAP_ENTRY_ERROR /\
    world st' = w3 /\
    rtt_of (bt st') arenap lane = Some BTT_MAP_ENTRY_ERROR.
Proof.
  intros Hlt Hl Hlba Ha Hrtt Hrd1 Hr1 He Hz Hrd2 Hr2 Hsame Hrd3.
  destruct st as [b w t e]. cbn [bt world] in *.
  unfold btt_read, bind. rewrite invalid_lba_eq. cbn [bt].
  rewrite (proj2 (Z.leb_gt _ _) Hlt).
  change (negb (0 =? 0)) with false. cbv iota.
  unfold get_bt at 1. cbn [bt]. rewrite (proj2 (Z.eqb_neq _ _) Hl).
  rewrite Hlba. cbv beta iota. change (0 <? 0) with false. cbv beta iota.
  rewrite get_arena_eq. cbn [bt]. rewrite Ha.
  fold (map_entry_off_of a premap_lba).
  rewrite (call_nsread_eq _ _ _ _ _ _ _ _ _ _ Hrd1).
  rewrite (ltb_nonneg _ Hr1). cbv beta iota.
  cbn [btt_read_loop]. unfold le32toh.
  rewrite He, Hz. change (negb (0 =? 0)) with false. cbv beta iota.
  unfold bind. rewrite put_rtt_eq. cbn [bt]. rewrite Hrtt.
  unfold with_bt. cbn [bt world trace errno]. cbv beta iota.
  rewrite (call_nsread_eq _ _ _ _ _ _ _ _ _ _ Hrd2). cbv beta iota.
  rewrite (ltb_nonneg _ Hr2), Hsame, Z.eqb_refl. cbv beta iota.
  destruct (arena_of_with_rtt _ _ lane (u32_at d1 0) _ _ Ha Hrtt)
    as (a' & Ha' & Hd & Hi).
  rewrite get_arena_eq. cbn [bt]. rewrite Ha'.
  unfold get_bt. cbn [bt world trace errno].
  rewrite Hd, Hi, with_rtt_params.
  fold (data_block_off_of a (u32_at d1 0)).
  rewrite (call_nsread_eq _ _ _ _ _ _ _ _ _ _ Hrd3).
  rewrite put_rtt_eq. cbn [bt].
  rewrite (rtt_of_with_rtt _ _ _ _ _ Hrtt).
  unfold with_bt, ret. cbn [bt world trace errno].
  eexists. split; [reflexivity|]. cbn [bt world].
  rewrite (with_rtt_with_rtt _ _ _ _ _ _ Hrtt).
  split; [reflexivity|]. split; [reflexivity|].
  eapply rtt_of_with_rtt; eauto.
Qed.

End Proofs.

(** * Runs on the namespace in memory *)

(** ** C5: a flog update on the freshly written namespace *)

Lemma flog_update_two_writes_witness :
  exists st',
    flog_update ram_env 0 0 5 (Z.lor 5 BTT_MAP_ENTRY_ZERO) 103 st_written1
      = Some (0, st') /\
    flog_of (bt st') 0 0 =
      Some (mk_flog_runtime (mk_flog 5 (Z.lor 5 BTT_MAP_ENTRY_ZERO) 103 3)
              3920 3936 1).
Proof.
  edestruct (flog_update_two_writes ram_env st_written1 0 0 5
               (Z.lor 5 BTT_MAP_ENTRY_ZERO) 103)
    as (ret & st' & Hrun & Hok & _).
  - reflexivity.
  - reflexivity.
  - reflexivity.
  - reflexivity.
  - destruct Hok as (-> & _ & _ & _ & Hfl); [vm_compute; discriminate..|].
    exists st'. split; [exact Hrun | exact Hfl].
Defined.

(** ** C3: the pair of lane 0 after one write: sequence numbers 1 and 2 *)

Lemma read_flog_pair_selects_witness :
  exists ret st' fr',
    read_flog_pair (small_h 2) ram_env 0 0 3920 0 0 st_written1
      = Some (ret, st') /\
    flog_of (bt st') 0 0 = Some fr' /\
    flog fr' = mk_flog 0 BTT_MAP_ENTRY_ZERO 103 2 /\ next fr' = 0.
Proof.
  edestruct (read_flog_pair_selects (small_h 2) ram_env st_written1 0 0 3920
               0 0)
    as (ret & st' & a' & fr' & Hrun & _ & Hfl & _ & Hsel).
  - reflexivity.
  - reflexivity.
  - reflexivity.
  - vm_compute. discriminate.
  - destruct Hsel as (_ & _ & _ & Hcase & _); [vm_compute; discriminate|].
    destruct Hcase as [Hf Hn];
      [vm_compute; discriminate | vm_compute; discriminate | reflexivity |].
    exists ret, st', fr'. split; [exact Hrun|]. split; [exact Hfl|].
    split; [rewrite Hf; reflexivity | exact Hn].
Defined.

(** ** C4: recovery after a crash between the flog update and the map
    update completes the map update *)

Lemma read_flog_pair_recovery_witness :
  exists st',
    read_flog_pair (small_h 2) ram_env 0 0 3920 0 0 st_crashed1
      = Some (0, st') /\
    trace st' =
      [EvNsRead 0 32 3920 0
         [0; 0; 0; 0; 103; 0; 0; 64; 103; 0; 0; 64; 1; 0; 0; 0;
          0; 0; 0; 0; 0; 0; 0; 64; 103; 0; 0; 0; 2; 0; 0; 0];
       EvNsRead 0 4 3504 0 [0; 0; 0; 64];
       EvNsWrite 0 [103; 0; 0; 0] 4 3504 0] /\
    ram_bytes (mem (world st')) 3504 4 = [103; 0; 0; 0].
Proof.
  assert (Hrv : option_map fst
            (read_flog_pair (small_h 2) ram_env 0 0 3920 0 0 st_crashed1)
          = Some 0) by (vm_compute; reflexivity).
  assert (Htr : option_map (fun x => trace (snd x))
            (read_flog_pair (small_h 2) ram_env 0 0 3920 0 0 st_crashed1)
          = Some
              [EvNsRead 0 32 3920 0
                 [0; 0; 0; 0; 103; 0; 0; 64; 103; 0; 0; 64; 1; 0; 0; 0;
                  0; 0; 0; 0; 0; 0; 0; 64; 103; 0; 0; 0; 2; 0; 0; 0];
               EvNsRead 0 4 3504 0 [0; 0; 0; 64];
               EvNsWrite 0 [103; 0; 0; 0] 4 3504 0])
    by (vm_compute; reflexivity).
  assert (Hmem : option_map (fun x => ram_bytes (mem (world (snd x))) 3504 4)
            (read_flog_pair (small_h 2) ram_env 0 0 3920 0 0 st_crashed1)
          = Some [103; 0; 0; 0]) by (vm_compute; reflexivity).
  edestruct (read_flog_pair_recovery (small_h 2) ram_env st_crashed1 0 0 3920
               0 0)
    as (ret & st' & fr' & Hrun & _ & _).
  - reflexivity.
  - reflexivity.
  - reflexivity.
  - vm_compute. discriminate.
  - vm_compute. discriminate.
  - rewrite Hrun in Hrv, Htr, Hmem.
    apply Some_inj in Hrv, Htr, Hmem. cbn [fst snd] in Hrv, Htr, Hmem.
    subst ret. exists st'. split; [exact Hrun|].
    split; [exact Htr | exact Hmem].
Defined.

(** ** C7: one lane asked for, two available; and no bound given *)

Lemma btt_init_nlane_witness :
  exists b st',
    btt_init (small_h 2) ram_env 4 4096 32 (replicate 16 7) 1 (state0 ram0)
      = Some (Some b, st') /\
    nfree b = 2 /\ nlane b = 1.
Proof.
  destruct (btt_init (small_h 2) ram_env 4 4096 32 (replicate 16 7) 1
              (state0 ram0)) as [[[b|] st']|] eqn:Hrun;
    [|vm_compute in Hrun; discriminate..].
  exists b, st'. split; [reflexivity|].
  destruct (btt_init_nlane _ _ _ _ _ _ _ _ _ _ Hrun) as (_ & _ & Hn & _).
  vm_compute in Hrun. injection Hrun as <- _. split; reflexivity.
Defined.

(** C7 as stated fails for maxlane 0: the handle has nfree = 2 and
    btt_nlane returns 2, not min(2, 0). *)
Lemma btt_init_maxlane_zero :
  exists b st',
    btt_init (small_h 2) ram_env 4 4096 32 (replicate 16 7) 0 (state0 ram0)
      = Some (Some b, st') /\
    btt_nlane st' = Some (2, st') /\
    nfree b = 2 /\
    nlane b <> Z.min (nfree b) 0.
Proof.
  exists (bt st_open1), st_open1.
  split; [vm_compute; reflexivity|].
  split; [vm_compute; reflexivity|].
  split; [reflexivity | vm_compute; discriminate].
Qed.

(** ** C8: the flags before the first write *)

Lemma setf_without_layout_witness :
  btt_set_zero (small_h 2) ram_env 0 1 st_open1 = Some (0, st_open1) /\
  exists st',
    btt_set_error (small_h 2) ram_env 0 1 st_open1 = Some (0, st') /\
    laidout (bt st') = 1 /\
    ram_bytes (mem (world st')) (3504 + 4) 4 = [1; 0; 0; 192].
Proof.
  assert (Hrv : option_map fst
            (btt_set_error (small_h 2) ram_env 0 1 st_open1) = Some 0)
    by (vm_compute; reflexivity).
  assert (Hlaid : option_map (fun x => laidout (bt (snd x)))
            (btt_set_error (small_h 2) ram_env 0 1 st_open1) = Some 1)
    by (vm_compute; reflexivity).
  assert (Hmem : option_map
            (fun x => ram_bytes (mem (world (snd x))) (3504 + 4) 4)
            (btt_set_error (small_h 2) ram_env 0 1 st_open1)
          = Some [1; 0; 0; 192]) by (vm_compute; reflexivity).
  destruct (setf_without_layout (small_h 2) ram_env st_open1 0 1)
    as [Hzero _].
  - reflexivity.
  - vm_compute. reflexivity.
  - split; [exact Hzero|].
    destruct (btt_set_error (small_h 2) ram_env 0 1 st_open1)
      as [[rv st']|]; [|discriminate Hrv].
    apply Some_inj in Hrv, Hlaid, Hmem. cbn [fst snd] in Hrv, Hlaid, Hmem.
    subst rv. exists st'. split; [reflexivity|].
    split; [exact Hlaid | exact Hmem].
Defined.

(** ** C9: ZERO and ERROR set on the block written before, and ZERO set
    on a block that has it *)

Lemma map_entry_setf_only_flag_witness :
  (exists st',
     btt_set_zero (small_h 2) ram_env 0 0 st_written1 = Some (0, st') /\
     bt st' = bt st_written1 /\
     ram_bytes (mem (world st')) 3504 4 = [103; 0; 0; 64] /\
     skipn (length (trace st_written1)) (trace st') =
       [EvSpinLock 0 0; EvNsRead 0 4 3504 0 [103; 0; 0; 0];
        EvNsWrite 0 [103; 0; 0; 64] 4 3504 0; EvSpinUnlock 0 0]) /\
  (exists st',
     btt_set_error (small_h 2) ram_env 0 0 st_written1 = Some (0, st') /\
     bt st' = bt st_written1 /\
     ram_bytes (mem (world st')) 3504 4 = [103; 0; 0; 128] /\
     skipn (length (trace st_written1)) (trace st') =
       [EvSpinLock 0 0; EvNsRead 0 4 3504 0 [103; 0; 0; 0];
        EvNsWrite 0 [103; 0; 0; 128] 4 3504 0; EvSpinUnlock 0 0]) /\
  (exists st',
     btt_set_zero (small_h 2) ram_env 0 1 st_written1 = Some (0, st') /\
     bt st' = bt st_written1 /\
     mem (world st') = mem (world st_written1) /\
     skipn (length (trace st_written1)) (trace st') =
       [EvSpinLock 0 1; EvNsRead 0 4 3508 0 [1; 0; 0; 64];
        EvSpinUnlock 0 1]).
Proof.
  assert (Hlaid : laidout (bt st_written1) <> 0)
    by (vm_compute; discriminate).
  split; [|split].
  - assert (Hrv : option_map fst
        (btt_set_zero (small_h 2) ram_env 0 0 st_written1) = Some 0)
      by (vm_compute; reflexivity).
    assert (Hmem : option_map
        (fun x => ram_bytes (mem (world (snd x))) 3504 4)
        (btt_set_zero (small_h 2) ram_env 0 0 st_written1)
        = Some [103; 0; 0; 64])
      by (vm_compute; reflexivity).
    assert (Htr : option_map
        (fun x => skipn (length (trace st_written1)) (trace (snd x)))
        (btt_set_zero (small_h 2) ram_env 0 0 st_written1)
        = Some [EvSpinLock 0 0; EvNsRead 0 4 3504 0 [103; 0; 0; 0];
                EvNsWrite 0 [103; 0; 0; 64] 4 3504 0; EvSpinUnlock 0 0])
      by (vm_compute; reflexivity).
    destruct (btt_set_zero (small_h 2) ram_env 0 0 st_written1)
      as [[rv st']|] eqn:Hrun; [|discriminate Hrv].
    apply (f_equal (default 1)) in Hrv; change (rv = 0) in Hrv; subst rv.
    destruct (map_entry_setf_only_flag (small_h 2) ram_env st_written1 st'
                0 0 BTT_MAP_ENTRY_ZERO Hlaid (or_introl (conj eq_refl Hrun)))
      as (arenap & premap_lba & a & n & r & data & w1 & _ & _ & _ & _ & _
          & Hbt & _).
    exists st'. split; [reflexivity|]. split; [exact Hbt|].
    split; [exact (Some_inj _ _ Hmem) | exact (Some_inj _ _ Htr)].
  - assert (Hrv : option_map fst
        (btt_set_error (small_h 2) ram_env 0 0 st_written1) = Some 0)
      by (vm_compute; reflexivity).
    assert (Hmem : option_map
        (fun x => ram_bytes (mem (world (snd x))) 3504 4)
        (btt_set_error (small_h 2) ram_env 0 0 st_written1)
        = Some [103; 0; 0; 128])
      by (vm_compute; reflexivity).
    assert (Htr : option_map
        (fun x => skipn (length (trace st_written1)) (trace (snd x)))
        (btt_set_error (small_h 2) ram_env 0 0 st_written1)
        = Some [EvSpinLock 0 0; EvNsRead 0 4 3504 0 [103; 0; 0; 0];
                EvNsWrite 0 [103; 0; 0; 128] 4 3504 0; EvSpinUnlock 0 0])
      by (vm_compute; reflexivity).
    destruct (btt_set_error (small_h 2) ram_env 0 0 st_written1)
      as [[rv st']|] eqn:Hrun; [|discriminate Hrv].
    apply (f_equal (default 1)) in Hrv; change (rv = 0) in Hrv; subst rv.
    destruct (map_entry_setf_only_flag (small_h 2) ram_env st_written1 st'
                0 0 BTT_MAP_ENTRY_ERROR Hlaid (or_intror (conj eq_refl Hrun)))
      as (arenap & premap_lba & a & n & r & data & w1 & _ & _ & _ & _ & _
          & Hbt & _).
    exists st'. split; [reflexivity|]. split; [exact Hbt|].
    split; [exact (Some_inj _ _ Hmem) | exact (Some_inj _ _ Htr)].
  - assert (Hrv : option_map fst
        (btt_set_zero (small_h 2) ram_env 0 1 st_written1) = Some 0)
      by (vm_compute; reflexivity).
    assert (Hmem : option_map
        (fun x => bool_decide (mem (world (snd x)) = mem (world st_written1)))
        (btt_set_zero (small_h 2) ram_env 0 1 st_written1)
        = Some true)
      by (vm_compute; reflexivity).
    assert (Htr : option_map
        (fun x => skipn (length (trace st_written1)) (trace (snd x)))
        (btt_set_zero (small_h 2) ram_env 0 1 st_written1)
        = Some [EvSpinLock 0 1; EvNsRead 0 4 3508 0 [1; 0; 0; 64];
                EvSpinUnlock 0 1])
      by (vm_compute; reflexivity).
    destruct (btt_set_zero (small_h 2) ram_env 0 1 st_written1)
      as [[rv st']|] eqn:Hrun; [|discriminate Hrv].
    apply (f_equal (default 1)) in Hrv; change (rv = 0) in Hrv; subst rv.
    destruct (map_entry_setf_only_flag (small_h 2) ram_env st_written1 st'
                0 1 BTT_MAP_ENTRY_ZERO Hlaid (or_introl (conj eq_refl Hrun)))
      as (arenap & premap_lba & a & n & r & data & w1 & _ & _ & _ & _ & _
          & Hbt & _).
    exists st'. split; [reflexivity|]. split; [exact Hbt|].
    split; [exact (bool_decide_eq_true_1 _ (Some_inj _ _ Hmem))
           | exact (Some_inj _ _ Htr)].
Defined.

(** ** C10: a namespace of 100 bytes *)

Lemma btt_init_small_rawsize_witness :
  exists st',
    btt_init (small_h 2) ram_env 4 100 32 (replicate 16 7) 0 (state0 ram0)
      = Some (None, st') /\
    errno st' = EINVAL /\ trace st' = [].
Proof.
  destruct (btt_init_small_rawsize (small_h 2) ram_env (state0 ram0) 4 100 32
              (replicate 16 7) 0) as (st' & Hrun & He & Ht & _).
  - vm_compute. reflexivity.
  - exists st'. split; [exact Hrun|]. split; [exact He | exact Ht].
Defined.

(** ** C1: a read that meets a concurrent btt_set_zero

    Lane 0 reads block 0 of [st_racing1].  Its rtt cell is idle.  The map
    entry is 103; lane 0 publishes 103 in its rtt cell and reads the entry
    again; another lane has set the ZERO flag meanwhile, so the loop goes
    round with the new entry and returns the block of zeros from its
    second turn. *)

(** C1 (the code departs from the claim).  btt_read returns 0 with a
    zero-filled buffer and leaves 103, not the idle sentinel
    BTT_MAP_ENTRY_ERROR, in rtt[lane]. *)
Theorem btt_read_retry_leaves_rtt :
  rtt_of (bt st_racing1) 0 0 = Some BTT_MAP_ENTRY_ERROR /\
  exists st',
    btt_read ram_env 5 0 0 [] st_racing1 = Some ((0, replicate 32 0), st') /\
    trace st' = [EvNsRead 0 4 3504 0 [103; 0; 0; 0];
                 EvNsRead 0 4 3504 0 [103; 0; 0; 64]] /\
    rtt_of (bt st') 0 0 = Some 103 /\
    103 <> BTT_MAP_ENTRY_ERROR.
Proof.
  split; [reflexivity|].
  assert (Hrv : option_map fst (btt_read ram_env 5 0 0 [] st_racing1)
          = Some (0, replicate 32 0)) by (vm_compute; reflexivity).
  assert (Htr : option_map (fun x => trace (snd x))
            (btt_read ram_env 5 0 0 [] st_racing1)
          = Some [EvNsRead 0 4 3504 0 [103; 0; 0; 0];
                  EvNsRead 0 4 3504 0 [103; 0; 0; 64]])
    by (vm_compute; reflexivity).
  assert (Hrtt : option_map (fun x => rtt_of (bt (snd x)) 0 0)
            (btt_read ram_env 5 0 0 [] st_racing1)
          = Some (Some 103)) by (vm_compute; reflexivity).
  destruct (btt_read ram_env 5 0 0 [] st_racing1) as [[rv st']|];
    [|discriminate Hrv].
  apply Some_inj in Hrv, Htr, Hrtt. cbn [fst snd] in Hrv, Htr, Hrtt.
  subst rv. exists st'. split; [reflexivity|].
  split; [exact Htr|]. split; [exact Hrtt | vm_compute; discriminate].
Qed.

(** ** C2: a check of a namespace whose second arena is damaged *)

(** C2 (the code departs from the claim).  On the laid-out handle
    [st_damaged2], of two arenas, the check of arena 0 passes and the check
    of arena 1 fails, and btt_check returns 1: its loop runs twice and
    checks arena 0 both times (two allocations of the bitmap, two mappings
    of the map at offset 3504, none at 7600). *)
Theorem btt_check_misses_arena :
  laidout (bt st_damaged2) = 1 /\ narena (bt st_damaged2) = 2 /\
  (exists s, check_arena ram_env 0 st_damaged2 = Some (1, s)) /\
  (exists s, check_arena ram_env 1 st_damaged2 = Some (0, s)) /\
  exists s,
    btt_check ram_env st_damaged2 = Some (1, s) /\
    List.filter (fun ev => match ev with
                      | EvNsMap _ _ _ _ _ | EvMalloc _ _ => true
                      | _ => false
                      end)
      (skipn (length (trace st_damaged2)) (trace s)) =
    [EvMalloc 14 true; EvNsMap 0 412 3504 412 (ram_base + 3504);
     EvMalloc 14 true; EvNsMap 0 412 3504 412 (ram_base + 3504)].
Proof.
  split; [reflexivity|]. split; [reflexivity|].
  assert (Hret : forall (m : option (Z * state ram)) rv,
             option_map fst m = Some rv -> exists s, m = Some (rv, s)).
  { intros [[rv' s]|] rv Hm; [|discriminate Hm].
    apply Some_inj in Hm. cbn [fst] in Hm. subst rv'. exists s.
    reflexivity. }
  split; [apply Hret; vm_compute; reflexivity|].
  split; [apply Hret; vm_compute; reflexivity|].
  assert (Hrv : option_map fst (btt_check ram_env st_damaged2) = Some 1)
    by (vm_compute; reflexivity).
  assert (Htr : option_map
            (fun x =>
               List.filter (fun ev => match ev with
                                 | EvNsMap _ _ _ _ _ | EvMalloc _ _ => true
                                 | _ => false
                                 end)
                 (skipn (length (trace st_damaged2)) (trace (snd x))))
            (btt_check ram_env st_damaged2)
          = Some [EvMalloc 14 true; EvNsMap 0 412 3504 412 (ram_base + 3504);
                  EvMalloc 14 true; EvNsMap 0 412 3504 412 (ram_base + 3504)])
    by (vm_compute; reflexivity).
  destruct (btt_check ram_env st_damaged2) as [[rv s]|]; [|discriminate Hrv].
  apply Some_inj in Hrv, Htr. cbn [fst snd] in Hrv, Htr.
  subst rv. exists s. split; [reflexivity | exact Htr].
Qed.

(** ** read_layout: a walk over two arenas *)

Lemma read_layout_totals_witness :
  exists infos st',
    walk (small_h 2) ram_env 5 0 8192 0 (world st_opening2) = Some infos /\
    map info_nextoff infos = [4096; 0] /\
    read_layout (small_h 2) ram_env 5 0 st_opening2 = Some (0, st') /\
    nfree (bt st') = 2 /\ nlba (bt st') = 206.
Proof.
  assert (Hnext : option_map (map info_nextoff)
            (walk (small_h 2) ram_env 5 0 8192 0 (world st_opening2))
          = Some [4096; 0]) by (vm_compute; reflexivity).
  assert (Hmin : option_map (min_nfree (BTT_DEFAULT_NFREE (small_h 2)))
            (walk (small_h 2) ram_env 5 0 8192 0 (world st_opening2))
          = Some 2) by (vm_compute; reflexivity).
  assert (Hsum : option_map (fun infos => u64 (sum_nlba infos))
            (walk (small_h 2) ram_env 5 0 8192 0 (world st_opening2))
          = Some 206) by (vm_compute; reflexivity).
  assert (Hrv : option_map fst
            (read_layout (small_h 2) ram_env 5 0 st_opening2) = Some 0)
    by (vm_compute; reflexivity).
  destruct (walk (small_h 2) ram_env 5 0 8192 0 (world st_opening2))
    as [infos|] eqn:Hw; [|discriminate Hnext].
  destruct (read_layout (small_h 2) ram_env 5 0 st_opening2)
    as [[r st']|] eqn:Hrl; [|discriminate Hrv].
  apply (f_equal (default 1)) in Hrv; change (r = 0) in Hrv; subst r.
  destruct (read_layout_totals (small_h 2) ram_env st_opening2 st' 5 0 infos)
    as (Hnf & Hnl & _).
  - vm_compute. discriminate.
  - exact Hrl.
  - exact Hw.
  - exists infos, st'. split; [reflexivity|].
    split; [exact (Some_inj _ _ Hnext)|]. split; [reflexivity|].
    split; [rewrite Hnf; exact (Some_inj _ _ Hmin)
           | rewrite Hnl; exact (Some_inj _ _ Hsum)].
Defined.

(** ** C6: a namespace laid out with three free blocks per arena *)

(** C6 (the code departs from the claim).  read_layout succeeds on
    [st_opening3]; the one arena walked has a valid info block with
    nfree = 3, so 3 is the smallest value found; and the handle's nfree is
    2, the default stored before the walk, which the test
    [smallest_nfree < bttp->nfree] keeps. *)
Theorem read_layout_nfree_above_default :
  exists infos st',
    walk (small_h 2) ram_env 5 0 (rawsize (bt st_opening3)) 0
      (world st_opening3) = Some infos /\
    map info_nfree infos = [3] /\
    read_layout (small_h 2) ram_env 5 0 st_opening3 = Some (0, st') /\
    BTT_DEFAULT_NFREE (small_h 2) = 2 /\
    nfree (bt st') = 2 /\
    nfree (bt st') <> fold_right Z.min 3 (map info_nfree infos).
Proof.
  assert (Hfree : option_map (map info_nfree)
            (walk (small_h 2) ram_env 5 0 (rawsize (bt st_opening3)) 0
               (world st_opening3))
          = Some [3]) by (vm_compute; reflexivity).
  assert (Hrv : option_map fst
            (read_layout (small_h 2) ram_env 5 0 st_opening3) = Some 0)
    by (vm_compute; reflexivity).
  assert (Hnf : option_map (fun x => nfree (bt (snd x)))
            (read_layout (small_h 2) ram_env 5 0 st_opening3) = Some 2)
    by (vm_compute; reflexivity).
  destruct (walk (small_h 2) ram_env 5 0 (rawsize (bt st_opening3)) 0
              (world st_opening3)) as [infos|]; [|discriminate Hfree].
  destruct (read_layout (small_h 2) ram_env 5 0 st_opening3)
    as [[r st']|]; [|discriminate Hrv].
  apply (f_equal (default 1)) in Hrv; change (r = 0) in Hrv; subst r.
  apply Some_inj in Hfree, Hnf. cbn [snd] in Hnf.
  exists infos, st'. rewrite Hfree, Hnf.
  repeat split; try reflexivity. vm_compute. discriminate.
Qed.

(** * The namespace in memory: a block written is the block read *)

Lemma ram_byte_store l :
  forall m off x,
    ram_byte (ram_store m off l) x =
    if (off <=? x) && (x <? off + Z.of_nat (length l))
    then nth (Z.to_nat (x - off)) l 0
    else ram_byte m x.
Proof.
  induction l as [|b l IH]; intros m off x; cbn [ram_store length].
  - destruct (Z.leb_spec off x), (Z.ltb_spec x (off + Z.of_nat 0));
      cbn [andb]; try reflexivity; lia.
  - rewrite IH.
    destruct (Z.leb_spec (off + 1) x), (Z.leb_spec off x),
      (Z.ltb_spec x (off + 1 + Z.of_nat (length l))),
      (Z.ltb_spec x (off + Z.of_nat (S (length l))));
      cbn [andb]; try lia.
    + replace (Z.to_nat (x - off)) with (S (Z.to_nat (x - (off + 1))))
        by lia.
      reflexivity.
    + unfold ram_byte. rewrite lookup_insert_ne by lia. reflexivity.
    + assert (x = off) as -> by lia.
      unfold ram_byte. rewrite lookup_insert_eq, Z.sub_diag. reflexivity.
    + unfold ram_byte. rewrite lookup_insert_ne by lia. reflexivity.
Qed.

Lemma nth_ram_bytes m off count n :
  (n < count)%nat ->
  nth n (ram_bytes m off count) 0 = ram_byte m (off + Z.of_nat n).
Proof.
  intros Hn. unfold ram_bytes.
  set (f := fun i : nat => ram_byte m (off + Z.of_nat i)).
  rewrite (nth_indep _ 0 (f 0%nat)) by (rewrite length_map, length_seq; lia).
  rewrite (map_nth f), seq_nth by lia. reflexivity.
Qed.

Lemma length_ram_bytes m off count : length (ram_bytes m off count) = count.
Proof. unfold ram_bytes. rewrite length_map, length_seq. reflexivity. Qed.

Lemma ram_bytes_store_same m off l :
  ram_bytes (ram_store m off l) off (length l) = l.
Proof.
  apply (nth_ext _ _ 0 0).
  - apply length_ram_bytes.
  - intros n Hn. rewrite length_ram_bytes in Hn.
    rewrite nth_ram_bytes by exact Hn.
    rewrite ram_byte_store.
    destruct (Z.leb_spec off (off + Z.of_nat n)),
      (Z.ltb_spec (off + Z.of_nat n) (off + Z.of_nat (length l)));
      cbn [andb]; try lia.
    f_equal. lia.
Qed.

Lemma ram_bytes_store_other m off l off' n :
  off' + Z.of_nat n <= off \/ off + Z.of_nat (length l) <= off' ->
  ram_bytes (ram_store m off l) off' n = ram_bytes m off' n.
Proof.
  intros Hsep. unfold ram_bytes. apply map_ext_in. intros i Hi.
  apply in_seq in Hi. rewrite ram_byte_store.
  destruct (Z.leb_spec off (off' + Z.of_nat i)),
    (Z.ltb_spec (off' + Z.of_nat i) (off + Z.of_nat (length l)));
    cbn [andb]; try reflexivity; lia.
Qed.

Lemma testbit_byte x m :
  Z.testbit (Z.land x 255) m = Z.testbit x m && ((0 <=? m) && (m <? 8)).
Proof.
  rewrite Z.land_spec. change 255 with (Z.ones 8).
  rewrite Z.testbit_ones by lia. reflexivity.
Qed.

Lemma u32_at_bytes_of_u32 v :
  0 <= v < 2 ^ 32 -> u32_at (bytes_of_u32 v) 0 = v.
Proof.
  intros Hv. apply Z.bits_inj'. intros n Hn.
  unfold u32_at, byte_at, bytes_of_u32. cbn [nth Nat.add].
  rewrite !Z.lor_spec, !Z.shiftl_spec, !testbit_byte by lia.
  assert (Hhigh : 32 <= n -> Z.testbit v n = false).
  { intros Hge. destruct (Z.eq_dec v 0) as [-> | Hne];
      [apply Z.bits_0|].
    apply Z.bits_above_log2; [lia|].
    assert (Z.log2 v < 32) by (apply Z.log2_lt_pow2; lia). lia. }
  destruct (Z.leb_spec 0 (n - 8)), (Z.leb_spec 0 (n - 16)),
    (Z.leb_spec 0 (n - 24)), (Z.leb_spec 0 n); try lia;
    destruct (Z.ltb_spec n 8), (Z.ltb_spec (n - 8) 8),
      (Z.ltb_spec (n - 16) 8), (Z.ltb_spec (n - 24) 8); try lia;
    rewrite ?Z.shiftr_spec by lia;
    rewrite ?Z.sub_add, ?andb_true_r, ?andb_false_r, ?orb_false_r,
      ?orb_false_l; try reflexivity.
  symmetry. apply Hhigh. lia.
Qed.

Lemma post_lba_range x : 0 <= post_lba x < 2 ^ 30.
Proof.
  unfold post_lba. change BTT_MAP_ENTRY_LBA_MASK with (Z.ones 30).
  rewrite Z.land_ones by lia. apply Z.mod_pos_bound. lia.
Qed.

Lemma post_lba_no_flags x :
  Z.land (post_lba x) BTT_MAP_ENTRY_ERROR = 0 /\
  Z.land (post_lba x) BTT_MAP_ENTRY_ZERO = 0.
Proof.
  unfold post_lba. rewrite <- !Z.land_assoc.
  change (Z.land BTT_MAP_ENTRY_LBA_MASK BTT_MAP_ENTRY_ERROR) with 0.
  change (Z.land BTT_MAP_ENTRY_LBA_MASK BTT_MAP_ENTRY_ZERO) with 0.
  rewrite Z.land_0_r. auto.
Qed.

Lemma ram_nswrite_quiet m lane buf count off :
  nswrite ram_env (mk_ram m []) lane buf count off
  = (0, mk_ram (ram_store m off (firstn (Z.to_nat count) buf)) []).
Proof. reflexivity. Qed.

Lemma ram_nsread_quiet m lane count off :
  nsread ram_env (mk_ram m []) lane count off
  = (0, ram_bytes m off (Z.to_nat count), mk_ram m []).
Proof. reflexivity. Qed.

Lemma ram_bytes_store_window m off l k count :
  (k + count <= length l)%nat ->
  ram_bytes (ram_store m off l) (off + Z.of_nat k) count
  = take count (drop k l).
Proof.
  intros Hk. apply (nth_ext _ _ 0 0).
  - rewrite length_ram_bytes, length_take, length_drop. lia.
  - intros i Hi. rewrite length_ram_bytes in Hi.
    rewrite nth_ram_bytes by exact Hi.
    rewrite ram_byte_store.
    destruct (Z.leb_spec off (off + Z.of_nat k + Z.of_nat i)),
      (Z.ltb_spec (off + Z.of_nat k + Z.of_nat i)
         (off + Z.of_nat (length l))); cbn [andb]; try lia.
    rewrite nth_firstn, (proj2 (Nat.ltb_lt _ _) Hi), nth_skipn.
    f_equal. lia.
Qed.

Lemma u32_at_ram_bytes m off count k :
  (k + 4 <= count)%nat ->
  u32_at (ram_bytes m off count) k
  = u32_at (ram_bytes m (off + Z.of_nat k) 4) 0.
Proof.
  intros Hk. unfold u32_at, byte_at. cbn [Nat.add].
  rewrite !nth_ram_bytes by lia.
  replace (off + Z.of_nat k + Z.of_nat 0) with (off + Z.of_nat k) by lia.
  replace (off + Z.of_nat (k + 1)) with (off + Z.of_nat k + Z.of_nat 1)
    by lia.
  replace (off + Z.of_nat (k + 2)) with (off + Z.of_nat k + Z.of_nat 2)
    by lia.
  replace (off + Z.of_nat (k + 3)) with (off + Z.of_nat k + Z.of_nat 3)
    by lia.
  reflexivity.
Qed.

Lemma s64_small x : - 2 ^ 63 <= x < 2 ^ 63 -> s64 x = x.
Proof. intros Hx. unfold s64. rewrite Z.mod_small by lia. lia. Qed.

Lemma flog_written_slot m off lba old_map new_map seq base count k :
  0 <= lba < 2 ^ 32 -> 0 <= old_map < 2 ^ 32 -> 0 <= new_map < 2 ^ 32 ->
  0 <= seq < 2 ^ 32 -> - 2 ^ 63 <= off + 12 < 2 ^ 63 ->
  base + Z.of_nat k = off -> (k + 16 <= count)%nat ->
  flog_at (ram_bytes (flog_written m off lba old_map new_map seq) base count)
    k
  = mk_flog lba old_map new_map seq.
Proof.
  intros Hl Ho Hn Hs Hoff Hb Hk. unfold flog_at, le32toh, flog_written.
  rewrite (s64_small _ Hoff).
  rewrite (u32_at_ram_bytes _ base count k),
    (u32_at_ram_bytes _ base count (k + 4)),
    (u32_at_ram_bytes _ base count (k + 8)),
    (u32_at_ram_bytes _ base count (k + 12)) by lia.
  assert (Hlow : forall j x,
    (j + 4 <= 12)%nat ->
    take 4 (drop j (take (Z.to_nat 12)
                      (bytes_of_u32 lba ++ bytes_of_u32 old_map
                         ++ bytes_of_u32 new_map))) = bytes_of_u32 x ->
    0 <= x < 2 ^ 32 ->
    u32_at
      (ram_bytes
         (ram_store
            (ram_store m off
               (take (Z.to_nat 12)
                  (bytes_of_u32 lba ++ bytes_of_u32 old_map
                     ++ bytes_of_u32 new_map)))
            (off + 12) (take (Z.to_nat 4) (bytes_of_u32 seq)))
         (off + Z.of_nat j) 4) 0 = x).
  { intros j x Hj Hwin Hx.
    rewrite ram_bytes_store_other by (left; lia).
    rewrite ram_bytes_store_window
      by (change (length (take (Z.to_nat 12) _)) with 12%nat; lia).
    rewrite Hwin. apply u32_at_bytes_of_u32. exact Hx. }
  replace (base + Z.of_nat k) with (off + Z.of_nat 0) by lia.
  replace (base + Z.of_nat (k + 4)) with (off + Z.of_nat 4) by lia.
  replace (base + Z.of_nat (k + 8)) with (off + Z.of_nat 8) by lia.
  replace (base + Z.of_nat (k + 12)) with (off + 12) by lia.
  rewrite (Hlow 0%nat lba), (Hlow 4%nat old_map), (Hlow 8%nat new_map)
    by (lia || reflexivity).
  rewrite (ram_bytes_store_same _ (off + 12)
             (take (Z.to_nat 4) (bytes_of_u32 seq))
           : ram_bytes _ (off + 12) 4 = _).
  change (take (Z.to_nat 4) (bytes_of_u32 seq)) with (bytes_of_u32 seq).
  rewrite (u32_at_bytes_of_u32 _ Hs). reflexivity.
Qed.

Lemma flog_written_elsewhere m off lba old_map new_map seq base count k :
  - 2 ^ 63 <= off + 12 < 2 ^ 63 -> (k + 4 <= count)%nat ->
  base + Z.of_nat k + 4 <= off \/ off + 16 <= base + Z.of_nat k ->
  u32_at (ram_bytes (flog_written m off lba old_map new_map seq) base count)
    k
  = u32_at (ram_bytes m base count) k.
Proof.
  intros Hoff Hk Hsep. unfold flog_written.
  rewrite (s64_small _ Hoff).
  rewrite !(u32_at_ram_bytes _ base count k) by lia.
  rewrite !ram_bytes_store_other;
    [reflexivity
    |change (Z.of_nat (length (take (Z.to_nat 12) _))) with 12; lia
    |change (Z.of_nat (length (take (Z.to_nat 4) _))) with 4; lia].
Qed.

Section InMemory.

Variable H : layout_h.

(** X14.  A block written is the block read.  On the namespace in memory,
    with no fault and no other lane at work, let btt_write of a block of
    lbasize bytes return 0 on a handle with a layout, and let the block
    it wrote (the free block of the lane) overlap neither the flog slot
    nor the map entry it wrote.  Then btt_read of the same LBA, through
    any lane that has an rtt cell, returns 0 and the bytes written, and
    leaves that rtt cell idle. *)
Theorem read_your_write (st st' : state ram) lane lba buf rlane fuel buf0
    arenap premap_lba a fr off v :
  script (world st) = [] ->
  laidout (bt st) <> 0 ->
  btt_write H ram_env lane lba buf st = Some (0, st') ->
  Z.of_nat (length buf) = lbasize (bt st) ->
  lba_to_arena_lba lba st = Some ((0, arenap, premap_lba), st) ->
  arena_of (bt st) arenap = Some a ->
  flog_of (bt st) arenap lane = Some fr ->
  entries fr (next fr) = Some off ->
  rtt_of (bt st) arenap rlane = Some v ->
  let block_off :=
    data_block_off_of a (post_lba (flog_old_map (flog fr))) in
  let map_off := map_entry_off_of a premap_lba in
  block_off + lbasize (bt st) <= off \/ off + 12 <= block_off ->
  block_off + lbasize (bt st) <= s64 (off + 12) \/
    s64 (off + 12) + 4 <= block_off ->
  block_off + lbasize (bt st) <= map_off \/ map_off + 4 <= block_off ->
  exists st'',
    btt_read ram_env (S fuel) rlane lba buf0 st' = Some ((0, buf), st'') /\
    rtt_of (bt st'') arenap rlane = Some BTT_MAP_ENTRY_ERROR.
Proof.
  intros Hscript Hl Hrun Hlen Hlba Ha Hfr Hoff Hrtt block_off map_off
    Hs1 Hs2 Hs3.
  destruct (btt_write_inv H ram_env st st' lane lba buf Hl Hrun)
    as (arenap' & premap' & a' & fr' & off' & n & data & r1 & r2 & r3 & r4
        & r5 & w1 & w2 & w3 & w4 & Hlt & Hlba' & Ha' & Hfr' & Hoff' & Hn
        & Hw1 & Hrd & Hw3 & Hw4 & Hw5 & _ & _ & _ & _ & _ & _ & Hbt & _).
  rewrite Hlba in Hlba'. injection Hlba' as <- <-.
  rewrite Ha in Ha'. injection Ha' as <-.
  rewrite Hfr in Hfr'. injection Hfr' as <-.
  rewrite Hoff in Hoff'. injection Hoff' as <-.
  cbv zeta in Hw1, Hrd, Hw3, Hw4, Hw5, Hbt.
  fold (post_lba (flog_old_map (flog fr))) in Hw1, Hrd, Hw3, Hw4, Hw5, Hbt.
  fold block_off in Hw1. fold map_off in Hrd, Hw5.
  destruct st as [b [m sc] t e]. cbn [bt world script] in *. subst sc.
  rewrite ram_nswrite_quiet in Hw1.
  match type of Hw1 with (_, mk_ram ?X _) = _ => set (m1 := X) in Hw1 end.
  injection Hw1 as <- <-.
  rewrite ram_nsread_quiet in Hrd. injection Hrd as <- <- <-.
  rewrite ram_nswrite_quiet in Hw3.
  match type of Hw3 with (_, mk_ram ?X _) = _ => set (m3 := X) in Hw3 end.
  injection Hw3 as <- <-.
  rewrite ram_nswrite_quiet in Hw4.
  match type of Hw4 with (_, mk_ram ?X _) = _ => set (m4 := X) in Hw4 end.
  injection Hw4 as <- <-.
  rewrite ram_nswrite_quiet in Hw5.
  match type of Hw5 with (_, mk_ram ?X _) = _ => set (m5 := X) in Hw5 end.
  injection Hw5 as _ Hw.
  destruct st' as [b' w' t' e']. cbn [bt world] in Hbt, Hw. subst b' w'.
  clear Hrun.
  set (free_entry := post_lba (flog_old_map (flog fr))) in *.
  destruct (flog_of_inv _ _ _ _ Hfr) as (a0 & fl & Ha0 & Hfl & _).
  rewrite Ha in Ha0. injection Ha0 as <-.
  match goal with
  | |- context [with_flog b arenap lane ?f] => set (fr' := f)
  end.
  pose proof (arena_of_with_flog b arenap lane fr' a fl Ha Hfl) as Ha1.
  set (a1 := set_flogs (Some (<[Z.to_nat lane := fr']> fl)) a) in Ha1.
  destruct (with_flog_params b arenap lane fr') as (Hnlba & Hlaid & Hlbs).
  assert (Hmap : u32_at (ram_bytes m5 map_off (Z.to_nat 4)) 0 = free_entry).
  { unfold m5.
    change (take (Z.to_nat 4) (bytes_of_u32 free_entry))
      with (bytes_of_u32 free_entry).
    change (Z.to_nat 4) with (length (bytes_of_u32 free_entry)).
    rewrite ram_bytes_store_same. apply u32_at_bytes_of_u32.
    pose proof (post_lba_range (flog_old_map (flog fr))). fold free_entry in H0.
    lia. }
  assert (Hblock : ram_bytes m5 block_off (Z.to_nat (lbasize b)) = buf).
  { unfold m5, m4, m3, m1.
    replace (Z.to_nat (lbasize b)) with (length buf) by lia.
    rewrite (ram_bytes_store_other _ map_off)
      by (change (Z.of_nat (length (take (Z.to_nat 4) _))) with 4; lia).
    rewrite (ram_bytes_store_other _ (s64 (off + 12)))
      by (change (Z.of_nat (length (take (Z.to_nat 4) _))) with 4; lia).
    rewrite (ram_bytes_store_other _ off)
      by (change (Z.of_nat (length (take (Z.to_nat 12) _))) with 12; lia).
    rewrite firstn_all. apply ram_bytes_store_same. }
  edestruct (btt_read_stable_run ram_env
               (mk_state (with_flog b arenap lane fr') (mk_ram m5 []) t' e')
               fuel rlane lba buf0 arenap premap_lba a1 v)
    as (st'' & Hread & _ & _ & Hidle).
  - cbn [bt]. rewrite Hnlba. exact Hlt.
  - cbn [bt]. rewrite Hlaid. exact Hl.
  - eapply lba_to_arena_lba_with_flog. exact Hlba.
  - exact Ha1.
  - cbn [bt]. rewrite rtt_of_with_flog. exact Hrtt.
  - apply ram_nsread_quiet.
  - lia.
  - change (map_entry_off_of a1 premap_lba) with map_off. rewrite Hmap.
    apply post_lba_no_flags.
  - change (map_entry_off_of a1 premap_lba) with map_off. rewrite Hmap.
    apply post_lba_no_flags.
  - apply ram_nsread_quiet.
  - lia.
  - reflexivity.
  - apply ram_nsread_quiet.
  - exists st''. split; [|exact Hidle].
    rewrite Hread. cbn [bt].
    change (map_entry_off_of a1 premap_lba) with map_off. rewrite Hmap.
    change (data_block_off_of a1 free_entry) with block_off.
    rewrite Hlbs, Hblock. reflexivity.
Qed.

(** X15.  A flog entry written is the flog entry found.  On the namespace
    in memory, with no fault, let the run-time flog of a lane describe the
    pair at flog_off (entries flog_off and flog_off + 16, next-write slot
    n, sequence number s in 1..3) and let the other slot of the pair on
    the media carry s.  Then flog_update of 32-bit values returns 0, and
    read_flog_pair of that pair, on any handle that sees the media as the
    update left it, makes (lba, old_map, new_map, NSEQ s) the current
    entry and the other slot the next to write. *)
Theorem flog_update_read_back (st : state ram) lane arenap lba old_map
    new_map fr flog_off n s :
  script (world st) = [] ->
  flog_of (bt st) arenap lane = Some fr ->
  entries0 fr = flog_off -> entries1 fr = flog_off + 16 ->
  0 <= flog_off < 2 ^ 62 ->
  next fr = n -> n = 0 \/ n = 1 ->
  flog_seq (flog fr) = s -> 1 <= s <= 3 ->
  flog_seq (flog_at (ram_bytes (mem (world st)) flog_off 32)
              (slot_at (1 - n))) = s ->
  0 <= lba < 2 ^ 32 -> 0 <= old_map < 2 ^ 32 -> 0 <= new_map < 2 ^ 32 ->
  exists st1,
    flog_update ram_env lane arenap lba old_map new_map st = Some (0, st1) /\
    forall (st2 : state ram) rlane i flognum fr2,
      world st2 = world st1 ->
      flog_of (bt st2) arenap i = Some fr2 ->
      exists rv st3 fr3,
        read_flog_pair H ram_env rlane arenap flog_off i flognum st2
        = Some (rv, st3) /\
        flog_of (bt st3) arenap i = Some fr3 /\
        flog fr3 = mk_flog lba old_map new_map (NSEQ s) /\
        next fr3 = 1 - n.
Proof.
  intros Hscript Hfr He0 He1 Hoff Hnext Hn Hseq Hs Hmedia Hl Ho Hnw.
  destruct (NSEQ_cycle s Hs) as (Hrange & Hne & Hne2 & _).
  destruct st as [b [m sc] t e]. cbn [bt world script mem] in *. subst sc.
  set (off := flog_off + 16 * n).
  assert (Hent : entries fr (next fr) = Some off).
  { unfold entries, off. rewrite Hnext.
    destruct Hn as [-> | ->]; cbn; f_equal; lia. }
  set (m2 := flog_written m off lba old_map new_map (NSEQ s)).
  assert (Hrun : exists st1,
    flog_update ram_env lane arenap lba old_map new_map
      (mk_state b (mk_ram m []) t e) = Some (0, st1) /\
    world st1 = mk_ram m2 []).
  { unfold flog_update, bind. rewrite get_flog_eq. cbn [bt]. rewrite Hfr, Hent.
    cbn [of_option]. unfold ret at 1. unfold htole32.
    change (4 * 3) with 12.
    rewrite (call_nswrite_eq ram_env _ _ _ _ _ _ _ _ _ _
               (ram_nswrite_quiet _ _ _ _ _)).
    change (0 <? 0) with false. cbv beta iota.
    rewrite (call_nswrite_eq ram_env _ _ _ _ _ _ _ _ _ _
               (ram_nswrite_quiet _ _ _ _ _)).
    change (0 <? 0) with false. cbv beta iota.
    rewrite get_flog_eq. cbn [bt]. rewrite Hfr.
    rewrite put_flog_eq. cbn [bt]. rewrite Hfr.
    unfold ret, with_bt. cbn [bt world trace errno].
    eexists. split; [reflexivity|]. cbn [world]. rewrite Hseq. reflexivity. }
  destruct Hrun as (st1 & Hrun & Hw1). exists st1. split; [exact Hrun|].
  intros st2 rlane i flognum fr2 Hw2 Hfr2. rewrite Hw1 in Hw2.
  destruct (read_flog_pair_current H ram_env st2 rlane arenap flog_off i
              flognum fr2 0 (ram_bytes m2 flog_off 32) (mk_ram m2 []) Hfr2)
    as (rv & st3 & fr3 & Hread & Hfl & Hsel).
  { rewrite Hw2. apply ram_nsread_quiet. }
  { lia. }
  exists rv, st3, fr3. split; [exact Hread|]. split; [exact Hfl|].
  assert (Hrng : - 2 ^ 63 <= off + 12 < 2 ^ 63)
    by (unfold off; destruct Hn as [-> | ->]; lia).
  assert (Hnew : flog_at (ram_bytes m2 flog_off 32) (slot_at n)
                 = mk_flog lba old_map new_map (NSEQ s)).
  { unfold m2. apply flog_written_slot; try lia.
    - unfold off. destruct Hn as [-> | ->];
        change (1 - 0) with 1; change (1 - 1) with 0;
        change (slot_at 0) with 0%nat; change (slot_at 1) with 16%nat; lia.
    - destruct Hn as [-> | ->];
        change (1 - 0) with 1; change (1 - 1) with 0;
        change (slot_at 0) with 0%nat; change (slot_at 1) with 16%nat; lia. }
  assert (Hold : flog_seq (flog_at (ram_bytes m2 flog_off 32)
                             (slot_at (1 - n))) = s).
  { rewrite <- Hmedia. unfold flog_at, le32toh. cbn [flog_seq].
    unfold m2. apply flog_written_elsewhere; [exact Hrng | |].
    - destruct Hn as [-> | ->];
        change (1 - 0) with 1; change (1 - 1) with 0;
        change (slot_at 0) with 0%nat; change (slot_at 1) with 16%nat; lia.
    - unfold off. destruct Hn as [-> | ->];
        change (1 - 0) with 1; change (1 - 1) with 0;
        change (slot_at 0) with 0%nat; change (slot_at 1) with 16%nat; lia. }
  assert (Hgoal : (flog fr3, next fr3)
                  = (mk_flog lba old_map new_map (NSEQ s), 1 - n));
    [|injection Hgoal; auto].
  rewrite Hsel.
  destruct Hn as [-> | ->];
    change (1 - 0) with 1 in *; change (1 - 1) with 0 in *;
    change (slot_at 0) with 0%nat in *; change (slot_at 1) with 16%nat in *;
    rewrite Hold, Hnew; cbn [flog_seq].
  - rewrite (proj2 (Z.eqb_neq _ _) Hne).
    rewrite (proj2 (Z.eqb_neq (NSEQ s) 0)) by lia.
    rewrite (proj2 (Z.eqb_neq s 0)) by lia.
    rewrite (proj2 (Z.eqb_neq _ _) Hne2). reflexivity.
  - rewrite (proj2 (Z.eqb_neq s (NSEQ s))) by congruence.
    rewrite (proj2 (Z.eqb_neq s 0)) by lia.
    rewrite (proj2 (Z.eqb_neq (NSEQ s) 0)) by lia.
    rewrite Z.eqb_refl. reflexivity.
Qed.

End InMemory.

(** * Runs for the properties beyond the claims *)

Lemma lba_out_of_range_witness :
  btt_read ram_env 1 0 8 [] (tiny_state ∅ [])
  = Some ((-1, []), rejected (tiny_state ∅ [])).
Proof.
  apply (lba_out_of_range (small_h 2) ram_env (tiny_state ∅ []) 1 0 8 []).
  vm_compute. discriminate.
Defined.

Lemma btt_read_without_layout_witness :
  btt_read ram_env 1 0 3 [] fresh_state
  = Some ((0, replicate 32 0), fresh_state).
Proof.
  apply (btt_read_without_layout ram_env fresh_state 1 0 3 []).
  - reflexivity.
  - vm_compute. reflexivity.
Defined.

Lemma flog_commit_selected_witness :
  exists ret st' fr',
    read_flog_pair (small_h 2) ram_env 0 0 448 0 0
      (tiny_state pair_committed []) = Some (ret, st') /\
    flog_of (bt st') 0 0 = Some fr' /\
    flog fr' = mk_flog 5 5 8 2 /\ next fr' = 0.
Proof.
  eapply flog_commit_selected with (n := 1) (s := 1).
  - reflexivity.
  - reflexivity.
  - reflexivity.
  - vm_compute. discriminate.
  - right. reflexivity.
  - lia.
  - vm_compute. reflexivity.
  - vm_compute. reflexivity.
Defined.

Lemma flog_torn_update_ignored_witness :
  exists ret st' fr',
    read_flog_pair (small_h 2) ram_env 0 0 448 0 0
      (tiny_state pair_torn []) = Some (ret, st') /\
    flog_of (bt st') 0 0 = Some fr' /\
    flog fr' = mk_flog 0 8 8 1 /\ next fr' = 1.
Proof.
  edestruct (@flog_torn_update_ignored ram (small_h 2) ram_env
               (tiny_state pair_torn []) 0 0 448 0 0)
    with (n := 1) (s := 1) (stale := 0)
    as (ret & st' & fr' & Hrun & Hfl & Hf & Hn).
  - reflexivity.
  - reflexivity.
  - reflexivity.
  - vm_compute. discriminate.
  - right. reflexivity.
  - lia.
  - vm_compute. reflexivity.
  - vm_compute. reflexivity.
  - left. reflexivity.
  - exists ret, st', fr'. split; [exact Hrun|]. split; [exact Hfl|].
    split; [rewrite Hf; vm_compute; reflexivity | exact Hn].
Defined.

Lemma flog_update_frame_witness :
  exists rv st',
    flog_update ram_env 0 0 5 8 5 (tiny_state ∅ []) = Some (rv, st') /\
    flog_of (bt st') 0 1 = flog_of tiny_bt 0 1.
Proof.
  eexists. eexists. split.
  - vm_compute. reflexivity.
  - refine (proj1 (flog_update_frame ram_env 0 0%nat 5 8 5
                     (tiny_state ∅ []) _ _ _) 1 _).
    + vm_compute. reflexivity.
    + discriminate.
Defined.

Lemma lba_to_arena_lba_finds_witness :
  exists k a premap_lba,
    lba_to_arena_lba 3 (tiny_state ∅ [])
    = Some ((0, k, premap_lba), tiny_state ∅ []) /\
    [tiny_arena] !! k = Some a /\
    3 = total_nlba (take k [tiny_arena]) + premap_lba /\
    0 <= premap_lba < external_nlba a.
Proof.
  apply (lba_to_arena_lba_finds (tiny_state ∅ []) [tiny_arena] 3).
  - reflexivity.
  - reflexivity.
  - repeat constructor; vm_compute; discriminate.
  - vm_compute. split; [discriminate | reflexivity].
  - reflexivity.
Defined.

Lemma arena_error_refuses_writes_witness :
  btt_write (small_h 2) ram_env 0 3 (replicate 32 7) tiny_state_error
  = Some (-1, failed_eio tiny_state_error).
Proof.
  refine (proj1 (arena_error_refuses_writes (small_h 2) ram_env
                   tiny_state_error 0 3 (replicate 32 7) 0%nat 3
                   (set_flags 1 tiny_arena) _ _ _ _ _)).
  - reflexivity.
  - discriminate.
  - reflexivity.
  - reflexivity.
  - discriminate.
Defined.

Lemma btt_write_order_witness :
  exists st' evs,
    btt_write (small_h 2) ram_env 0 3 (replicate 32 7) (tiny_state ∅ [])
    = Some (0, st') /\
    trace st' = trace (tiny_state ∅ []) ++ evs /\ length evs = 7%nat.
Proof.
  destruct (btt_write (small_h 2) ram_env 0 3 (replicate 32 7)
              (tiny_state ∅ [])) as [[rv st']|] eqn:Hrun;
    [|vm_compute in Hrun; discriminate].
  assert (rv = 0) as -> by (vm_compute in Hrun; congruence).
  destruct (btt_write_order (small_h 2) ram_env (tiny_state ∅ []) st' 0 3
              (replicate 32 7))
    as (arenap & premap_lba & a & fr & off & n & data & r1 & r2 & r3
        & r4 & r5 & _ & _ & _ & _ & _ & Htr & _).
  - discriminate.
  - exact Hrun.
  - eexists st', _. split; [reflexivity|]. split; [exact Htr|reflexivity].
Defined.

Lemma btt_read_is_reader_witness :
  exists rv st',
    btt_read ram_env 1 0 3 [] (tiny_state ∅ []) = Some (rv, st') /\
    adds (is_nsread_of 0) (tiny_state ∅ []) st'.
Proof.
  destruct (btt_read ram_env 1 0 3 [] (tiny_state ∅ []))
    as [[rv st']|] eqn:Hrun; [|vm_compute in Hrun; discriminate].
  exists rv, st'. split; [reflexivity|].
  exact (proj1 (btt_read_is_reader ram_env (tiny_state ∅ []) st' 1 0 3 []
                  rv Hrun)).
Defined.

Lemma write_layout_dry_run_witness :
  let st :=
    mk_state (mk_btt 0 0 (replicate 16 7) 8192 32 2 0 0 None) ram0 [] 0 in
  exists st',
    write_layout (small_h 2) ram_env 0 0 st = Some (0, st') /\
    narena (bt st') = 2 /\ nlba (bt st') = 206 /\
    world st' = ram0 /\ trace st' = [].
Proof.
  intros st.
  destruct (write_layout (small_h 2) ram_env 0 0 st) as [[rv st']|] eqn:Hrun;
    [|vm_compute in Hrun; discriminate].
  destruct (write_layout_dry_run (small_h 2) ram_env st st' 0 rv Hrun)
    as (-> & Hw & Ht & _).
  exists st'. split; [reflexivity|].
  vm_compute in Hrun. injection Hrun as <-.
  repeat split; reflexivity.
Defined.

Lemma writers_release_locks_witness :
  exists rv st',
    btt_write (small_h 2) ram_env 1 5 (replicate 32 9)
      (tiny_state ∅ [Quiet; Fault])
    = Some (rv, st') /\
    locks_step [] [] (tiny_state ∅ [Quiet; Fault]) st'.
Proof.
  destruct (btt_write (small_h 2) ram_env 1 5 (replicate 32 9)
              (tiny_state ∅ [Quiet; Fault])) as [[rv st']|] eqn:Hrun;
    [|vm_compute in Hrun; discriminate].
  exists rv, st'. split; [reflexivity|].
  exact (writers_release_locks (small_h 2) ram_env
           (tiny_state ∅ [Quiet; Fault]) st' 1 5 (replicate 32 9) rv
           (or_introl Hrun)).
Defined.

Lemma btt_check_only_looks_witness :
  exists rv st',
    btt_check ram_env (tiny_state ∅ []) = Some (rv, st') /\
    adds checks (tiny_state ∅ []) st' /\ bt st' = tiny_bt.
Proof.
  destruct (btt_check ram_env (tiny_state ∅ [])) as [[rv st']|] eqn:Hrun;
    [|vm_compute in Hrun; discriminate].
  exists rv, st'. split; [reflexivity|].
  destruct (btt_check_only_looks ram_env (tiny_state ∅ []) st' rv Hrun)
    as (Hadds & Hbt & _).
  split; [exact Hadds | exact Hbt].
Defined.

Lemma check_arena_verdict_witness :
  exists st' evs,
    check_arena ram_env 0 (tiny_state identity_map []) = Some (1, st') /\
    trace st' = evs /\
    NoDup (map post_lba (loaded evs) ++ [8; 9]).
Proof.
  destruct (check_arena ram_env 0 (tiny_state identity_map []))
    as [[rv st']|] eqn:Hrun; [|vm_compute in Hrun; discriminate].
  assert (rv = 1) as -> by (vm_compute in Hrun; congruence).
  destruct (check_arena_verdict ram_env (tiny_state identity_map []) st' 0
              tiny_arena
              [mk_flog_runtime (mk_flog 0 8 8 1) 448 464 1;
               mk_flog_runtime (mk_flog 0 9 9 1) 480 496 1] 1)
    as (evs & Ht & _ & _ & Hiff).
  - reflexivity.
  - reflexivity.
  - exact Hrun.
  - discriminate.
  - exists st', evs. split; [reflexivity|]. split; [exact Ht|].
    exact (proj1 (proj1 Hiff eq_refl)).
Defined.

Lemma read_your_write_witness :
  exists st' st'',
    btt_write (small_h 2) ram_env 0 3 (replicate 32 7) (tiny_state ∅ [])
    = Some (0, st') /\
    btt_read ram_env 1 1 3 [] st' = Some ((0, replicate 32 7), st'').
Proof.
  destruct (btt_write (small_h 2) ram_env 0 3 (replicate 32 7)
              (tiny_state ∅ [])) as [[rv st']|] eqn:Hrun;
    [|vm_compute in Hrun; discriminate].
  assert (rv = 0) as -> by (vm_compute in Hrun; congruence).
  destruct (read_your_write (small_h 2) (tiny_state ∅ []) st' 0 3
              (replicate 32 7) 1 0%nat [] 0%nat 3 tiny_arena
              (mk_flog_runtime (mk_flog 0 8 8 1) 448 464 1) 464
              BTT_MAP_ENTRY_ERROR)
    as (st'' & Hread & _).
  - reflexivity.
  - discriminate.
  - exact Hrun.
  - reflexivity.
  - reflexivity.
  - reflexivity.
  - reflexivity.
  - reflexivity.
  - reflexivity.
  - left. vm_compute. discriminate.
  - left. vm_compute. discriminate.
  - left. vm_compute. discriminate.
  - exists st', st''. split; [reflexivity | exact Hread].
Defined.

Lemma flog_update_read_back_witness :
  exists st1 rv st3 fr3,
    flog_update ram_env 0 0 3 0 8 (tiny_state pair_initial [])
    = Some (0, st1) /\
    read_flog_pair (small_h 2) ram_env 0 0 448 0 0
      (mk_state tiny_bt (world st1) [] 0) = Some (rv, st3) /\
    flog_of (bt st3) 0 0 = Some fr3 /\
    flog fr3 = mk_flog 3 0 8 2 /\ next fr3 = 0.
Proof.
  destruct (flog_update_read_back (small_h 2) (tiny_state pair_initial [])
              0 0%nat 3 0 8 (mk_flog_runtime (mk_flog 0 8 8 1) 448 464 1)
              448 1 1) as (st1 & Hrun & Hback).
  - reflexivity.
  - reflexivity.
  - reflexivity.
  - reflexivity.
  - lia.
  - reflexivity.
  - right. reflexivity.
  - reflexivity.
  - lia.
  - vm_compute. reflexivity.
  - lia.
  - lia.
  - lia.
  - destruct (Hback (mk_state tiny_bt (world st1) [] 0) 0 0 0
                (mk_flog_runtime (mk_flog 0 8 8 1) 448 464 1)
                eq_refl eq_refl) as (rv & st3 & fr3 & Hread & Hfl & Hf & Hn).
    exists st1, rv, st3, fr3. auto.
Defined.

(** ** btt_init on the namespace after a crash: the map update that the
    crash cut short is completed by a write of four bytes at 3504 *)

Lemma btt_init_opens_witness :
  exists b st',
    btt_init (small_h 2) ram_env 4 4096 32 (replicate 16 7) 0
      (state0 (world st_crashed1)) = Some (Some b, st') /\
    trace st' !! 7%nat = Some (EvNsWrite 0 [103; 0; 0; 0] 4 3504 0) /\
    length (trace st') = 11%nat /\
    adds opens (state0 (world st_crashed1)) st'.
Proof.
  assert (Hh : option_map (fun x => match fst x with Some _ => true | None => false end)
            (btt_init (small_h 2) ram_env 4 4096 32 (replicate 16 7) 0
               (state0 (world st_crashed1))) = Some true)
    by (vm_compute; reflexivity).
  assert (Hw : option_map (fun x => trace (snd x) !! 7%nat)
            (btt_init (small_h 2) ram_env 4 4096 32 (replicate 16 7) 0
               (state0 (world st_crashed1)))
          = Some (Some (EvNsWrite 0 [103; 0; 0; 0] 4 3504 0)))
    by (vm_compute; reflexivity).
  assert (Hlen : option_map (fun x => length (trace (snd x)))
            (btt_init (small_h 2) ram_env 4 4096 32 (replicate 16 7) 0
               (state0 (world st_crashed1))) = Some 11%nat)
    by (vm_compute; reflexivity).
  destruct (btt_init (small_h 2) ram_env 4 4096 32 (replicate 16 7) 0
              (state0 (world st_crashed1))) as [[[b|] st']|] eqn:Hrun;
    [|discriminate Hh..].
  apply Some_inj in Hw, Hlen. cbn [snd] in Hw, Hlen.
  exists b, st'. split; [reflexivity|]. split; [exact Hw|].
  split; [exact Hlen|].
  exact (btt_init_opens (small_h 2) ram_env (state0 (world st_crashed1)) st'
           4 4096 32 (replicate 16 7) 0 (Some b) Hrun).
Defined.

(** ** A recovery write that leaves the map *)

(** X18.  The recovery write of read_flog_pair is not confined to the map:
    the lba of the flog entry is not checked.  btt_init on [media_stray1]
    returns a handle; the map of its one arena has 103 entries from 3504
    on, so it ends before 3984, where the backup info block begins; and
    the four bytes at 3984, the start of the signature of that info block,
    have been overwritten with the new entry of the flog, 0. *)
Theorem recovery_write_outside_map :
  exists b a st',
    btt_init (small_h 2) ram_env 4 4096 32 (replicate 16 7) 0
      (state0 (mk_ram media_stray1 [])) = Some (Some b, st') /\
    arena_of b 0 = Some a /\
    mapoff a + BTT_MAP_ENTRY_SIZE * external_nlba a <= 3984 /\
    3984 = rawsize b - sizeof_btt_info (small_h 2) /\
    trace st' !! 7%nat = Some (EvNsWrite 0 [0; 0; 0; 0] 4 3984 0) /\
    ram_bytes media_stray1 3984 4 = [66; 84; 84; 95] /\
    ram_bytes (mem (world st')) 3984 4 = [0; 0; 0; 0].
Proof.
  assert (Hb : option_map
            (fun x =>
               match fst x with
               | Some b =>
                   match arena_of b 0 with
                   | Some a =>
                       (mapoff a + BTT_MAP_ENTRY_SIZE * external_nlba a
                        <=? 3984) &&
                       (3984 =? rawsize b - sizeof_btt_info (small_h 2))
                   | None => false
                   end
               | None => false
               end)
            (btt_init (small_h 2) ram_env 4 4096 32 (replicate 16 7) 0
               (state0 (mk_ram media_stray1 []))) = Some true)
    by (vm_compute; reflexivity).
  assert (Hw : option_map (fun x => trace (snd x) !! 7%nat)
            (btt_init (small_h 2) ram_env 4 4096 32 (replicate 16 7) 0
               (state0 (mk_ram media_stray1 [])))
          = Some (Some (EvNsWrite 0 [0; 0; 0; 0] 4 3984 0)))
    by (vm_compute; reflexivity).
  assert (Hm : option_map (fun x => ram_bytes (mem (world (snd x))) 3984 4)
            (btt_init (small_h 2) ram_env 4 4096 32 (replicate 16 7) 0
               (state0 (mk_ram media_stray1 [])))
          = Some [0; 0; 0; 0]) by (vm_compute; reflexivity).
  destruct (btt_init (small_h 2) ram_env 4 4096 32 (replicate 16 7) 0
              (state0 (mk_ram media_stray1 []))) as [[[b|] st']|];
    [|discriminate Hb..].
  apply Some_inj in Hb, Hw, Hm. cbn [fst snd] in Hb, Hw, Hm.
  destruct (arena_of b 0) as [a|] eqn:Ha; [|discriminate Hb].
  apply andb_prop in Hb as [Hle Heq].
  apply Z.leb_le in Hle. apply Z.eqb_eq in Heq.
  exists b, a, st'. split; [reflexivity|]. split; [exact Ha|].
  split; [exact Hle|]. split; [exact Heq|]. split; [exact Hw|].
  split; [vm_compute; reflexivity | exact Hm].
Qed.
